(** * The value type layer of go-mysql-server ([sql/type.go])

    A shallow embedding of the SQL types of [sql/type.go] (their [Convert],
    [Compare] and [SQL] methods, the classification predicates and the
    schema row check) together with the properties the specification
    states about them.

    Conventions of the embedding:
    - a Go [interface{}] value is a [Value];
    - a Go call that returns [(x, error)] is a computation in the monad [M]:
      it yields [Ok x], [Err e] (the returned error; the value returned
      beside a non-nil error is dropped) or [Fault msg] (a run-time panic),
      and it logs the calls made on lazy producers ([Generator]s);
    - the Go standard library and [spf13/cast] are not part of the
      repository: the numeric casts and the [time] layouts used by
      [type.go] are modelled directly, the text parsers/printers of
      [strconv], [encoding/json] and the zone database are the fields of the
      class [GoLib]. *)

From Stdlib Require Import ZArith List String Ascii Bool Lia.
From Stdlib Require Import Strings.Byte.
From Stdlib Require Import Floats.SpecFloat DecimalString.
Import ListNotations.
Local Open Scope string_scope.
Local Open Scope list_scope.
Local Open Scope Z_scope.

(* ================================================================== *)
(** ** Errors *)

(** The error kinds of [type.go] (and of the rest of package [sql] that
    [type.go] refers to), [io.EOF], and the errors built by [fmt.Errorf],
    by [cast] and by a producer. *)
Inductive Error : Type :=
  | ErrTypeNotSupported
  | ErrUnexpectedType (idx : nat) (typ : string)
  | ErrUnexpectedRowLength (expected got : nat)
  | ErrConvertingToTime
  | ErrValueNotNil
  | ErrNotTuple
  | ErrInvalidColumnNumber (expected got : nat)
  | ErrNotArray
  | ErrConvertToSQL
  | ErrInvalidType
  | io_EOF
  | errNegativeNotAllowed
  | ErrUnableToCast (target : string)
  | fmt_Errorf (msg : string)
  | ErrJSON
  | ErrProducer (msg : string).

(** [err == io.EOF] *)
Definition is_EOF (e : Error) : bool :=
  match e with io_EOF => true | _ => false end.

(* ================================================================== *)
(** ** Outcomes, events and the monad of Go calls *)

Inductive Result (A : Type) : Type :=
  | Ok (a : A)
  | Err (e : Error)
  | Fault (msg : string).
Arguments Ok {A} a.
Arguments Err {A} e.
Arguments Fault {A} msg.

(** Calls made on a lazy producer, identified by its number. *)
Inductive Event : Type :=
  | EvNext (g : nat)
  | EvClose (g : nat).

Definition M (A : Type) : Type := (Result A * list Event)%type.

Definition ret {A} (a : A) : M A := (Ok a, []).
Definition throw {A} (e : Error) : M A := (Err e, []).
Definition panic {A} (msg : string) : M A := (Fault msg, []).
Definition tell (ev : Event) : M unit := (Ok tt, [ev]).

Definition bind {A B} (m : M A) (f : A -> M B) : M B :=
  match m with
  | (Ok a, l1) => let (r, l2) := f a in (r, l1 ++ l2)
  | (Err e, l1) => (Err e, l1)
  | (Fault p, l1) => (Fault p, l1)
  end.

Declare Scope go_scope.
Delimit Scope go_scope with go.
Notation "x <- m ;; k" := (bind m (fun x => k))
  (at level 61, m at next level, right associativity) : go_scope.
Notation "m ;;; k" := (bind m (fun _ => k))
  (at level 61, right associativity) : go_scope.
Local Open Scope go_scope.

Definition result {A} (m : M A) : Result A := fst m.
Definition events {A} (m : M A) : list Event := snd m.

Definition succeeds {A} (m : M A) : bool :=
  match result m with Ok _ => true | _ => false end.

(** Number of [Close] calls on producer [g] in a log. *)
Fixpoint closes (g : nat) (l : list Event) : nat :=
  match l with
  | [] => 0%nat
  | EvClose g' :: l' => ((if Nat.eqb g g' then 1 else 0) + closes g l')%nat
  | EvNext _ :: l' => closes g l'
  end.

(** Runs [f] over a list in order, stopping at the first error. *)
Fixpoint mapM {A B} (f : A -> M B) (l : list A) : M (list B) :=
  match l with
  | [] => ret []
  | x :: l' => y <- f x ;; ys <- mapM f l' ;; ret (y :: ys)
  end.

(* ================================================================== *)
(** ** Go integers *)

Inductive IntKind : Type :=
  | KInt | KInt8 | KInt16 | KInt32 | KInt64
  | KUint | KUint8 | KUint16 | KUint32 | KUint64.

(** [int] and [uint] are 64 bits wide (a 64-bit platform). *)
Definition bits (k : IntKind) : Z :=
  match k with
  | KInt8 | KUint8 => 8
  | KInt16 | KUint16 => 16
  | KInt32 | KUint32 => 32
  | KInt | KInt64 | KUint | KUint64 => 64
  end.

Definition signed (k : IntKind) : bool :=
  match k with
  | KInt | KInt8 | KInt16 | KInt32 | KInt64 => true
  | _ => false
  end.

Definition min_int (k : IntKind) : Z :=
  if signed k then - 2 ^ (bits k - 1) else 0.
Definition max_int (k : IntKind) : Z :=
  if signed k then 2 ^ (bits k - 1) - 1 else 2 ^ bits k - 1.

Definition in_range (k : IntKind) (z : Z) : bool :=
  (min_int k <=? z) && (z <=? max_int k).

(** The integer conversion [T(z)] between integer types: wrap-around. *)
Definition wrap (k : IntKind) (z : Z) : Z :=
  if signed k
  then (z + 2 ^ (bits k - 1)) mod 2 ^ bits k - 2 ^ (bits k - 1)
  else z mod 2 ^ bits k.

Definition kind_name (k : IntKind) : string :=
  match k with
  | KInt => "int" | KInt8 => "int8" | KInt16 => "int16"
  | KInt32 => "int32" | KInt64 => "int64"
  | KUint => "uint" | KUint8 => "uint8" | KUint16 => "uint16"
  | KUint32 => "uint32" | KUint64 => "uint64"
  end.

Definition IntKind_eqb (a b : IntKind) : bool :=
  String.eqb (kind_name a) (kind_name b).

(** [strconv.FormatInt(z, 10)] *)
Definition FormatInt (z : Z) : string := NilZero.string_of_int (Z.to_int z).

(* ================================================================== *)
(** ** Go floats

    A [float64] (or [float32]) is an IEEE 754 datum without NaN payload. *)

Definition float : Type := spec_float.

Definition float64_of_Z (z : Z) : float := binary_normalize 53 1024 z 0 false.
Definition float32_of_Z (z : Z) : float := binary_normalize 24 128 z 0 false.

(** [float32(f)] of a [float64]: rounding to 24 bits of mantissa. *)
Definition float32_of_float64 (f : float) : float :=
  match f with
  | S754_finite s m e => binary_round 24 128 s m e
  | _ => f
  end.

(** The integer part of a finite float (rounding toward zero). *)
Definition float_trunc (f : float) : option Z :=
  match f with
  | S754_zero _ => Some 0
  | S754_finite s m e =>
      let a := if 0 <=? e then Zpos m * 2 ^ e else Zpos m / 2 ^ (- e) in
      Some (if s then - a else a)
  | _ => None
  end.

(** The conversion instructions of amd64 to a signed integer of 32 and of
    64 bits: the fraction is discarded, and a value that does not fit (an
    infinity and a NaN too) gives the integer indefinite value, the least
    integer of the width. *)
Definition cvt32 (f : float) : Z :=
  match float_trunc f with
  | Some z => if in_range KInt32 z then z else - 2 ^ 31
  | None => - 2 ^ 31
  end.

Definition cvt64 (f : float) : Z :=
  match float_trunc f with
  | Some z => if in_range KInt64 z then z else - 2 ^ 63
  | None => - 2 ^ 63
  end.

(** [T(f)] of a float to an integer type.  When the integer part does not
    fit Go leaves the result to the implementation; the embedding takes what
    the compiler does on amd64: a 64-bit conversion for [int], [int64] and
    [uint32], a 32-bit conversion for [int32] and the narrower types, each
    cut to the width; for [uint64] a 64-bit conversion below [2^63], and
    from there on the conversion of [f - 2^63] with the top bit set. *)
Definition int_of_float (k : IntKind) (f : float) : Z :=
  match k with
  | KInt | KInt64 => cvt64 f
  | KInt32 => cvt32 f
  | KInt8 | KInt16 | KUint8 | KUint16 => wrap k (cvt32 f)
  | KUint32 => wrap k (cvt64 f)
  | KUint | KUint64 =>
      match float_trunc f with
      | Some z =>
          if z <? 2 ^ 63 then wrap k (cvt64 f)
          else if z <? 2 ^ 64 then z
          else 2 ^ 63
      | None => 2 ^ 63
      end
  end.

(** [s < 0] on a float. *)
Definition float_is_neg (f : float) : bool := SFltb f (S754_zero false).

(** [math.Round]: nearest integer, halves away from zero. *)
Definition math_Round (f : float) : float :=
  match f with
  | S754_finite s m e =>
      if 0 <=? e then f
      else
        let a := (Zpos m + 2 ^ (- e - 1)) / 2 ^ (- e) in
        binary_normalize 53 1024 (if s then - a else a) 0 s
  | _ => f
  end.

(* ================================================================== *)
(** ** Go time: instants, locations, the civil calendar *)

Inductive Location : Type :=
  | UTC
  | Local
  | FixedZone (offset : Z).

(** A [time.Time]: seconds and nanoseconds since the Unix epoch, and the
    location the instant is shown in. *)
Record Time : Type := mkTime { unixSec : Z; nsec : Z; loc : Location }.

Definition time_Second : Z := 1000000000.
Definition time_Hour : Z := 3600 * time_Second.

(** [t.UTC()] *)
Definition Time_UTC (t : Time) : Time := mkTime (unixSec t) (nsec t) UTC.
(** [t.Unix()] *)
Definition Time_Unix (t : Time) : Z := wrap KInt64 (unixSec t).
(** [t.UnixNano()] *)
Definition Time_UnixNano (t : Time) : Z :=
  wrap KInt64 (unixSec t * time_Second + nsec t).
(** [time.Unix(sec, nsec)] *)
Definition time_Unix (sec ns : Z) : Time :=
  mkTime (sec + ns / time_Second) (ns mod time_Second) Local.

(** [t.Before(u)], [t.After(u)] *)
Definition Time_Before (t u : Time) : bool :=
  (unixSec t <? unixSec u) || ((unixSec t =? unixSec u) && (nsec t <? nsec u)).
Definition Time_After (t u : Time) : bool :=
  (unixSec u <? unixSec t) || ((unixSec t =? unixSec u) && (nsec u <? nsec t)).

(** Seconds from 1 January of year 1 to the Unix epoch. *)
Definition unixToInternal : Z := 62135596800.

(** [t.Truncate(d)]: [t] rounded down to a multiple of [d] since the zero
    time; the location is kept. *)
Definition Time_Truncate (t : Time) (d : Z) : Time :=
  if d <=? 0 then t
  else
    let total := unixSec t * time_Second + nsec t in
    let r := (total + unixToInternal * time_Second) mod d in
    mkTime ((total - r) / time_Second) ((total - r) mod time_Second) (loc t).

(** Days from the Unix epoch of a civil date, and back. *)
Definition days_from_civil (y m d : Z) : Z :=
  let y' := if m <=? 2 then y - 1 else y in
  let era := y' / 400 in
  let yoe := y' - era * 400 in
  let doy := (153 * (m + (if 2 <? m then -3 else 9)) + 2) / 5 + d - 1 in
  let doe := yoe * 365 + yoe / 4 - yoe / 100 + doy in
  era * 146097 + doe - 719468.

Definition civil_from_days (z : Z) : Z * Z * Z :=
  let z' := z + 719468 in
  let era := z' / 146097 in
  let doe := z' - era * 146097 in
  let yoe := (doe - doe / 1460 + doe / 36524 - doe / 146096) / 365 in
  let doy := doe - (365 * yoe + yoe / 4 - yoe / 100) in
  let mp := (5 * doy + 2) / 153 in
  let d := doy - (153 * mp + 2) / 5 + 1 in
  let m := mp + (if mp <? 10 then 3 else -9) in
  ((yoe + era * 400 + (if m <=? 2 then 1 else 0)), m, d).

Definition isLeap (year : Z) : bool :=
  (year mod 4 =? 0) && (negb (year mod 100 =? 0) || (year mod 400 =? 0)).

Definition daysIn (m year : Z) : Z :=
  if (m =? 2) && isLeap year then 29
  else if m =? 2 then 28
  else if (m =? 4) || (m =? 6) || (m =? 9) || (m =? 11) then 30
  else 31.

(** [time.Date(year, month, day, hour, min, sec, nsec, time.UTC)] *)
Definition time_Date (year month day hour min sec ns : Z) : Time :=
  mkTime (days_from_civil year month day * 86400 + hour * 3600 + min * 60 + sec
          + ns / time_Second)
         (ns mod time_Second) UTC.

(* ================================================================== *)
(** ** Go time: layouts

    The layout elements that occur in the layouts of [type.go]; on those
    layouts the chunking below is the one of [time.nextStdChunk]. *)

Inductive Chunk : Type :=
  | stdLongYear          (* 2006 *)
  | stdZeroMonth         (* 01 *)
  | stdZeroDay           (* 02 *)
  | stdHour              (* 15 *)
  | stdZeroMinute        (* 04 *)
  | stdZeroSecond        (* 05 *)
  | stdISO8601ColonTZ    (* Z07:00 *)
  | literal (prefix : string).

Fixpoint drop_str (n : nat) (s : string) : string :=
  match n, s with
  | O, _ => s
  | S n', String _ s' => drop_str n' s'
  | S _, EmptyString => EmptyString
  end.

Definition std_at (layout : string) : option (Chunk * nat) :=
  if prefix "2006" layout then Some (stdLongYear, 4%nat)
  else if prefix "01" layout then Some (stdZeroMonth, 2%nat)
  else if prefix "02" layout then Some (stdZeroDay, 2%nat)
  else if prefix "04" layout then Some (stdZeroMinute, 2%nat)
  else if prefix "05" layout then Some (stdZeroSecond, 2%nat)
  else if prefix "15" layout then Some (stdHour, 2%nat)
  else if prefix "Z07:00" layout then Some (stdISO8601ColonTZ, 6%nat)
  else None.

Definition flush (acc : string) : list Chunk :=
  match acc with EmptyString => [] | _ => [literal acc] end.

Fixpoint chunks_of (fuel : nat) (layout acc : string) : list Chunk :=
  match fuel with
  | O => flush acc
  | S fuel' =>
      match layout with
      | EmptyString => flush acc
      | String c rest =>
          match std_at layout with
          | Some (std, n) => flush acc ++ std :: chunks_of fuel' (drop_str n layout) ""
          | None => chunks_of fuel' rest (acc ++ String c "")%string
          end
      end
  end.

Definition layout_chunks (layout : string) : list Chunk :=
  chunks_of (S (String.length layout)) layout "".

Definition isDigit (c : ascii) : bool :=
  (48 <=? nat_of_ascii c)%nat && (nat_of_ascii c <=? 57)%nat.
Definition digit (c : ascii) : Z := Z.of_nat (nat_of_ascii c) - 48.

(** [time.getnum] *)
Definition getnum (s : string) (fixed : bool) : option (Z * string) :=
  match s with
  | String a (String b rest) =>
      if isDigit a then
        if isDigit b then Some (digit a * 10 + digit b, rest)
        else if fixed then None else Some (digit a, String b rest)
      else None
  | String a EmptyString =>
      if isDigit a then (if fixed then None else Some (digit a, EmptyString))
      else None
  | EmptyString => None
  end.

Fixpoint cutspace (s : string) : string :=
  match s with
  | String " " s' => cutspace s'
  | _ => s
  end.

(** [time.skip]: a space of the layout stands for any run of spaces. *)
Fixpoint skip_fuel (fuel : nat) (value pre : string) : option string :=
  match fuel with
  | O => match pre with EmptyString => Some value | _ => None end
  | S fuel' =>
      match pre with
      | EmptyString => Some value
      | String " " _ =>
          match value with
          | String c _ =>
              if Ascii.eqb c " " then skip_fuel fuel' (cutspace value) (cutspace pre)
              else None
          | EmptyString => skip_fuel fuel' (cutspace value) (cutspace pre)
          end
      | String p pre' =>
          match value with
          | String c value' => if Ascii.eqb c p then skip_fuel fuel' value' pre' else None
          | EmptyString => None
          end
      end
  end.

Definition skip (value pre : string) : option string :=
  skip_fuel (S (String.length pre)) value pre.

(** The digits a string starts with, and the rest. *)
Fixpoint span_digits (s : string) : list Z * string :=
  match s with
  | String c s' =>
      if isDigit c then let (ds, r) := span_digits s' in (digit c :: ds, r)
      else ([], s)
  | EmptyString => ([], s)
  end.

(** The value of at most nine fraction digits, in nanoseconds. *)
Fixpoint nanos_of (width : nat) (ds : list Z) : Z :=
  match width with
  | O => 0
  | S w =>
      match ds with
      | d :: ds' => d * 10 ^ Z.of_nat w + nanos_of w ds'
      | [] => 0
      end
  end.

Definition commaOrPeriod (c : ascii) : bool := Ascii.eqb c "." || Ascii.eqb c ",".

Record Fields : Type := mkFields {
  f_year : Z; f_month : Z; f_day : Z;
  f_hour : Z; f_min : Z; f_sec : Z; f_nsec : Z;
  f_zone : option Location }.

Definition fields0 : Fields := mkFields 0 1 1 0 0 0 0 None.

Definition set_year y f := mkFields y (f_month f) (f_day f) (f_hour f) (f_min f) (f_sec f) (f_nsec f) (f_zone f).
Definition set_month x f := mkFields (f_year f) x (f_day f) (f_hour f) (f_min f) (f_sec f) (f_nsec f) (f_zone f).
Definition set_day x f := mkFields (f_year f) (f_month f) x (f_hour f) (f_min f) (f_sec f) (f_nsec f) (f_zone f).
Definition set_hour x f := mkFields (f_year f) (f_month f) (f_day f) x (f_min f) (f_sec f) (f_nsec f) (f_zone f).
Definition set_min x f := mkFields (f_year f) (f_month f) (f_day f) (f_hour f) x (f_sec f) (f_nsec f) (f_zone f).
Definition set_sec x ns f := mkFields (f_year f) (f_month f) (f_day f) (f_hour f) (f_min f) x ns (f_zone f).
Definition set_zone z f := mkFields (f_year f) (f_month f) (f_day f) (f_hour f) (f_min f) (f_sec f) (f_nsec f) (Some z).

(** The four digits of a year. *)
Definition parse_year (value : string) : option (Z * string) :=
  match value with
  | String a (String b (String c (String d rest))) =>
      if isDigit a && isDigit b && isDigit c && isDigit d
      then Some (digit a * 1000 + digit b * 100 + digit c * 10 + digit d, rest)
      else None
  | _ => None
  end.

(** The seconds field and, when the value goes on with a fraction that the
    layout does not have, the fraction. *)
Definition parse_second (value : string) : option (Z * Z * string) :=
  match getnum value true with
  | Some (s, rest) =>
      if (s <? 0) || (60 <=? s) then None
      else
        match rest with
        | String p (String d rest') =>
            if commaOrPeriod p && isDigit d then
              let (ds, r) := span_digits (String d rest') in
              Some (s, nanos_of 9 ds, r)
            else Some (s, 0, rest)
        | _ => Some (s, 0, rest)
        end
  | None => None
  end.

(** [Z] for UTC, or a signed [hh:mm] offset (kept in seconds). *)
Definition parse_zone (value : string) : option (Location * string) :=
  match value with
  | String "Z" rest => Some (UTC, rest)
  | String sg (String h1 (String h2 (String ":" (String m1 (String m2 rest))))) =>
      match getnum (String h1 (String h2 "")) true,
            getnum (String m1 (String m2 "")) true with
      | Some (hr, _), Some (mm, _) =>
          if (24 <? hr) || (60 <? mm) then None
          else if Ascii.eqb sg "+" then Some (FixedZone ((hr * 60 + mm) * 60), rest)
          else if Ascii.eqb sg "-" then Some (FixedZone (- ((hr * 60 + mm) * 60)), rest)
          else None
      | _, _ => None
      end
  | _ => None
  end.

Fixpoint parse_chunks (cs : list Chunk) (value : string) (f : Fields) : option Fields :=
  match cs with
  | [] => match value with EmptyString => Some f | _ => None end
  | literal p :: cs' =>
      match skip value p with
      | Some value' => parse_chunks cs' value' f
      | None => None
      end
  | stdLongYear :: cs' =>
      match parse_year value with
      | Some (y, value') => parse_chunks cs' value' (set_year y f)
      | None => None
      end
  | stdZeroMonth :: cs' =>
      match getnum value true with
      | Some (m, value') =>
          if (m <=? 0) || (12 <? m) then None else parse_chunks cs' value' (set_month m f)
      | None => None
      end
  | stdZeroDay :: cs' =>
      match getnum value true with
      | Some (d, value') => parse_chunks cs' value' (set_day d f)
      | None => None
      end
  | stdHour :: cs' =>
      match getnum value false with
      | Some (h, value') =>
          if (h <? 0) || (24 <=? h) then None else parse_chunks cs' value' (set_hour h f)
      | None => None
      end
  | stdZeroMinute :: cs' =>
      match getnum value true with
      | Some (m, value') =>
          if (m <? 0) || (60 <=? m) then None else parse_chunks cs' value' (set_min m f)
      | None => None
      end
  | stdZeroSecond :: cs' =>
      match parse_second value with
      | Some (s, ns, value') => parse_chunks cs' value' (set_sec s ns f)
      | None => None
      end
  | stdISO8601ColonTZ :: cs' =>
      match parse_zone value with
      | Some (z, value') => parse_chunks cs' value' (set_zone z f)
      | None => None
      end
  end.

(** [time.Parse(layout, value)]: [None] stands for a parse error.  A value
    read with a zone offset denotes the instant that many seconds earlier. *)
Definition time_Parse (layout value : string) : option Time :=
  match parse_chunks (layout_chunks layout) value fields0 with
  | Some f =>
      if (f_day f <? 1) || (daysIn (f_month f) (f_year f) <? f_day f) then None
      else
        let t := time_Date (f_year f) (f_month f) (f_day f)
                           (f_hour f) (f_min f) (f_sec f) (f_nsec f) in
        match f_zone f with
        | Some (FixedZone off) => Some (mkTime (unixSec t - off) (nsec t) (FixedZone off))
        | _ => Some t
        end
  | None => None
  end.

(** [appendInt]: decimal, padded with zeros to [width] digits. *)
Definition appendInt (x : Z) (width : nat) : string :=
  let s := FormatInt (Z.abs x) in
  ((if (x <? 0)%Z then "-" else "") ++
   string_of_list_ascii (repeat "0"%char (width - String.length s)%nat) ++ s)%string.

Fixpoint format_chunks (cs : list Chunk) (offset : Z) (t : Time) : string :=
  match cs with
  | [] => ""
  | c :: cs' =>
      let abs := unixSec t + offset in
      let '(y, m, d) := civil_from_days (abs / 86400) in
      let secs := abs mod 86400 in
      (match c with
       | literal p => p
       | stdLongYear => appendInt y 4
       | stdZeroMonth => appendInt m 2
       | stdZeroDay => appendInt d 2
       | stdHour => appendInt (secs / 3600)%Z 2
       | stdZeroMinute => appendInt (secs mod 3600 / 60)%Z 2
       | stdZeroSecond => appendInt (secs mod 60)%Z 2
       | stdISO8601ColonTZ =>
           let zone := (offset / 60)%Z in
           if (zone =? 0)%Z then "Z"
           else ((if (zone <? 0)%Z then "-" else "+") ++
                 appendInt (Z.abs zone / 60)%Z 2 ++ ":" ++ appendInt (Z.abs zone mod 60)%Z 2)
       end ++ format_chunks cs' offset t)%string
  end.


(* ================================================================== *)
(** ** Wire type codes and values *)

(** The codes of [sqltypes] that [type.go] names. *)
Inductive query_Type : Type :=
  | sqltypes_Null
  | sqltypes_Int8 | sqltypes_Uint8 | sqltypes_Int16 | sqltypes_Uint16
  | sqltypes_Int32 | sqltypes_Uint32 | sqltypes_Int64 | sqltypes_Uint64
  | sqltypes_Float32 | sqltypes_Float64
  | sqltypes_Timestamp | sqltypes_Date
  | sqltypes_Text | sqltypes_VarChar | sqltypes_Bit
  | sqltypes_TypeJSON | sqltypes_Blob | sqltypes_Expression.

Definition query_Type_code (t : query_Type) : nat :=
  match t with
  | sqltypes_Null => 0 | sqltypes_Int8 => 1 | sqltypes_Uint8 => 2
  | sqltypes_Int16 => 3 | sqltypes_Uint16 => 4 | sqltypes_Int32 => 5
  | sqltypes_Uint32 => 6 | sqltypes_Int64 => 7 | sqltypes_Uint64 => 8
  | sqltypes_Float32 => 9 | sqltypes_Float64 => 10 | sqltypes_Timestamp => 11
  | sqltypes_Date => 12 | sqltypes_Text => 13 | sqltypes_VarChar => 14
  | sqltypes_Bit => 15 | sqltypes_TypeJSON => 16 | sqltypes_Blob => 17
  | sqltypes_Expression => 18
  end.

Definition query_Type_eqb (a b : query_Type) : bool :=
  Nat.eqb (query_Type_code a) (query_Type_code b).

(** A [sqltypes.Value]: the wire code and the bytes. *)
Record sqltypes_Value : Type := MakeTrusted { wire_type : query_Type; wire_val : list byte }.
Definition sqltypes_NULL : sqltypes_Value := MakeTrusted sqltypes_Null [].

(** A Go value held in an [interface{}].
    - [VSlice] is a [[]interface{}] that is not nil, and [VNilSlice] the
      nil [[]interface{}]: of length 0, but told apart from the empty
      [VSlice []] by [encoding/json];
    - [VGenerator g items final close_err] is a lazy producer (a
      [Generator]) numbered [g]: [Next] yields [items] one after the other
      and then the error [final] ([io.EOF] at the end of input), and
      [Close] returns [close_err];
    - [VNullT] is the value [sql.Null] of type [nullT];
    - [VStringer ty id str] is a value of another type [ty] that has a
      [String] method, which renders it as [str];
    - [VOther ty id] is a value of any other type [ty] (no [String] or
      [Error] method); [id] tells values of one type apart. *)
#[warnings="-register-all"]
Inductive Value : Type :=
  | VNil
  | VBool (b : bool)
  | VInt (k : IntKind) (n : Z)
  | VFloat32 (f : float)
  | VFloat64 (f : float)
  | VString (s : string)
  | VBytes (b : list byte)
  | VDuration (d : Z)
  | VTime (t : Time)
  | VSlice (vs : list Value)
  | VNilSlice
  | VGenerator (g : nat) (items : list Value) (final : Error) (close_err : option Error)
  | VNullT
  | VStringer (ty : string) (id : nat) (str : string)
  | VOther (ty : string) (id : nat).

(** [reflect.TypeOf(v)]: [None] is the nil [reflect.Type] of a nil
    interface; otherwise the result of its [String] method. *)
Definition reflect_TypeOf (v : Value) : option string :=
  match v with
  | VNil => None
  | VBool _ => Some "bool"
  | VInt k _ => Some (kind_name k)
  | VFloat32 _ => Some "float32"
  | VFloat64 _ => Some "float64"
  | VString _ => Some "string"
  | VBytes _ => Some "[]uint8"
  | VDuration _ => Some "time.Duration"
  | VTime _ => Some "time.Time"
  | VSlice _ | VNilSlice => Some "[]interface {}"
  | VGenerator _ _ _ _ => Some "*sql.arrayGenerator"
  | VNullT => Some "sql.nullT"
  | VStringer ty _ _ => Some ty
  | VOther ty _ => Some ty
  end.

(** [v.([]interface{})]: the elements of a slice, nil or not. *)
Definition as_slice (v : Value) : option (list Value) :=
  match v with
  | VSlice vs => Some vs
  | VNilSlice => Some []
  | _ => None
  end.

(** The slice variable [var values []interface{}] after the elements
    [values] have been appended to it one by one: still nil when there was
    none. *)
Definition appended (values : list Value) : Value :=
  match values with
  | [] => VNilSlice
  | _ :: _ => VSlice values
  end.

Definition bytes_of (s : string) : list byte := list_byte_of_string s.
Definition string_of (b : list byte) : string := string_of_list_byte b.

(* ================================================================== *)
(** ** The library functions taken as given *)

(** Text parsers and printers of the Go standard library whose results
    [type.go] only passes on. [None] stands for a returned error. *)
Class GoLib : Type := {
  (** [strconv.ParseInt(s, 0, 0)] *)
  strconv_ParseInt : string -> option Z;
  (** [strconv.ParseUint(s, 0, bitSize)] *)
  strconv_ParseUint : string -> Z -> option Z;
  (** [strconv.ParseFloat(s, bitSize)] *)
  strconv_ParseFloat : string -> Z -> option float;
  (** [strconv.FormatFloat(f, 'f', -1, bitSize)] *)
  strconv_FormatFloat : float -> Z -> string;
  (** the [String] methods of [time.Time] and [time.Duration] *)
  Time_String : Time -> string;
  Duration_String : Z -> string;
  (** seconds east of UTC of the local zone at a Unix time *)
  local_offset : Z -> Z;
  (** [json.Marshal(v)] *)
  json_Marshal : Value -> Result (list byte);
  (** [json.Unmarshal(data, &doc)] with [doc] an [interface{}] *)
  json_Unmarshal : list byte -> option Value
}.

Section WithGoLib.
Context {L : GoLib}.

Definition zone_offset (t : Time) : Z :=
  match loc t with
  | UTC => 0
  | FixedZone off => off
  | Local => local_offset (unixSec t)
  end.

(** [t.Format(layout)] *)
Definition Time_Format (t : Time) (layout : string) : string :=
  format_chunks (layout_chunks layout) (zone_offset t) t.

(* ------------------------------------------------------------------ *)
(** *** [spf13/cast] (v1.3) on the values above *)

Definition unable (target : string) {A} : Result A := Err (ErrUnableToCast target).

(** [cast.ToInt64E] ([k = KInt64]) and [cast.ToInt32E] ([k = KInt32]) *)
Definition cast_ToIntE (k : IntKind) (i : Value) : Result Z :=
  match i with
  | VInt _ s => Ok (wrap k s)
  | VFloat64 s | VFloat32 s => Ok (int_of_float k s)
  | VString s =>
      match strconv_ParseInt s with
      | Some v => Ok (wrap k v)
      | None => unable (kind_name k)
      end
  | VBool s => Ok (if s then 1 else 0)
  | VNil => Ok 0
  | _ => unable (kind_name k)
  end.

Definition cast_ToInt64E : Value -> Result Z := cast_ToIntE KInt64.
Definition cast_ToInt32E : Value -> Result Z := cast_ToIntE KInt32.

(** [cast.ToUint64E] ([k = KUint64]) and [cast.ToUint32E] ([k = KUint32]) *)
Definition cast_ToUintE (k : IntKind) (i : Value) : Result Z :=
  match i with
  | VString s =>
      match strconv_ParseUint s (bits k) with
      | Some v => Ok (wrap k v)
      | None => unable (kind_name k)
      end
  | VInt _ s => if s <? 0 then Err errNegativeNotAllowed else Ok (wrap k s)
  | VFloat64 s | VFloat32 s =>
      if float_is_neg s then Err errNegativeNotAllowed else Ok (int_of_float k s)
  | VBool s => Ok (if s then 1 else 0)
  | VNil => Ok 0
  | _ => unable (kind_name k)
  end.

Definition cast_ToUint64E : Value -> Result Z := cast_ToUintE KUint64.
Definition cast_ToUint32E : Value -> Result Z := cast_ToUintE KUint32.

(** [float64(s)] of a [float32]: exact. *)
Definition float64_of_float32 (f : float) : float :=
  match f with
  | S754_finite s m e => binary_round 53 1024 s m e
  | _ => f
  end.

(** [cast.ToFloat64E] *)
Definition cast_ToFloat64E (i : Value) : Result float :=
  match i with
  | VFloat64 s => Ok s
  | VFloat32 s => Ok (float64_of_float32 s)
  | VInt _ s => Ok (float64_of_Z s)
  | VString s =>
      match strconv_ParseFloat s 64 with
      | Some v => Ok v
      | None => unable "float64"
      end
  | VBool s => Ok (float64_of_Z (if s then 1 else 0))
  | _ => unable "float64"
  end.

(** [cast.ToFloat32E] *)
Definition cast_ToFloat32E (i : Value) : Result float :=
  match i with
  | VFloat64 s => Ok (float32_of_float64 s)
  | VFloat32 s => Ok s
  | VInt _ s => Ok (float32_of_Z s)
  | VString s =>
      match strconv_ParseFloat s 32 with
      | Some v => Ok (float32_of_float64 v)
      | None => unable "float32"
      end
  | VBool s => Ok (float32_of_Z (if s then 1 else 0))
  | _ => unable "float32"
  end.

(** [cast.ToStringE] *)
Definition cast_ToStringE (i : Value) : Result string :=
  match i with
  | VString s => Ok s
  | VBool s => Ok (if s then "true" else "false")
  | VFloat64 s => Ok (strconv_FormatFloat s 64)
  | VFloat32 s => Ok (strconv_FormatFloat (float64_of_float32 s) 32)
  | VInt _ s => Ok (FormatInt (wrap KInt64 s))
  | VBytes s => Ok (string_of s)
  | VNil => Ok ""
  | VTime t => Ok (Time_String t)
  | VDuration d => Ok (Duration_String d)
  | VNullT => Ok "NULL"
  | VStringer _ _ str => Ok str
  | _ => unable "string"
  end.

(* ------------------------------------------------------------------ *)
(** *** Comparison of interface values *)

Fixpoint bytes_Compare (a b : list byte) : Z :=
  match a, b with
  | [], [] => 0
  | [], _ :: _ => -1
  | _ :: _, [] => 1
  | x :: a', y :: b' =>
      match N.compare (Byte.to_N x) (Byte.to_N y) with
      | Lt => -1
      | Gt => 1
      | Eq => bytes_Compare a' b'
      end
  end.

(** [strings.Compare] *)
Definition strings_Compare (a b : string) : Z := bytes_Compare (bytes_of a) (bytes_of b).

Definition Location_eqb (a b : Location) : bool :=
  match a, b with
  | UTC, UTC | Local, Local => true
  | FixedZone x, FixedZone y => x =? y
  | _, _ => false
  end.

(** [a == b] on two interface values: equal dynamic types and equal
    values; a fault when both hold an uncomparable type. *)
Definition iface_eq (a b : Value) : Result bool :=
  match a, b with
  | VNil, VNil => Ok true
  | VBool x, VBool y => Ok (Bool.eqb x y)
  | VInt k x, VInt k' y => Ok (IntKind_eqb k k' && (x =? y))
  | VFloat32 x, VFloat32 y => Ok (SFeqb x y)
  | VFloat64 x, VFloat64 y => Ok (SFeqb x y)
  | VString x, VString y => Ok (String.eqb x y)
  | VDuration x, VDuration y => Ok (x =? y)
  | VTime x, VTime y =>
      Ok ((unixSec x =? unixSec y) && (nsec x =? nsec y) && Location_eqb (loc x) (loc y))
  | VNullT, VNullT => Ok true
  | VGenerator g _ _ _, VGenerator g' _ _ _ => Ok (Nat.eqb g g')
  | VStringer ty i _, VStringer ty' i' _ => Ok (String.eqb ty ty' && Nat.eqb i i')
  | VOther ty i, VOther ty' i' => Ok (String.eqb ty ty' && Nat.eqb i i')
  | VBytes _, VBytes _ => Fault "runtime error: comparing uncomparable type []uint8"
  | VSlice _, VSlice _ | VSlice _, VNilSlice | VNilSlice, VSlice _ | VNilSlice, VNilSlice =>
      Fault "runtime error: comparing uncomparable type []interface {}"
  | _, _ => Ok false
  end.

(* ================================================================== *)
(** ** The SQL types *)

(** The implementations of the interface [Type]: [nullT], [numberT],
    [timestampT], [dateT], [textT], [booleanT], [jsonT], [blobT], [tupleT]
    and [arrayT]. *)
#[warnings="-register-all"]
Inductive Type_ : Type :=
  | Null
  | numberT (t : query_Type)
  | Timestamp
  | Date
  | Text
  | Boolean
  | JSON
  | Blob
  | tupleT (types : list Type_)
  | arrayT (underlying : Type_).

Definition Int8 : Type_ := numberT sqltypes_Int8.
Definition Uint8 : Type_ := numberT sqltypes_Uint8.
Definition Int16 : Type_ := numberT sqltypes_Int16.
Definition Uint16 : Type_ := numberT sqltypes_Uint16.
Definition Int32 : Type_ := numberT sqltypes_Int32.
Definition Int64 : Type_ := numberT sqltypes_Int64.
Definition Uint32 : Type_ := numberT sqltypes_Uint32.
Definition Uint64 : Type_ := numberT sqltypes_Uint64.
Definition Float32 : Type_ := numberT sqltypes_Float32.
Definition Float64 : Type_ := numberT sqltypes_Float64.

Definition Tuple (types : list Type_) : Type_ := tupleT types.
Definition Array (underlying : Type_) : Type_ := arrayT underlying.

(** [t == c] for a [Type] [t] and one of the non-composite types [c]. *)
Definition Type_eq (t c : Type_) : bool :=
  match t, c with
  | Null, Null | Timestamp, Timestamp | Date, Date | Text, Text
  | Boolean, Boolean | JSON, JSON | Blob, Blob => true
  | numberT a, numberT b => query_Type_eqb a b
  | _, _ => false
  end.

(* ------------------------------------------------------------------ *)
(** *** Classification predicates *)

Definition IsSigned (t : Type_) : bool := Type_eq t Int32 || Type_eq t Int64.
Definition IsUnsigned (t : Type_) : bool := Type_eq t Uint32 || Type_eq t Uint64.
Definition IsInteger (t : Type_) : bool := IsSigned t || IsUnsigned t.
Definition IsDecimal (t : Type_) : bool := Type_eq t Float32 || Type_eq t Float64.
Definition IsNumber (t : Type_) : bool := IsInteger t || IsDecimal t.
Definition IsTime (t : Type_) : bool := Type_eq t Timestamp || Type_eq t Date.
Definition IsText (t : Type_) : bool := Type_eq t Text || Type_eq t Blob || Type_eq t JSON.
Definition IsTuple (t : Type_) : bool :=
  match t with tupleT v => (1 <? List.length v)%nat | _ => false end.
Definition IsArray (t : Type_) : bool :=
  match t with arrayT _ => true | _ => false end.
Definition NumColumns (t : Type_) : nat :=
  match t with tupleT v => List.length v | _ => 1%nat end.
Definition UnderlyingType (t : Type_) : Type_ :=
  match t with arrayT underlying => underlying | _ => t end.

(* ------------------------------------------------------------------ *)
(** *** [nullT] *)

Definition nullT_Convert (v : Value) : Result Value :=
  match v with
  | VNil => Ok VNil
  | _ => Err ErrValueNotNil
  end.

Definition nullT_Compare (a b : Value) : Result Z := Ok 0.

(* ------------------------------------------------------------------ *)
(** *** [numberT] *)

Definition numberT_Convert (t : query_Type) (v : Value) : Result Value :=
  let v := match v with VTime ti => VInt KInt64 (Time_Unix ti) | _ => v end in
  match t with
  | sqltypes_Int32 =>
      match cast_ToInt32E v with Ok x => Ok (VInt KInt32 x) | Err e => Err e | Fault p => Fault p end
  | sqltypes_Int64 =>
      match cast_ToInt64E v with Ok x => Ok (VInt KInt64 x) | Err e => Err e | Fault p => Fault p end
  | sqltypes_Uint32 =>
      match cast_ToUint32E v with Ok x => Ok (VInt KUint32 x) | Err e => Err e | Fault p => Fault p end
  | sqltypes_Uint64 =>
      match cast_ToUint64E v with Ok x => Ok (VInt KUint64 x) | Err e => Err e | Fault p => Fault p end
  | sqltypes_Float32 =>
      match cast_ToFloat32E v with Ok x => Ok (VFloat32 x) | Err e => Err e | Fault p => Fault p end
  | sqltypes_Float64 =>
      match cast_ToFloat64E v with Ok x => Ok (VFloat64 x) | Err e => Err e | Fault p => Fault p end
  | _ => Err ErrInvalidType
  end.

Definition compareSigned (a b : Value) : Result Z :=
  match cast_ToInt64E a with
  | Ok ca =>
      match cast_ToInt64E b with
      | Ok cb => if ca =? cb then Ok 0 else if ca <? cb then Ok (-1) else Ok 1
      | Err e => Err e
      | Fault p => Fault p
      end
  | Err e => Err e
  | Fault p => Fault p
  end.

Definition compareUnsigned (a b : Value) : Result Z :=
  match cast_ToUint64E a with
  | Ok ca =>
      match cast_ToUint64E b with
      | Ok cb => if ca =? cb then Ok 0 else if ca <? cb then Ok (-1) else Ok 1
      | Err e => Err e
      | Fault p => Fault p
      end
  | Err e => Err e
  | Fault p => Fault p
  end.

Definition numberT_Compare (t : query_Type) (a b : Value) : Result Z :=
  if IsUnsigned (numberT t) then compareUnsigned a b else compareSigned a b.

(* ------------------------------------------------------------------ *)
(** *** [timestampT] *)

Definition TimestampLayout : string := "2006-01-02 15:04:05".

Definition time_RFC3339 : string := "2006-01-02T15:04:05Z07:00".

Definition TimestampLayouts : list string :=
  [ "2006-01-02"; time_RFC3339; "20060102150405"; "20060102" ].

(** The loop over [TimestampLayouts]: the first layout that parses. *)
Fixpoint first_parse (layouts : list string) (value : string) : option Time :=
  match layouts with
  | [] => None
  | fmt :: layouts' =>
      match time_Parse fmt value with
      | Some t2 => Some t2
      | None => first_parse layouts' value
      end
  end.

Definition timestampT_Convert (v : Value) : Result Value :=
  match v with
  | VTime value => Ok (VTime (Time_UTC value))
  | VString value =>
      match time_Parse TimestampLayout value with
      | Some t => Ok (VTime (Time_UTC t))
      | None =>
          match first_parse TimestampLayouts value with
          | Some t => Ok (VTime (Time_UTC t))
          | None => Err ErrConvertingToTime
          end
      end
  | _ =>
      match numberT_Convert sqltypes_Int64 v with
      | Ok (VInt _ ts) => Ok (VTime (Time_UTC (time_Unix ts 0)))
      | Ok _ => Fault "interface conversion: interface {} is not int64"
      | Err _ => Err ErrInvalidType
      | Fault p => Fault p
      end
  end.

Definition timestampT_Compare (a b : Value) : Result Z :=
  match a, b with
  | VTime av, VTime bv =>
      if Time_Before av bv then Ok (-1)
      else if Time_After av bv then Ok 1
      else Ok 0
  | _, _ => Fault "interface conversion: interface {} is not time.Time"
  end.

Definition timestampT_SQL (v : Value) : Result sqltypes_Value :=
  match v with
  | VNullT => Ok sqltypes_NULL
  | _ =>
      match timestampT_Convert v with
      | Ok (VTime t) => Ok (MakeTrusted sqltypes_Timestamp (bytes_of (Time_Format t TimestampLayout)))
      | Ok _ => Fault "interface conversion: interface {} is not time.Time"
      | Err e => Err e
      | Fault p => Fault p
      end
  end.

(* ------------------------------------------------------------------ *)
(** *** [dateT] *)

Definition DateLayout : string := "2006-01-02".

Definition truncateDate (t : Time) : Time := Time_Truncate t (24 * time_Hour).

Definition dateT_Convert (v : Value) : Result Value :=
  match v with
  | VTime value => Ok (VTime (Time_UTC (truncateDate value)))
  | VString value =>
      match time_Parse DateLayout value with
      | Some t => Ok (VTime (Time_UTC (truncateDate t)))
      | None => Err ErrConvertingToTime
      end
  | _ =>
      match numberT_Convert sqltypes_Int64 v with
      | Ok (VInt _ ts) => Ok (VTime (Time_UTC (truncateDate (time_Unix ts 0))))
      | Ok _ => Fault "interface conversion: interface {} is not int64"
      | Err _ => Err ErrInvalidType
      | Fault p => Fault p
      end
  end.

Definition dateT_SQL (v : Value) : Result sqltypes_Value :=
  match v with
  | VNullT => Ok sqltypes_NULL
  | _ =>
      match dateT_Convert v with
      | Ok (VTime t) => Ok (MakeTrusted sqltypes_Timestamp (bytes_of (Time_Format t DateLayout)))
      | Ok _ => Fault "interface conversion: interface {} is not time.Time"
      | Err e => Err e
      | Fault p => Fault p
      end
  end.

Definition dateT_Compare (a b : Value) : Result Z :=
  match a, b with
  | VTime a', VTime b' =>
      let av := truncateDate a' in
      let bv := truncateDate b' in
      if Time_Before av bv then Ok (-1)
      else if Time_After av bv then Ok 1
      else Ok 0
  | _, _ => Fault "interface conversion: interface {} is not time.Time"
  end.

(* ------------------------------------------------------------------ *)
(** *** [textT] *)

Definition textT_Convert (v : Value) : Result Value :=
  match cast_ToStringE v with
  | Ok val => Ok (VString val)
  | Err _ => Err ErrConvertToSQL
  | Fault p => Fault p
  end.

Definition textT_Compare (a b : Value) : Result Z :=
  match a, b with
  | VString x, VString y => Ok (strings_Compare x y)
  | _, _ => Fault "interface conversion: interface {} is not string"
  end.

(* ------------------------------------------------------------------ *)
(** *** [booleanT] *)

(** In the case that lists the integer types the switch variable [b] keeps
    the interface type, so [b != 0] compares the interface value with the
    interface value [int(0)]; for the same reason the case that lists both
    float types asserts [v.(float64)] on a value that may be a [float32]. *)
Definition booleanT_Convert (v : Value) : Result Value :=
  match v with
  | VBool b => Ok (VBool b)
  | VInt _ _ =>
      match iface_eq v (VInt KInt 0) with
      | Ok false => Ok (VBool true)
      | Ok true => Ok (VBool false)
      | Err e => Err e
      | Fault p => Fault p
      end
  | VDuration b => if negb (b =? 0) then Ok (VBool true) else Ok (VBool false)
  | VTime b => if negb (Time_UnixNano b =? 0) then Ok (VBool true) else Ok (VBool false)
  | VFloat32 _ => Fault "interface conversion: interface {} is float32, not float64"
  | VFloat64 f =>
      if negb (int_of_float KInt (math_Round f) =? 0) then Ok (VBool true) else Ok (VBool false)
  | VString _ => Err (fmt_Errorf "unable to cast string to bool")
  | VNil => Err (fmt_Errorf "unable to cast nil to bool")
  | _ => Err (fmt_Errorf "unable to cast value to bool")
  end.

Definition booleanT_Compare (a b : Value) : Result Z :=
  match iface_eq a b with
  | Ok true => Ok 0
  | Ok false =>
      match iface_eq a (VBool false) with
      | Ok true => Ok (-1)
      | Ok false => Ok 1
      | Err e => Err e
      | Fault p => Fault p
      end
  | Err e => Err e
  | Fault p => Fault p
  end.

(* ------------------------------------------------------------------ *)
(** *** [blobT] *)

Definition blobT_Convert (v : Value) : Result Value :=
  match v with
  | VNil => Ok (VBytes [])
  | VBytes value => Ok (VBytes value)
  | VString value => Ok (VBytes (bytes_of value))
  | VTime t => Ok (VBytes (bytes_of (Time_String t)))
  | VDuration d => Ok (VBytes (bytes_of (Duration_String d)))
  | VNullT => Ok (VBytes (bytes_of "NULL"))
  | VStringer _ _ str => Ok (VBytes (bytes_of str))
  | _ => Err ErrInvalidType
  end.

Definition blobT_Compare (a b : Value) : Result Z :=
  match a, b with
  | VBytes x, VBytes y => Ok (bytes_Compare x y)
  | _, _ => Fault "interface conversion: interface {} is not []uint8"
  end.

(* ------------------------------------------------------------------ *)
(** *** [jsonT] *)

Definition marshal (v : Value) : Result Value :=
  match json_Marshal v with
  | Ok b => Ok (VBytes b)
  | Err e => Err e
  | Fault p => Fault p
  end.

Definition jsonT_Convert (v : Value) : Result Value :=
  match v with
  | VString s =>
      match json_Unmarshal (bytes_of s) with
      | None => marshal (VString s)
      | Some doc => marshal doc
      end
  | _ => marshal v
  end.

Definition jsonT_Compare (a b : Value) : Result Z :=
  match a, b with
  | VBytes x, VBytes y => Ok (bytes_Compare x y)
  | _, _ => Fault "interface conversion: interface {} is not []uint8"
  end.

(* ------------------------------------------------------------------ *)
(** *** [tupleT] and [arrayT], over the methods of their element types *)

Definition pure {A} (r : Result A) : M A := (r, []).

(** The loop of [tupleT.Convert]: element [i] through [t[i]]. *)
Fixpoint convert_elems (t : list (Value -> M Value)) (vals : list Value) : M (list Value) :=
  match t, vals with
  | typ :: t', x :: vals' =>
      r <- typ x ;; rs <- convert_elems t' vals' ;; ret (r :: rs)
  | [], _ => ret []
  | _ :: _, [] => panic "runtime error: index out of range"
  end.

Definition tupleT_Convert (t : list (Value -> M Value)) (v : Value) : M Value :=
  match as_slice v with
  | Some vals =>
      if negb (Nat.eqb (List.length vals) (List.length t))
      then throw (ErrInvalidColumnNumber (List.length t) (List.length vals))
      else result <- convert_elems t vals ;; ret (VSlice result)
  | None => throw ErrNotTuple
  end.

(** The loop [for i := range left] of [tupleT.Compare] and
    [arrayT.Compare], with [cmps] the [Compare] of position [i]. *)
Fixpoint compare_elems (cmps : list (Value -> Value -> M Z)) (lefts rights : list Value) : M Z :=
  match lefts with
  | [] => ret 0
  | l :: lefts' =>
      match cmps, rights with
      | c :: cmps', r :: rights' =>
          cmp <- c l r ;;
          if negb (cmp =? 0) then ret cmp else compare_elems cmps' lefts' rights'
      | _, _ => panic "runtime error: index out of range"
      end
  end.

Definition tupleT_Compare (convert : Value -> M Value)
    (cmps : list (Value -> Value -> M Z)) (a b : Value) : M Z :=
  a <- convert a ;;
  b <- convert b ;;
  match as_slice a, as_slice b with
  | Some lefts, Some rights => compare_elems cmps lefts rights
  | _, _ => panic "interface conversion: interface {} is not []interface {}"
  end.

(** The drain of a producer in [arrayT.Convert]: [items] are what the
    calls of [Next] still yield before [final]. *)
Fixpoint drain (underlying : Value -> M Value) (g : nat) (items : list Value)
    (final : Error) : M (list Value) :=
  match items with
  | [] =>
      tell (EvNext g) ;;;
      if is_EOF final then ret [] else throw final
  | val :: items' =>
      tell (EvNext g) ;;;
      val <- underlying val ;;
      values <- drain underlying g items' final ;;
      ret (val :: values)
  end.

Definition arrayT_Convert (underlying : Value -> M Value) (v : Value) : M Value :=
  match as_slice v with
  | Some v => result <- mapM underlying v ;; ret (VSlice result)
  | None =>
      match v with
      | VGenerator g items final close_err =>
          values <- drain underlying g items final ;;
          tell (EvClose g) ;;;
          match close_err with
          | Some err => throw err
          | None => ret (appended values)
          end
      | _ => throw ErrNotArray
      end
  end.

Definition arrayT_Compare (convert : Value -> M Value)
    (underlying : Value -> Value -> M Z) (a b : Value) : M Z :=
  a <- convert a ;;
  b <- convert b ;;
  match as_slice a, as_slice b with
  | Some lefts, Some rights =>
      if (List.length lefts <? List.length rights)%nat then ret (-1)
      else if (List.length rights <? List.length lefts)%nat then ret 1
      else compare_elems (repeat underlying (List.length lefts)) lefts rights
  | _, _ => panic "interface conversion: interface {} is not []interface {}"
  end.

(* ------------------------------------------------------------------ *)
(** *** The methods of [Type], by implementation *)

Fixpoint Convert (t : Type_) (v : Value) {struct t} : M Value :=
  match t with
  | Null => pure (nullT_Convert v)
  | numberT q => pure (numberT_Convert q v)
  | Timestamp => pure (timestampT_Convert v)
  | Date => pure (dateT_Convert v)
  | Text => pure (textT_Convert v)
  | Boolean => pure (booleanT_Convert v)
  | JSON => pure (jsonT_Convert v)
  | Blob => pure (blobT_Convert v)
  | tupleT types => tupleT_Convert (map Convert types) v
  | arrayT underlying => arrayT_Convert (Convert underlying) v
  end.

Fixpoint Compare (t : Type_) (a b : Value) {struct t} : M Z :=
  match t with
  | Null => pure (nullT_Compare a b)
  | numberT q => pure (numberT_Compare q a b)
  | Timestamp => pure (timestampT_Compare a b)
  | Date => pure (dateT_Compare a b)
  | Text => pure (textT_Compare a b)
  | Boolean => pure (booleanT_Compare a b)
  | JSON => pure (jsonT_Compare a b)
  | Blob => pure (blobT_Compare a b)
  | tupleT types => tupleT_Compare (Convert t) (map Compare types) a b
  | arrayT underlying => arrayT_Compare (Convert t) (Compare underlying) a b
  end.

(** [Type()] *)
Definition Type_Type (t : Type_) : query_Type :=
  match t with
  | Null => sqltypes_Null
  | numberT q => q
  | Timestamp => sqltypes_Timestamp
  | Date => sqltypes_Date
  | Text => sqltypes_Text
  | Boolean => sqltypes_Bit
  | JSON => sqltypes_TypeJSON
  | Blob => sqltypes_Blob
  | tupleT _ => sqltypes_Expression
  | arrayT _ => sqltypes_TypeJSON
  end.

(* ================================================================== *)
(** ** Columns and schemas *)

Record Column : Type := mkColumn {
  Name : string;
  Typ : Type_;
  Default : Value;
  Nullable : bool;
  Source : string }.

Definition Schema : Type := list Column.
Definition Row : Type := list Value.

(** [Column.Check] *)
Definition Check (c : Column) (v : Value) : M bool :=
  match v with
  | VNil => ret (Nullable c)
  | _ =>
      match Convert (Typ c) v with
      | (Ok _, l) => (Ok true, l)
      | (Err _, l) => (Ok false, l)
      | (Fault p, l) => (Fault p, l)
      end
  end.

(** The loop of [Schema.CheckRow] from position [idx] on.  The [String]
    method is called on the result of [reflect.TypeOf(v)], which is nil for
    a nil [v]. *)
Fixpoint check_from (s : Schema) (idx : nat) (row : Row) : M unit :=
  match s with
  | [] => ret tt
  | f :: s' =>
      match nth_error row idx with
      | None => panic "runtime error: index out of range"
      | Some v =>
          ok <- Check f v ;;
          if ok then check_from s' (S idx) row
          else
            match reflect_TypeOf v with
            | Some typ => throw (ErrUnexpectedType idx typ)
            | None => panic "runtime error: invalid memory address or nil pointer dereference"
            end
      end
  end.

(** [Schema.CheckRow]: [Ok tt] is the nil error. *)
Definition CheckRow (s : Schema) (row : Row) : M unit :=
  let expected := List.length s in
  let got := List.length row in
  if negb (Nat.eqb expected got) then throw (ErrUnexpectedRowLength expected got)
  else check_from s 0 row.

End WithGoLib.

(* ================================================================== *)
(** ** A small instance of the library functions

    Enough of [strconv], [encoding/json] and the zone database to run the
    types on concrete inputs: numbers are read and printed in plain
    decimal notation, the local zone is UTC, and the JSON codec reads
    [null], the booleans, decimal integers and strings without escapes. *)

Module Decimal.

Fixpoint digits_value (acc : Z) (s : string) : option Z :=
  match s with
  | EmptyString => Some acc
  | String c s' => if isDigit c then digits_value (acc * 10 + digit c) s' else None
  end.

Definition unsigned_literal (s : string) : option Z :=
  match s with
  | EmptyString => None
  | _ => digits_value 0 s
  end.

Definition signed_literal (s : string) : option Z :=
  match s with
  | String "-" s' => option_map Z.opp (unsigned_literal s')
  | String "+" s' => unsigned_literal s'
  | _ => unsigned_literal s
  end.

Definition ParseInt (s : string) : option Z :=
  match signed_literal s with
  | Some z => if in_range KInt64 z then Some z else None
  | None => None
  end.

Definition ParseUint (s : string) (bitSize : Z) : option Z :=
  match unsigned_literal s with
  | Some z => if z <? 2 ^ bitSize then Some z else None
  | None => None
  end.

Definition ParseFloat (s : string) (bitSize : Z) : option float :=
  option_map float64_of_Z (signed_literal s).

(** The exact decimal expansion of a finite float. *)
Definition FormatFloat (f : float) (bitSize : Z) : string :=
  match f with
  | S754_zero s => if s then "-0" else "0"
  | S754_infinity s => if s then "-Inf" else "+Inf"
  | S754_nan => "NaN"
  | S754_finite s m e =>
      ((if s then "-" else "") ++
       (if (0 <=? e)%Z then FormatInt (Zpos m * 2 ^ e)
        else
          let k := (- e)%Z in
          let scaled := (Zpos m * 5 ^ k)%Z in
          FormatInt (scaled / 10 ^ k) ++ "." ++ appendInt (scaled mod 10 ^ k) (Z.to_nat k)))%string
  end.

Definition base64_alphabet : string :=
  "ABCDEFGHIJKLMNOPQRSTUVWXYZabcdefghijklmnopqrstuvwxyz0123456789+/".

Definition sextet (n : Z) : string :=
  match String.get (Z.to_nat (n mod 64)) base64_alphabet with
  | Some c => String c ""
  | None => ""
  end.

Definition byte_Z (b : byte) : Z := Z.of_N (Byte.to_N b).

Fixpoint base64 (b : list byte) : string :=
  match b with
  | x :: y :: z :: b' =>
      let n := (byte_Z x * 65536 + byte_Z y * 256 + byte_Z z)%Z in
      (sextet (n / 262144) ++ sextet (n / 4096) ++ sextet (n / 64) ++ sextet n ++ base64 b')%string
  | [x; y] =>
      let n := (byte_Z x * 65536 + byte_Z y * 256)%Z in
      (sextet (n / 262144) ++ sextet (n / 4096) ++ sextet (n / 64) ++ "=")%string
  | [x] =>
      let n := (byte_Z x * 65536)%Z in
      (sextet (n / 262144) ++ sextet (n / 4096) ++ "==")%string
  | [] => ""
  end.

Definition dquote : ascii := ascii_of_nat 34.

Fixpoint escape (s : string) : string :=
  match s with
  | EmptyString => ""
  | String c s' =>
      if Ascii.eqb c dquote || Ascii.eqb c "\"
      then String "\" (String c (escape s'))
      else String c (escape s')
  end.

Definition quote (s : string) : string := (String dquote (escape s) ++ String dquote "")%string.

Fixpoint Marshal_text (v : Value) : option string :=
  match v with
  | VNil => Some "null"
  | VBool b => Some (if b then "true" else "false")
  | VInt _ n => Some (FormatInt n)
  | VDuration d => Some (FormatInt d)
  | VFloat32 f => Some (FormatFloat f 32)
  | VFloat64 f => Some (FormatFloat f 64)
  | VString s => Some (quote s)
  | VBytes b => Some (quote (base64 b))
  | VTime t => Some (quote (format_chunks (layout_chunks "2006-01-02T15:04:05Z07:00") 0 t))
  | VSlice vs =>
      option_map (String.append "[")
        ((fix elems (vs : list Value) (first : bool) : option string :=
            match vs with
            | [] => Some "]"
            | x :: vs' =>
                match Marshal_text x, elems vs' false with
                | Some a, Some r => Some ((if first then "" else ",") ++ a ++ r)%string
                | _, _ => None
                end
            end) vs true)
  | VNilSlice => Some "null"
  | _ => None
  end.

Definition Marshal (v : Value) : Result (list byte) :=
  match Marshal_text v with
  | Some s => Ok (bytes_of s)
  | None => Err ErrJSON
  end.

Fixpoint plain (s : string) : bool :=
  match s with
  | EmptyString => false
  | String c EmptyString => Ascii.eqb c dquote
  | String c s' => negb (Ascii.eqb c dquote) && negb (Ascii.eqb c "\") && plain s'
  end.

Fixpoint but_last (s : string) : string :=
  match s with
  | EmptyString => ""
  | String c EmptyString => ""
  | String c s' => String c (but_last s')
  end.

Definition Unmarshal (data : list byte) : option Value :=
  let s := string_of data in
  if String.eqb s "null" then Some VNil
  else if String.eqb s "true" then Some (VBool true)
  else if String.eqb s "false" then Some (VBool false)
  else
    match s with
    | String c s' =>
        if Ascii.eqb c dquote then (if plain s' then Some (VString (but_last s')) else None)
        else option_map (fun z => VFloat64 (float64_of_Z z)) (signed_literal s)
    | EmptyString => None
    end.

End Decimal.

#[global] Instance DecimalLib : GoLib := {|
  strconv_ParseInt := Decimal.ParseInt;
  strconv_ParseUint := Decimal.ParseUint;
  strconv_ParseFloat := Decimal.ParseFloat;
  strconv_FormatFloat := Decimal.FormatFloat;
  Time_String := fun t => format_chunks (layout_chunks "2006-01-02 15:04:05") 0 t;
  Duration_String := fun d => (FormatInt d ++ "ns")%string;
  local_offset := fun _ => 0;
  json_Marshal := Decimal.Marshal;
  json_Unmarshal := Decimal.Unmarshal
|}.


(* ================================================================== *)
(** ** Notions used by the statements *)

(** The numeric codes whose conversion [numberT.Convert] implements, and
    the 8- and 16-bit codes. *)
Definition wide_codes : list query_Type :=
  [sqltypes_Int32; sqltypes_Uint32; sqltypes_Int64; sqltypes_Uint64;
   sqltypes_Float32; sqltypes_Float64].
Definition narrow_codes : list query_Type :=
  [sqltypes_Int8; sqltypes_Uint8; sqltypes_Int16; sqltypes_Uint16].

Definition unsigned_code (q : query_Type) : bool :=
  match q with
  | sqltypes_Uint8 | sqltypes_Uint16 | sqltypes_Uint32 | sqltypes_Uint64 => true
  | _ => false
  end.

(** The Go integer type of the integer codes that [numberT.Convert]
    implements. *)
Definition wide_kind (q : query_Type) : option IntKind :=
  match q with
  | sqltypes_Int32 => Some KInt32
  | sqltypes_Int64 => Some KInt64
  | sqltypes_Uint32 => Some KUint32
  | sqltypes_Uint64 => Some KUint64
  | _ => None
  end.

(** A number: an integer or a float of any width, or a timestamp. *)
Definition numeric (v : Value) : bool :=
  match v with
  | VInt _ _ | VFloat32 _ | VFloat64 _ | VTime _ => true
  | _ => false
  end.

(** The input, a timestamp mapped to its Unix seconds. *)
Definition timestamp_seconds (v : Value) : Value :=
  match v with
  | VTime ti => VInt KInt64 (Time_Unix ti)
  | _ => v
  end.

(** The number that a text stands for, for an integer and for a float
    code. *)
Definition parsed_int `{GoLib} (q : query_Type) (s : string) : option Z :=
  match q with
  | sqltypes_Int32 | sqltypes_Int64 => strconv_ParseInt s
  | sqltypes_Uint32 => strconv_ParseUint s 32
  | sqltypes_Uint64 => strconv_ParseUint s 64
  | _ => None
  end.

Definition parsed_float `{GoLib} (q : query_Type) (s : string) : option float :=
  match q with
  | sqltypes_Float32 => option_map float32_of_float64 (strconv_ParseFloat s 32)
  | sqltypes_Float64 => strconv_ParseFloat s 64
  | _ => None
  end.

Definition is_some {A} (o : option A) : bool :=
  match o with Some _ => true | None => false end.

(** An input that can be coerced to the code [q]: an integer, a float or
    a timestamp (through its Unix seconds), not below zero when the target
    has no sign; a boolean; a text that stands for a number; and nil when
    the target is an integer. *)
Definition coercible `{GoLib} (q : query_Type) (v : Value) : bool :=
  match timestamp_seconds v with
  | VInt _ n => negb (unsigned_code q) || (0 <=? n)
  | VFloat32 f | VFloat64 f => negb (unsigned_code q) || negb (float_is_neg f)
  | VBool _ => true
  | VNil => is_some (wide_kind q)
  | VString s =>
      match wide_kind q with
      | Some _ => is_some (parsed_int q s)
      | None => is_some (parsed_float q s)
      end
  | _ => false
  end.

(** The float of the width of a float code nearest to an integer, and a
    float brought to that width. *)
Definition float_of_Z (q : query_Type) (n : Z) : float :=
  match q with
  | sqltypes_Float32 => float32_of_Z n
  | _ => float64_of_Z n
  end.

Definition float_of_float32 (q : query_Type) (f : float) : float :=
  match q with
  | sqltypes_Float32 => f
  | _ => float64_of_float32 f
  end.

Definition float_of_float64 (q : query_Type) (f : float) : float :=
  match q with
  | sqltypes_Float32 => float32_of_float64 f
  | _ => f
  end.

(** The canonical value of a float type. *)
Definition float_value (q : query_Type) (f : float) : Value :=
  match q with
  | sqltypes_Float32 => VFloat32 f
  | _ => VFloat64 f
  end.

(** [c] is the input [v] at the width of the code [q].  For an integer
    code of Go type [k], [c] is an integer [m] of the range of [k]: the one
    that differs from an integer input by a multiple of [2 ^ bits k], the
    integer part of a float input when that part is in the range, 1 or 0
    for a boolean, 0 for nil, and for a text what holds of the integer it
    stands for.  For a float code, [c] is a float of its width: the one
    nearest to an integer input, a float input brought to the width, and
    for a text the float it stands for. *)
Definition coerced `{GoLib} (q : query_Type) (v c : Value) : Prop :=
  match wide_kind q with
  | Some k =>
      exists m, c = VInt k m /\ in_range k m = true /\
        match v with
        | VInt _ n => (m - n) mod 2 ^ bits k = 0
        | VFloat32 f | VFloat64 f =>
            forall z, float_trunc f = Some z -> in_range k z = true -> m = z
        | VBool b => m = if b then 1 else 0
        | VNil => m = 0
        | VString s =>
            exists n, parsed_int q s = Some n /\ (m - n) mod 2 ^ bits k = 0
        | _ => False
        end
  | None =>
      exists x, c = float_value q x /\
        match v with
        | VInt _ n => x = float_of_Z q n
        | VFloat32 f => x = float_of_float32 q f
        | VFloat64 f => x = float_of_float64 q f
        | VBool b => x = float_of_Z q (if b then 1 else 0)
        | VString s => parsed_float q s = Some x
        | _ => False
        end
  end.

(** The float 10000000000. *)
Definition f1e10 : float := S754_finite false 5242880000000000 (-19).

(** [c] is a value of the Go type of the code [q], within its width. *)
Definition has_width (q : query_Type) (c : Value) : bool :=
  match q, c with
  | sqltypes_Int32, VInt KInt32 n => in_range KInt32 n
  | sqltypes_Int64, VInt KInt64 n => in_range KInt64 n
  | sqltypes_Uint32, VInt KUint32 n => in_range KUint32 n
  | sqltypes_Uint64, VInt KUint64 n => in_range KUint64 n
  | sqltypes_Float32, VFloat32 _ => true
  | sqltypes_Float64, VFloat64 _ => true
  | _, _ => false
  end.

(** The types other than tuples and arrays. *)
Definition is_scalar (t : Type_) : bool :=
  match t with
  | tupleT _ | arrayT _ => false
  | _ => true
  end.

(** The conversion to a boolean as the specification words it: [Some b]
    for the boolean produced, [None] for a failure. *)
Definition booleanT_Convert_reference (v : Value) : option bool :=
  match v with
  | VBool b => Some b                                     (* passes through *)
  | VInt _ n => Some (negb (n =? 0))                      (* true iff nonzero *)
  | VDuration d => Some (negb (d =? 0))                   (* magnitude nonzero *)
  | VTime t => Some (negb (Time_UnixNano t =? 0))         (* epoch value nonzero *)
  | VFloat32 f | VFloat64 f =>                            (* rounds to nonzero *)
      Some (negb (int_of_float KInt (math_Round f) =? 0))
  | _ => None                                             (* text, nil, others *)
  end.

(** The outcome of [booleanT.Convert] agrees with the reference. *)
Definition agrees `{GoLib} (v : Value) : Prop :=
  match booleanT_Convert v with
  | Ok (VBool b) => booleanT_Convert_reference v = Some b
  | Ok _ => False
  | Err _ => booleanT_Convert_reference v = None
  | Fault _ => False
  end.

(** The inputs on which [booleanT.Convert] leaves the reference: a zero of
    an integer type other than [int], and every [float32]. *)
Definition off_reference (v : Value) : bool :=
  match v with
  | VInt k n => (n =? 0) && negb (IntKind_eqb k KInt)
  | VFloat32 _ => true
  | _ => false
  end.

(** A schema of three columns, the last one not nullable. *)
Definition schema3 : Schema :=
  [ mkColumn "id" Int64 VNil false "t";
    mkColumn "name" Text VNil true "t";
    mkColumn "ok" Boolean VNil false "t" ].

(** A producer that yields 1, the text x and 3. *)
Definition producer_1_x_3 : Value :=
  VGenerator 7 [VInt KInt 1; VString "x"; VInt KInt 3] io_EOF None.

(** A producer that yields 1 and then reports an error of its own. *)
Definition producer_broken : Value :=
  VGenerator 7 [VInt KInt 1] (ErrProducer "connection lost") None.

(** [Converted ts xs cs]: the lists have one length, and each [xs[i]]
    converts through [ts[i]] to [cs[i]]. *)
Inductive Converted `{GoLib} : list Type_ -> list Value -> list Value -> Prop :=
  | Converted_nil : Converted [] [] []
  | Converted_cons t ts x xs c cs :
      result (Convert t x) = Ok c ->
      Converted ts xs cs ->
      Converted (t :: ts) (x :: xs) (c :: cs).

(** The start of a day in UTC. *)
Definition start_of_day (t : Time) : Prop :=
  unixSec t mod 86400 = 0 /\ nsec t = 0 /\ loc t = UTC.

(** A type converts its own results again, and compares each of them as
    equal to itself. *)
Definition idempotent_at `{GoLib} (t : Type_) : Prop :=
  forall v c, result (Convert t v) = Ok c ->
    succeeds (Convert t c) = true /\ result (Compare t c c) = Ok 0.

(** 1.5 and 1.2 as [float64]. *)
Definition f1_5 : float := S754_finite false 6755399441055744 (-52).
Definition f1_2 : float := S754_finite false 5404319552844595 (-52).

(* ================================================================== *)
(** ** The rest of [type.go] *)

Section TypeGo.
Context {L : GoLib}.

(* ------------------------------------------------------------------ *)
(** *** [ValidateTime] *)

Definition maxTime : Time := time_Date 9999 12 31 23 59 59 0.

(** [ValidateTime]: the time itself, or nil. *)
Definition ValidateTime (t : Time) : Value :=
  if Time_After t maxTime then VNil else VTime t.

(* ------------------------------------------------------------------ *)
(** *** [MysqlTypeToType] and [MySQLTypeName] *)

Definition MysqlTypeToType (sql : query_Type) : Result Type_ :=
  match sql with
  | sqltypes_Null => Ok Null
  | sqltypes_Int8 => Ok Int8
  | sqltypes_Uint8 => Ok Uint8
  | sqltypes_Int16 => Ok Int16
  | sqltypes_Uint16 => Ok Uint16
  | sqltypes_Int32 => Ok Int32
  | sqltypes_Int64 => Ok Int64
  | sqltypes_Uint32 => Ok Uint32
  | sqltypes_Uint64 => Ok Uint64
  | sqltypes_Float32 => Ok Float32
  | sqltypes_Float64 => Ok Float64
  | sqltypes_Timestamp => Ok Timestamp
  | sqltypes_Date => Ok Date
  | sqltypes_Text | sqltypes_VarChar => Ok Text
  | sqltypes_Bit => Ok Boolean
  | sqltypes_TypeJSON => Ok JSON
  | sqltypes_Blob => Ok Blob
  | _ => Err ErrTypeNotSupported
  end.

Definition MySQLTypeName (t : Type_) : string :=
  match Type_Type t with
  | sqltypes_Int8 => "TINYINT"
  | sqltypes_Uint8 => "TINYINT UNSIGNED"
  | sqltypes_Int16 => "SMALLINT"
  | sqltypes_Uint16 => "SMALLINT UNSIGNED"
  | sqltypes_Int32 => "INTEGER"
  | sqltypes_Int64 => "BIGINT"
  | sqltypes_Uint32 => "INTEGER UNSIGNED"
  | sqltypes_Uint64 => "BIGINT UNSIGNED"
  | sqltypes_Float32 => "FLOAT"
  | sqltypes_Float64 => "DOUBLE"
  | sqltypes_Timestamp => "DATETIME"
  | sqltypes_Date => "DATE"
  | sqltypes_Text | sqltypes_VarChar => "TEXT"
  | sqltypes_Bit => "BIT"
  | sqltypes_TypeJSON => "JSON"
  | sqltypes_Blob => "BLOB"
  | _ => "UNKNOWN"
  end.

(* ------------------------------------------------------------------ *)
(** *** The [SQL] methods *)

(** [cast.ToInt64], [cast.ToUint64], [cast.ToFloat64]: the zero value when
    the cast fails. *)
Definition cast_ToInt64 (i : Value) : Z :=
  match cast_ToInt64E i with Ok v => v | _ => 0 end.
Definition cast_ToUint64 (i : Value) : Z :=
  match cast_ToUint64E i with Ok v => v | _ => 0 end.
Definition cast_ToFloat64 (i : Value) : float :=
  match cast_ToFloat64E i with Ok v => v | _ => S754_zero false end.

(** [strconv.ParseBool] *)
Definition strconv_ParseBool (str : string) : option bool :=
  if existsb (String.eqb str) ["1"; "t"; "T"; "TRUE"; "true"; "True"] then Some true
  else if existsb (String.eqb str) ["0"; "f"; "F"; "FALSE"; "false"; "False"] then Some false
  else None.

(** [cast.ToBoolE] and [cast.ToBool] *)
Definition cast_ToBoolE (i : Value) : Result bool :=
  match i with
  | VBool b => Ok b
  | VNil => Ok false
  | VInt KInt n => Ok (negb (n =? 0))
  | VString s =>
      match strconv_ParseBool s with
      | Some b => Ok b
      | None => unable "bool"
      end
  | _ => unable "bool"
  end.
Definition cast_ToBool (i : Value) : bool :=
  match cast_ToBoolE i with Ok v => v | _ => false end.

Definition nullT_SQL (v : Value) : Result sqltypes_Value := Ok sqltypes_NULL.

Definition numberT_SQL (t : query_Type) (v : Value) : Result sqltypes_Value :=
  match v with
  | VNullT => Ok sqltypes_NULL
  | _ =>
      match t with
      | sqltypes_Int32 | sqltypes_Int64 =>
          Ok (MakeTrusted t (bytes_of (FormatInt (cast_ToInt64 v))))
      | sqltypes_Uint32 | sqltypes_Uint64 =>
          Ok (MakeTrusted t (bytes_of (FormatInt (cast_ToUint64 v))))
      | sqltypes_Float32 | sqltypes_Float64 =>
          Ok (MakeTrusted t (bytes_of (strconv_FormatFloat (cast_ToFloat64 v) 64)))
      | _ => Ok (MakeTrusted t [])
      end
  end.

Definition textT_SQL (v : Value) : Result sqltypes_Value :=
  match v with
  | VNullT => Ok sqltypes_NULL
  | _ =>
      match textT_Convert v with
      | Ok (VString s) => Ok (MakeTrusted sqltypes_Text (bytes_of s))
      | Ok _ => Fault "interface conversion: interface {} is not string"
      | Err e => Err e
      | Fault p => Fault p
      end
  end.

Definition booleanT_SQL (v : Value) : Result sqltypes_Value :=
  match v with
  | VNullT => Ok sqltypes_NULL
  | _ =>
      Ok (MakeTrusted sqltypes_Bit (bytes_of (if cast_ToBool v then "1" else "0")))
  end.

Definition blobT_SQL (v : Value) : Result sqltypes_Value :=
  match v with
  | VNullT => Ok sqltypes_NULL
  | _ =>
      match blobT_Convert v with
      | Ok (VBytes b) => Ok (MakeTrusted sqltypes_Blob b)
      | Ok _ => Fault "interface conversion: interface {} is not []uint8"
      | Err e => Err e
      | Fault p => Fault p
      end
  end.

Definition jsonT_SQL (v : Value) : Result sqltypes_Value :=
  match v with
  | VNullT => Ok sqltypes_NULL
  | _ =>
      match jsonT_Convert v with
      | Ok (VBytes b) => Ok (MakeTrusted sqltypes_TypeJSON b)
      | Ok _ => Fault "interface conversion: interface {} is not []uint8"
      | Err e => Err e
      | Fault p => Fault p
      end
  end.

Definition tupleT_SQL (v : Value) : Result sqltypes_Value :=
  match v with
  | VNullT => Ok sqltypes_NULL
  | _ => Err (fmt_Errorf "unable to convert tuple type to SQL")
  end.

(** [arrayT.SQL], over the [Convert] of the array type itself. *)
Definition arrayT_SQL (convert : Value -> M Value) (v : Value) : M sqltypes_Value :=
  match v with
  | VNullT => ret sqltypes_NULL
  | _ => v <- convert v ;; pure (jsonT_SQL v)
  end.

Definition SQL (t : Type_) (v : Value) : M sqltypes_Value :=
  match t with
  | Null => pure (nullT_SQL v)
  | numberT q => pure (numberT_SQL q v)
  | Timestamp => pure (timestampT_SQL v)
  | Date => pure (dateT_SQL v)
  | Text => pure (textT_SQL v)
  | Boolean => pure (booleanT_SQL v)
  | JSON => pure (jsonT_SQL v)
  | Blob => pure (blobT_SQL v)
  | tupleT _ => pure (tupleT_SQL v)
  | arrayT _ => arrayT_SQL (Convert t) v
  end.

(* ------------------------------------------------------------------ *)
(** *** [Schema.IndexOf] and [Schema.Contains] *)

Section Lookup.
(** [strings.ToLower] *)
Variable strings_ToLower : string -> string.

(** The loop of [IndexOf] from position [i] on, over the lowered names. *)
Fixpoint index_from (s : Schema) (i : Z) (column source : string) : Z :=
  match s with
  | [] => -1
  | col :: s' =>
      if String.eqb (strings_ToLower (Name col)) column
         && String.eqb (strings_ToLower (Source col)) source
      then i
      else index_from s' (i + 1) column source
  end.

Definition IndexOf (s : Schema) (column source : string) : Z :=
  let column := strings_ToLower column in
  let source := strings_ToLower source in
  index_from s 0 column source.

Definition Contains (s : Schema) (column source : string) : bool :=
  0 <=? IndexOf s column source.

(** The column [col] has the name and the source looked up, letter case
    apart. *)
Definition hit (column source : string) (col : Column) : bool :=
  String.eqb (strings_ToLower (Name col)) (strings_ToLower column)
  && String.eqb (strings_ToLower (Source col)) (strings_ToLower source).

End Lookup.

(* ------------------------------------------------------------------ *)
(** *** Notions used by the statements on the rest of [type.go] *)

(** A canonical value of a type: a result of its [Convert]. *)
Definition canonical (t : Type_) (c : Value) : Prop :=
  exists v, result (Convert t v) = Ok c.

(** [t.Compare(a, b)] returns [x]. *)
Definition compares (t : Type_) (a b : Value) (x : Z) : Prop :=
  result (Compare t a b) = Ok x.

(** On the canonical values of [t], [Compare] returns -1, 0 or 1, changes
    sign when its operands are swapped, and orders transitively. *)
Definition ordered_at (t : Type_) : Prop :=
  (forall a b, canonical t a -> canonical t b ->
     exists x, compares t a b x /\ compares t b a (- x) /\ -1 <= x <= 1)
  /\ (forall a b c x y z,
        canonical t a -> canonical t b -> canonical t c ->
        compares t a b x -> compares t b c y -> compares t a c z ->
        x <= 0 -> y <= 0 -> z <= 0).

(** The key of a canonical number: its cast to [uint64] for the unsigned
    types, to [int64] for the others. *)
Definition number_key (q : query_Type) (c : Value) (k : Z) : Prop :=
  (if IsUnsigned (numberT q) then cast_ToUint64E c else cast_ToInt64E c) = Ok k.

(** Chronological comparison of two times. *)
Definition time_cmp (a b : Time) : Z :=
  if Time_Before a b then -1 else if Time_After a b then 1 else 0.

(** False before true. *)
Definition bool_cmp (a b : bool) : Z :=
  if Bool.eqb a b then 0 else if a then 1 else -1.

(** The Go integer type of the values of an integer code. *)
Definition code_kind (q : query_Type) : option IntKind :=
  match q with
  | sqltypes_Int8 => Some KInt8 | sqltypes_Uint8 => Some KUint8
  | sqltypes_Int16 => Some KInt16 | sqltypes_Uint16 => Some KUint16
  | sqltypes_Int32 => Some KInt32 | sqltypes_Uint32 => Some KUint32
  | sqltypes_Int64 => Some KInt64 | sqltypes_Uint64 => Some KUint64
  | _ => None
  end.

(** [compare_elems] over the [Compare] of the types [ts] returns [x]. *)
Definition compares_elems (ts : list Type_) (xs ys : list Value) (x : Z) : Prop :=
  result (compare_elems (map Compare ts) xs ys) = Ok x.

(** Nanoseconds from the Unix epoch to a time. *)
Definition instant (t : Time) : Z := unixSec t * time_Second + nsec t.

(** The number of the UTC day of a time, counted from the zero time. *)
Definition day_number (t : Time) : Z :=
  (instant t + unixToInternal * time_Second) / (24 * time_Hour).

(** What [Column.Check] accepts. *)
Definition accepted (c : Column) (v : Value) : Prop :=
  match v with
  | VNil => Nullable c = true
  | _ => succeeds (Convert (Typ c) v) = true
  end.

(** The year of a day within its 400-year era, as [civil_from_days]
    computes it from the day of the era. *)
Definition year_in_era (doe : Z) : Z :=
  let yoe := (doe - doe / 1460 + doe / 36524 - doe / 146096) / 365 in
  let doy := doe - (365 * yoe + yoe / 4 - yoe / 100) in
  let mp := (5 * doy + 2) / 153 in
  let m := mp + (if mp <? 10 then 3 else -9) in
  yoe + (if m <=? 2 then 1 else 0).

(** The types in which JSON does not occur. *)
Fixpoint json_free (t : Type_) : bool :=
  match t with
  | JSON => false
  | tupleT types => forallb json_free types
  | arrayT underlying => json_free underlying
  | _ => true
  end.

(** The types in which no array occurs. *)
Fixpoint array_free (t : Type_) : bool :=
  match t with
  | arrayT _ => false
  | tupleT types => forallb array_free types
  | _ => true
  end.

(** A value with its nil slices replaced by empty slices. *)
Fixpoint unnil (v : Value) : Value :=
  match v with
  | VSlice vs => VSlice (map unnil vs)
  | VNilSlice => VSlice []
  | _ => v
  end.

(** [Convert] gives every canonical value of [t] back, a nil slice as an
    empty one; so it gives the value itself when no array occurs in [t]. *)
Definition fixed_at (t : Type_) : Prop :=
  forall c, canonical t c ->
    result (Convert t c) = Ok (unnil c)
    /\ (array_free t = true -> unnil c = c).

(** The types declared as variables of package [sql]. *)
Definition declared_types : list Type_ :=
  [Null; Int8; Uint8; Int16; Uint16; Int32; Int64; Uint32; Uint64;
   Float32; Float64; Timestamp; Date; Text; Boolean; JSON; Blob].

End TypeGo.

(** Lower case of the letters A to Z, for running [IndexOf]. *)
Definition ascii_lower (c : ascii) : ascii :=
  let n := nat_of_ascii c in
  if (65 <=? n)%nat && (n <=? 90)%nat then ascii_of_nat (n + 32) else c.
Fixpoint lower (s : string) : string :=
  match s with
  | EmptyString => EmptyString
  | String c s' => String (ascii_lower c) (lower s')
  end.

(** The decimal digit [d] as a character, and a number written with two
    and with four digits. *)
Definition digit_char (d : Z) : ascii := ascii_of_nat (Z.to_nat (48 + d)).
Definition two_digits (x : Z) : string :=
  String (digit_char (x / 10)) (String (digit_char (x mod 10)) "").
Definition four_digits (x : Z) : string :=
  (two_digits (x / 100) ++ two_digits (x mod 100))%string.

(** [f] holds of 0, 1, ..., n - 1. *)
Fixpoint holds_below (f : Z -> bool) (n : nat) : bool :=
  match n with
  | O => true
  | S n' => f (Z.of_nat n') && holds_below f n'
  end.

(* ================================================================== *)
(** ** Properties *)

Section Monad.
Context {A B : Type}.

Lemma result_bind (m : M A) (f : A -> M B) :
  result (bind m f) =
  match result m with
  | Ok a => result (f a)
  | Err e => Err e
  | Fault p => Fault p
  end.
Proof.
  destruct m as [[a|e|p] l]; simpl; try reflexivity.
  destruct (f a); reflexivity.
Qed.

Lemma events_bind (m : M A) (f : A -> M B) :
  events (bind m f) =
  match result m with
  | Ok a => events m ++ events (f a)
  | _ => events m
  end.
Proof.
  destruct m as [[a|e|p] l]; simpl; try reflexivity.
  destruct (f a); reflexivity.
Qed.

Lemma result_pure (r : Result A) : result (pure r) = r.
Proof. reflexivity. Qed.

Lemma events_pure (r : Result A) : events (pure r) = [].
Proof. reflexivity. Qed.

End Monad.

Lemma closes_app g l1 l2 : closes g (l1 ++ l2) = (closes g l1 + closes g l2)%nat.
Proof.
  induction l1 as [|[g'|g'] l1 IH]; simpl; auto.
  rewrite IH. lia.
Qed.

Lemma succeeds_result {A} (m : M A) :
  succeeds m = true <-> exists a, result m = Ok a.
Proof.
  unfold succeeds. destruct (result m); split; intros H; eauto; try discriminate;
    destruct H as [? H]; discriminate.
Qed.

(* ------------------------------------------------------------------ *)
(** *** Comparison of numbers *)

Section NumberCompare.
Context {L : GoLib}.

Lemma narrow_not_classified q :
  In q narrow_codes -> IsSigned (numberT q) = false /\ IsUnsigned (numberT q) = false.
Proof.
  intros H; simpl in H.
  repeat (destruct H as [<-|H]; [split; reflexivity|]); contradiction.
Qed.

Lemma compareSigned_ints ka a kb b :
  compareSigned (VInt ka a) (VInt kb b) =
  Ok (if wrap KInt64 a =? wrap KInt64 b then 0
      else if wrap KInt64 a <? wrap KInt64 b then -1 else 1).
Proof.
  unfold compareSigned, cast_ToInt64E; simpl.
  destruct (_ =? _); [reflexivity|]. destruct (_ <? _); reflexivity.
Qed.

(** C7. The classification predicates hold of the 32- and 64-bit codes
    only, so for each of Int8, Uint8, Int16 and Uint16 [Compare] is the
    signed comparison [compareSigned], which casts both operands to
    [int64], whatever the signedness of the type; [Int16.Compare(5, 3)] and
    [Uint16.Compare(5, 3)] both return 1. *)
Theorem narrow_Compare_is_signed :
  (forall q, IsSigned (numberT q) = true <-> q = sqltypes_Int32 \/ q = sqltypes_Int64)
  /\ (forall q, IsUnsigned (numberT q) = true <-> q = sqltypes_Uint32 \/ q = sqltypes_Uint64)
  /\ Forall (fun q =>
            IsSigned (numberT q) = false /\ IsUnsigned (numberT q) = false /\
            forall a b, Compare (numberT q) a b = pure (compareSigned a b))
         narrow_codes
  /\ (forall a b,
        compareSigned a b =
        match cast_ToInt64E a, cast_ToInt64E b with
        | Ok ca, Ok cb => Ok (if ca =? cb then 0 else if ca <? cb then -1 else 1)
        | Ok _, Err e => Err e
        | Ok _, Fault p => Fault p
        | Err e, _ => Err e
        | Fault p, _ => Fault p
        end)
  /\ cast_ToInt64E (VInt KInt 5) = Ok 5 /\ cast_ToInt64E (VInt KInt 3) = Ok 3
  /\ Compare Int16 (VInt KInt 5) (VInt KInt 3) = ret 1
  /\ Compare Uint16 (VInt KInt 5) (VInt KInt 3) = ret 1
  /\ Compare Int16 (VInt KInt16 5) (VInt KInt16 3) = ret 1
  /\ Compare Uint16 (VInt KUint16 5) (VInt KUint16 3) = ret 1.
Proof.
  split; [|split].
  { intros q; split; [destruct q; try discriminate; auto|intros [->| ->]; reflexivity]. }
  { intros q; split; [destruct q; try discriminate; auto|intros [->| ->]; reflexivity]. }
  split.
  - repeat constructor.
  - split.
    + intros a b. unfold compareSigned.
      destruct (cast_ToInt64E a); [|reflexivity|reflexivity].
      destruct (cast_ToInt64E b); try reflexivity.
      destruct (_ =? _); [reflexivity|]. destruct (_ <? _); reflexivity.
    + repeat split; reflexivity.
Qed.

Lemma cast_ToInt64E_float q f :
  q = sqltypes_Float32 \/ q = sqltypes_Float64 ->
  cast_ToInt64E (float_value q f) = Ok (int_of_float KInt64 f).
Proof. intros [->| ->]; reflexivity. Qed.

(** C10. Float32 and Float64 are not classified as unsigned, so their
    [Compare] is [compareSigned]: both operands are cast to [int64], which
    drops the fraction, and two float values with equal integer parts
    compare as 0. *)
Theorem float_Compare_truncates (q : query_Type) (a b : float) :
  q = sqltypes_Float32 \/ q = sqltypes_Float64 ->
  int_of_float KInt64 a = int_of_float KInt64 b ->
  IsUnsigned (numberT q) = false /\
  (forall x y, Compare (numberT q) x y = pure (compareSigned x y)) /\
  cast_ToInt64E (float_value q a) = Ok (int_of_float KInt64 a) /\
  cast_ToInt64E (float_value q b) = Ok (int_of_float KInt64 b) /\
  Compare (numberT q) (float_value q a) (float_value q b) = ret 0.
Proof.
  intros Hq Heq.
  assert (Hu : IsUnsigned (numberT q) = false) by (destruct Hq as [->| ->]; reflexivity).
  assert (Hc : forall x y, Compare (numberT q) x y = pure (compareSigned x y)).
  { intros x y. simpl. unfold numberT_Compare. rewrite Hu. reflexivity. }
  repeat split; auto using cast_ToInt64E_float.
  rewrite Hc. unfold compareSigned.
  rewrite !cast_ToInt64E_float by assumption.
  rewrite Heq, Z.eqb_refl. reflexivity.
Qed.

End NumberCompare.

(** 1.5 and 1.2 are different [float64] values, both with integer part 1,
    and [Float64.Compare] returns 0 on them. *)
Lemma float_Compare_truncates_witness :
  SFeqb f1_5 f1_2 = false /\
  float_trunc f1_5 = Some 1 /\ float_trunc f1_2 = Some 1 /\
  Compare Float64 (VFloat64 f1_5) (VFloat64 f1_2) = ret 0.
Proof.
  split; [reflexivity|]. split; [reflexivity|]. split; [reflexivity|].
  apply (float_Compare_truncates (L := DecimalLib) sqltypes_Float64 f1_5 f1_2).
  - right; reflexivity.
  - reflexivity.
Defined.

(* ------------------------------------------------------------------ *)
(** *** Conversion to a boolean *)

Section BooleanConvert.
Context {L : GoLib}.

Lemma booleanT_Convert_agrees v : off_reference v = false -> agrees v.
Proof.
  unfold agrees.
  destruct v as [|b|k n|f|f|s|b|d|t|vs| |g items final cerr| |ty i str|ty i];
    simpl; intros H; try reflexivity; try discriminate.
  - destruct (n =? 0) eqn:Hn; simpl in *.
    + apply negb_false_iff in H. rewrite H. reflexivity.
    + rewrite andb_false_r. reflexivity.
  - destruct (_ =? 0); reflexivity.
  - destruct (d =? 0); reflexivity.
  - destruct (Time_UnixNano t =? 0); reflexivity.
Qed.

Lemma booleanT_Convert_disagrees v : off_reference v = true -> ~ agrees v.
Proof.
  unfold agrees.
  destruct v as [|b|k n|f|f|s|b|d|t|vs| |g items final cerr| |ty i str|ty i];
    simpl; intros H; try discriminate; auto.
  apply andb_true_iff in H as [Hn Hk].
  apply negb_true_iff in Hk. rewrite Hn, Hk. simpl. discriminate.
Qed.

(** C4 (the code leaves the reference). [booleanT.Convert] gives true for
    the zero of [int64] (and of every integer type but [int]) and faults on
    a [float32]; on every other input it is the reference definition. *)
Theorem booleanT_Convert_off_reference :
  booleanT_Convert (VInt KInt64 0) = Ok (VBool true)
  /\ booleanT_Convert_reference (VInt KInt64 0) = Some false
  /\ booleanT_Convert (VFloat32 (float32_of_Z 1)) =
       Fault "interface conversion: interface {} is float32, not float64"
  /\ booleanT_Convert_reference (VFloat32 (float32_of_Z 1)) = Some true
  /\ forall v, agrees v <-> off_reference v = false.
Proof.
  repeat split; try reflexivity.
  - intros H. destruct (off_reference v) eqn:E; [|reflexivity].
    exfalso. exact (booleanT_Convert_disagrees v E H).
  - apply booleanT_Convert_agrees.
Qed.

End BooleanConvert.

(* ------------------------------------------------------------------ *)
(** *** The row check *)

Section RowCheck.
Context {L : GoLib}.

Lemma CheckRow_length s row :
  List.length s <> List.length row ->
  CheckRow s row = throw (ErrUnexpectedRowLength (List.length s) (List.length row)).
Proof.
  intros H. unfold CheckRow.
  destruct (Nat.eqb_spec (List.length s) (List.length row)); [contradiction|reflexivity].
Qed.

Lemma check_from_prefix s1 : forall r0 r1 s2 rest,
  List.length s1 = List.length r1 ->
  Forall2 (fun f v => result (Check f v) = Ok true) s1 r1 ->
  result (check_from (s1 ++ s2) (List.length r0) (r0 ++ r1 ++ rest)) =
  result (check_from s2 (List.length r0 + List.length r1) (r0 ++ r1 ++ rest)).
Proof.
  induction s1 as [|f s1 IH]; intros r0 r1 s2 rest Hlen Hall.
  - destruct r1; [|discriminate]. simpl. rewrite Nat.add_0_r. reflexivity.
  - destruct r1 as [|v r1]; [discriminate|].
    inversion Hall as [|? ? ? ? Hf Hrest]; subst.
    simpl app at 1. cbn [check_from].
    rewrite nth_error_app2 by lia. rewrite Nat.sub_diag. cbn [app nth_error].
    rewrite result_bind, Hf.
    specialize (IH (r0 ++ [v]) r1 s2 rest).
    rewrite <- !app_assoc in IH. cbn [app] in IH.
    rewrite length_app in IH. cbn [List.length] in IH.
    replace (S (List.length r0)) with (List.length r0 + 1)%nat by lia.
    rewrite IH by (auto; simpl in Hlen; lia).
    cbn [List.length]. f_equal. f_equal. lia.
Qed.

(** A value other than nil that its column rejects, after columns that
    accept theirs: the error names its position and its Go type. *)
Lemma CheckRow_rejects s1 c s2 r1 v r2 typ :
  List.length s1 = List.length r1 ->
  List.length s2 = List.length r2 ->
  Forall2 (fun f v => result (Check f v) = Ok true) s1 r1 ->
  result (Check c v) = Ok false ->
  reflect_TypeOf v = Some typ ->
  result (CheckRow (s1 ++ c :: s2) (r1 ++ v :: r2)) =
  Err (ErrUnexpectedType (List.length r1) typ).
Proof.
  intros H1 H2 Hall Hc Hty. unfold CheckRow.
  rewrite !length_app. cbn [List.length]. rewrite H1, H2, Nat.eqb_refl. cbn [negb].
  pose proof (check_from_prefix s1 [] r1 (c :: s2) (v :: r2) H1 Hall) as E.
  cbn [app List.length] in E. rewrite E.
  cbn [check_from Nat.add].
  rewrite nth_error_app2 by lia. rewrite Nat.sub_diag. cbn [nth_error].
  rewrite result_bind, Hc, Hty. reflexivity.
Qed.

(** C3 (the code faults). When the columns before it accept their values,
    an absent value at a column that is not nullable makes [CheckRow] fault
    in [reflect.TypeOf(v).String()]: no error is returned. *)
Theorem CheckRow_nil_faults s1 c s2 r1 r2 :
  List.length s1 = List.length r1 ->
  List.length s2 = List.length r2 ->
  Forall2 (fun f v => result (Check f v) = Ok true) s1 r1 ->
  Nullable c = false ->
  result (CheckRow (s1 ++ c :: s2) (r1 ++ VNil :: r2)) =
  Fault "runtime error: invalid memory address or nil pointer dereference".
Proof.
  intros H1 H2 Hall Hc. unfold CheckRow.
  rewrite !length_app. cbn [List.length]. rewrite H1, H2, Nat.eqb_refl. cbn [negb].
  pose proof (check_from_prefix s1 [] r1 (c :: s2) (VNil :: r2) H1 Hall) as E.
  cbn [app List.length] in E. rewrite E.
  cbn [check_from Nat.add].
  rewrite nth_error_app2 by lia. rewrite Nat.sub_diag. cbn [nth_error].
  rewrite result_bind. cbn [Check]. rewrite Hc. reflexivity.
Qed.

End RowCheck.

(** The three-column schema: the row check faults on an absent value at
    the last column, and returns its errors on a short row and on a value of
    the wrong kind. *)
Lemma CheckRow_nil_faults_witness :
  result (CheckRow schema3 [VInt KInt 1; VNil; VNil]) =
    Fault "runtime error: invalid memory address or nil pointer dereference"
  /\ CheckRow schema3 [VInt KInt 1; VNil] = throw (ErrUnexpectedRowLength 3 2)
  /\ CheckRow schema3 [VInt KInt 1; VNil; VString "yes"] = throw (ErrUnexpectedType 2 "string").
Proof.
  split; [|split; reflexivity].
  apply (CheckRow_nil_faults (L := DecimalLib)
           [mkColumn "id" Int64 VNil false "t"; mkColumn "name" Text VNil true "t"]
           (mkColumn "ok" Boolean VNil false "t") []
           [VInt KInt 1; VNil] []).
  - reflexivity.
  - reflexivity.
  - repeat constructor.
  - reflexivity.
Defined.

(* ------------------------------------------------------------------ *)
(** *** Arrays over a producer *)

Section ArrayDrain.
Context {L : GoLib}.

Lemma scalar_events t v : is_scalar t = true -> events (Convert t v) = [].
Proof. destruct t; simpl; intros H; try reflexivity; discriminate. Qed.

Lemma drain_scalar t g final : is_scalar t = true -> forall items,
  closes g (events (drain (Convert t) g items final)) = 0%nat /\
  succeeds (drain (Convert t) g items final) =
    forallb (fun x => succeeds (Convert t x)) items && is_EOF final.
Proof.
  intros Ht. induction items as [|x items [IHc IHs]].
  - simpl. destruct (is_EOF final); split; reflexivity.
  - cbn [drain forallb]. unfold succeeds in *.
    rewrite !events_bind, !result_bind. cbn [tell result events fst snd].
    rewrite (scalar_events t x Ht).
    destruct (result (Convert t x)) as [c|e|p]; cbn [andb app closes]; auto.
    rewrite ?events_bind, ?result_bind.
    destruct (result (drain (Convert t) g items final)) as [vs|e|p];
      cbn [ret result events fst snd] in *;
      rewrite ?app_nil_r; auto.
Qed.

Lemma arrayT_Convert_producer_result u g items final cerr :
  result (Convert (Array u) (VGenerator g items final cerr)) =
  match result (drain (Convert u) g items final) with
  | Ok values =>
      match cerr with
      | Some err => Err err
      | None => Ok (appended values)
      end
  | Err e => Err e
  | Fault p => Fault p
  end.
Proof.
  cbn [Convert Array arrayT_Convert as_slice]. rewrite result_bind.
  destruct (result (drain (Convert u) g items final)); try reflexivity.
  rewrite result_bind. destruct cerr; reflexivity.
Qed.

(** The error of the first element that fails to convert is the one
    returned. *)
Lemma arrayT_Convert_element_error u g xs1 : forall x xs2 final cerr e,
  Forall (fun x => succeeds (Convert u x) = true) xs1 ->
  result (Convert u x) = Err e ->
  result (Convert (Array u) (VGenerator g (xs1 ++ x :: xs2) final cerr)) = Err e.
Proof.
  intros x xs2 final cerr e Hall He. rewrite arrayT_Convert_producer_result.
  assert (D : result (drain (Convert u) g (xs1 ++ x :: xs2) final) = Err e).
  { induction Hall as [|x1 xs1 H1 _ IH]; cbn [app drain];
      rewrite result_bind; cbn [tell result fst]; rewrite result_bind.
    - rewrite He. reflexivity.
    - apply succeeds_result in H1 as [c1 H1]. rewrite H1, result_bind, IH. reflexivity. }
  rewrite D. reflexivity.
Qed.

Lemma arrayT_Convert_producer_events u g items final cerr :
  events (Convert (Array u) (VGenerator g items final cerr)) =
  events (drain (Convert u) g items final) ++
  (if succeeds (drain (Convert u) g items final) then [EvClose g] else []).
Proof.
  cbn [Convert Array arrayT_Convert as_slice]. rewrite events_bind. unfold succeeds.
  destruct (result (drain (Convert u) g items final)) as [vs|e|p];
    rewrite ?app_nil_r; try reflexivity.
  rewrite events_bind. cbn [tell result events fst snd].
  destruct cerr; reflexivity.
Qed.

(** C1 (the code leaks the producer). Over a producer, [Array(U).Convert]
    calls [Close] after the drain, once, when every element converts and
    the producer ends with [io.EOF], and not at all when an element fails
    to convert or the producer reports an error: those exits return before
    the call.  For [U] other than a tuple or an array (converting an
    element then calls no producer) the calls of [Close] number 1 in the
    first case and 0 in the others. *)
Theorem arrayT_Convert_Close_count u g items final cerr :
  events (Convert (Array u) (VGenerator g items final cerr)) =
    events (drain (Convert u) g items final) ++
    (if succeeds (drain (Convert u) g items final) then [EvClose g] else [])
  /\ (is_scalar u = true ->
      closes g (events (Convert (Array u) (VGenerator g items final cerr))) =
      if forallb (fun x => succeeds (Convert u x)) items && is_EOF final
      then 1%nat else 0%nat).
Proof.
  split; [apply arrayT_Convert_producer_events|].
  intros Hu. destruct (drain_scalar u g final Hu items) as [Hc Hs].
  rewrite arrayT_Convert_producer_events, closes_app, Hc, <- Hs.
  destruct (succeeds (drain (Convert u) g items final)); cbn [closes];
    rewrite ?Nat.eqb_refl; reflexivity.
Qed.

End ArrayDrain.

(** The producer of 1, 2, 3 is closed once; the producer whose second
    element does not convert is never closed, and the conversion error is
    returned; nor is the producer that reports an error. *)
Lemma arrayT_Convert_Close_count_witness :
  closes 7 (events (Convert (Array Int64) producer_1_x_3)) = 0%nat
  /\ result (Convert (Array Int64) producer_1_x_3) = Err (ErrUnableToCast "int64")
  /\ closes 7 (events (Convert (Array Int64) producer_broken)) = 0%nat
  /\ Convert (Array Int64) (VGenerator 7 [VInt KInt 1; VInt KInt 2; VInt KInt 3] io_EOF None)
     = (Ok (VSlice [VInt KInt64 1; VInt KInt64 2; VInt KInt64 3]),
        [EvNext 7; EvNext 7; EvNext 7; EvNext 7; EvClose 7]).
Proof.
  split.
  - exact (proj2 (arrayT_Convert_Close_count (L := DecimalLib) Int64 7
             [VInt KInt 1; VString "x"; VInt KInt 3] io_EOF None) eq_refl).
  - repeat split; reflexivity.
Defined.

(* ------------------------------------------------------------------ *)
(** *** Conversion to a number *)

Ltac pow2 :=
  repeat match goal with
    | |- context [2 ^ ?e] =>
        let v := eval vm_compute in (2 ^ e) in change (2 ^ e) with v
    | H : context [2 ^ ?e] |- _ =>
        let v := eval vm_compute in (2 ^ e) in change (2 ^ e) with v in H
    end.

Lemma in_range_bounds k z :
  in_range k z = true <-> min_int k <= z <= max_int k.
Proof.
  unfold in_range. rewrite andb_true_iff, !Z.leb_le. reflexivity.
Qed.

Lemma wrap_in_range k z : in_range k (wrap k z) = true.
Proof.
  apply in_range_bounds. unfold wrap, min_int, max_int.
  destruct k; cbn [signed bits]; pow2; Z.to_euclidean_division_equations; lia.
Qed.

Lemma wrap_id k z : in_range k z = true -> wrap k z = z.
Proof.
  intros H. apply in_range_bounds in H. revert H. unfold wrap, min_int, max_int.
  destruct k; cbn [signed bits]; pow2; intros H;
    Z.to_euclidean_division_equations; lia.
Qed.

Lemma wrap_congruent k z : (wrap k z - z) mod 2 ^ bits k = 0.
Proof.
  unfold wrap.
  destruct k; cbn [signed bits]; pow2; Z.to_euclidean_division_equations; lia.
Qed.

Lemma cvt32_in_range f : in_range KInt32 (cvt32 f) = true.
Proof.
  unfold cvt32. destruct (float_trunc f) as [z|]; [|reflexivity].
  destruct (in_range KInt32 z) eqn:E; [exact E|reflexivity].
Qed.

Lemma cvt64_in_range f : in_range KInt64 (cvt64 f) = true.
Proof.
  unfold cvt64. destruct (float_trunc f) as [z|]; [|reflexivity].
  destruct (in_range KInt64 z) eqn:E; [exact E|reflexivity].
Qed.

Lemma int_of_float_in_range k f : in_range k (int_of_float k f) = true.
Proof.
  destruct k; cbn [int_of_float];
    try apply wrap_in_range; try apply cvt32_in_range; try apply cvt64_in_range.
  - destruct (float_trunc f) as [z|]; [|reflexivity].
    destruct (z <? 2 ^ 63) eqn:A; [apply wrap_in_range|].
    destruct (z <? 2 ^ 64) eqn:B; [|reflexivity].
    apply Z.ltb_ge in A. apply Z.ltb_lt in B.
    apply in_range_bounds. unfold min_int, max_int. cbn [signed bits]. pow2. lia.
  - destruct (float_trunc f) as [z|]; [|reflexivity].
    destruct (z <? 2 ^ 63) eqn:A; [apply wrap_in_range|].
    destruct (z <? 2 ^ 64) eqn:B; [|reflexivity].
    apply Z.ltb_ge in A. apply Z.ltb_lt in B.
    apply in_range_bounds. unfold min_int, max_int. cbn [signed bits]. pow2. lia.
Qed.

(** A float whose integer part is in the range of [k] converts to that
    integer. *)
Lemma int_of_float_fits k f z :
  float_trunc f = Some z -> in_range k z = true -> int_of_float k f = z.
Proof.
  intros T R.
  assert (C32 : in_range KInt32 z = true -> cvt32 f = z)
    by (intros H; unfold cvt32; rewrite T, H; reflexivity).
  assert (C64 : in_range KInt64 z = true -> cvt64 f = z)
    by (intros H; unfold cvt64; rewrite T, H; reflexivity).
  pose proof R as B. apply in_range_bounds in B. unfold min_int, max_int in B.
  destruct k; cbn [int_of_float signed bits] in *; pow2;
    try (apply C64; apply in_range_bounds; unfold min_int, max_int;
         cbn [signed bits]; pow2; lia);
    try (apply C32; apply in_range_bounds; unfold min_int, max_int;
         cbn [signed bits]; pow2; lia);
    try (rewrite C32 by (apply in_range_bounds; unfold min_int, max_int;
                         cbn [signed bits]; pow2; lia);
         apply wrap_id; exact R);
    try (rewrite C64 by (apply in_range_bounds; unfold min_int, max_int;
                         cbn [signed bits]; pow2; lia);
         apply wrap_id; exact R).
  - rewrite T. destruct (z <? 9223372036854775808) eqn:A.
    + apply Z.ltb_lt in A.
      rewrite C64 by (apply in_range_bounds; unfold min_int, max_int;
                      cbn [signed bits]; pow2; lia).
      apply wrap_id; exact R.
    + replace (z <? 18446744073709551616) with true
        by (symmetry; apply Z.ltb_lt; lia). reflexivity.
  - rewrite T. destruct (z <? 9223372036854775808) eqn:A.
    + apply Z.ltb_lt in A.
      rewrite C64 by (apply in_range_bounds; unfold min_int, max_int;
                      cbn [signed bits]; pow2; lia).
      apply wrap_id; exact R.
    + replace (z <? 18446744073709551616) with true
        by (symmetry; apply Z.ltb_lt; lia). reflexivity.
Qed.

Section NumberConvert.
Context {L : GoLib}.

Lemma numberT_Convert_time q ti :
  numberT_Convert q (VTime ti) = numberT_Convert q (VInt KInt64 (Time_Unix ti)).
Proof. reflexivity. Qed.

Lemma numberT_Convert_seconds q v :
  numberT_Convert q v = numberT_Convert q (timestamp_seconds v).
Proof. destruct v; reflexivity. Qed.

Lemma numberT_Convert_narrow q v :
  In q narrow_codes -> numberT_Convert q v = Err ErrInvalidType.
Proof.
  intros H; simpl in H.
  repeat (destruct H as [<-|H]; [reflexivity|]); contradiction.
Qed.

(** The casts to a signed and to an unsigned integer. *)
Lemma cast_ToIntE_coerces k v :
  signed k = true ->
  match v with
  | VInt _ n => cast_ToIntE k v = Ok (wrap k n)
  | VFloat32 f | VFloat64 f => cast_ToIntE k v = Ok (int_of_float k f)
  | VBool b => cast_ToIntE k v = Ok (if b then 1 else 0)
  | VNil => cast_ToIntE k v = Ok 0
  | VString s =>
      cast_ToIntE k v =
      match strconv_ParseInt s with
      | Some n => Ok (wrap k n)
      | None => Err (ErrUnableToCast (kind_name k))
      end
  | _ => cast_ToIntE k v = Err (ErrUnableToCast (kind_name k))
  end.
Proof. intros _. destruct v; reflexivity. Qed.

Lemma small_in_range k (b : bool) : in_range k (if b then 1 else 0) = true.
Proof. destruct k, b; reflexivity. Qed.

Lemma zero_in_range k : in_range k 0 = true.
Proof. destruct k; reflexivity. Qed.

Lemma numberT_Convert_coerces q v :
  In q wide_codes ->
  timestamp_seconds v = v ->
  if coercible q v
  then exists c, numberT_Convert q v = Ok c /\ has_width q c = true /\ coerced q v c
  else exists e, numberT_Convert q v = Err e.
Proof.
  intros Hq Hv. unfold coercible. rewrite Hv. simpl in Hq.
  pose proof (wrap_congruent KInt32) as W1. pose proof (wrap_congruent KInt64) as W2.
  pose proof (wrap_congruent KUint32) as W3. pose proof (wrap_congruent KUint64) as W4.
  cbn [bits] in W1, W2, W3, W4.
  repeat (destruct Hq as [<-|Hq]; [|]); try contradiction;
    (destruct v; try discriminate Hv;
     cbn [unsigned_code negb orb wide_kind is_some parsed_int parsed_float];
     unfold numberT_Convert, coerced, cast_ToInt32E, cast_ToInt64E, cast_ToUint32E,
       cast_ToUint64E, cast_ToIntE, cast_ToUintE, cast_ToFloat32E, cast_ToFloat64E,
       unable;
     cbn [wide_kind parsed_int parsed_float float_value float_of_Z float_of_float32
          float_of_float64 has_width];
     cbv beta iota zeta;
     change (bits KUint32) with 32; change (bits KUint64) with 64;
     change (bits KInt32) with 32; change (bits KInt64) with 64;
     try (eexists; reflexivity)).
  all: try match goal with
       | |- context [strconv_ParseInt ?s] => destruct (strconv_ParseInt s) eqn:P
       | |- context [strconv_ParseUint ?s ?b] => destruct (strconv_ParseUint s b) eqn:P
       | |- context [strconv_ParseFloat ?s ?b] => destruct (strconv_ParseFloat s b) eqn:P
       | |- context [0 <=? ?n] =>
           destruct (Z.leb_spec 0 n) as [P|P];
           [replace (n <? 0) with false by (symmetry; apply Z.ltb_ge; exact P)
           |replace (n <? 0) with true by (symmetry; apply Z.ltb_lt; exact P)]
       | |- context [float_is_neg ?f] => destruct (float_is_neg f) eqn:P
       end;
       cbn [is_some option_map negb];
       try (eexists; reflexivity).
  all: eexists; (split; [reflexivity|]);
       (split; [auto using wrap_in_range, int_of_float_in_range, small_in_range,
                  zero_in_range|]);
       eexists; (split; [reflexivity|]);
       try reflexivity;
       try (split; [auto using wrap_in_range, int_of_float_in_range, small_in_range,
                      zero_in_range|]);
       try apply W1; try apply W2; try apply W3; try apply W4;
       try (intros z T R; apply int_of_float_fits; assumption);
       try reflexivity;
       try (eexists; split; [reflexivity|first [apply W1|apply W2|apply W3|apply W4]]).
Qed.

Lemma timestamp_seconds_twice v :
  timestamp_seconds (timestamp_seconds v) = timestamp_seconds v.
Proof. destruct v; reflexivity. Qed.

(** C2 (amended). For each of the six codes Int32, Uint32, Int64, Uint64,
    Float32 and Float64, [Convert] takes a timestamp as its Unix seconds
    and succeeds exactly on the inputs that can be coerced: a number that
    is not below zero when the target has no sign, a boolean, a text that
    stands for a number, and nil when the target is an integer.  Its result
    is then the input at the width of the target: an integer reduced
    modulo [2 ^ bits], the integer part of a float that fits, 1 or 0, or the
    nearest float.  On any other input it returns an error.  For each of
    Int8, Uint8, Int16 and Uint16 it fails with [ErrInvalidType] on every
    input. *)
Theorem numberT_Convert_by_width q v :
  (In q wide_codes ->
     (forall ti, Convert (numberT q) (VTime ti) =
                 Convert (numberT q) (VInt KInt64 (Time_Unix ti)))
     /\ succeeds (Convert (numberT q) v) = coercible q v
     /\ (forall c, Convert (numberT q) v = ret c ->
           has_width q c = true /\ coerced q (timestamp_seconds v) c)
     /\ (coercible q v = false -> exists e, Convert (numberT q) v = throw e))
  /\ (In q narrow_codes -> Convert (numberT q) v = throw ErrInvalidType).
Proof.
  split.
  - intros Hq.
    pose proof (numberT_Convert_coerces q (timestamp_seconds v) Hq
                  (timestamp_seconds_twice v)) as H.
    rewrite <- numberT_Convert_seconds in H.
    assert (E : coercible q (timestamp_seconds v) = coercible q v)
      by (unfold coercible; rewrite timestamp_seconds_twice; reflexivity).
    rewrite E in H.
    split; [reflexivity|].
    cbn [Convert]. unfold succeeds, pure, ret, throw. cbn [result fst].
    destruct (coercible q v).
    + destruct H as [c [Hc [Hw Hco]]]. rewrite Hc.
      split; [reflexivity|]. split; [|discriminate].
      intros c' H'. injection H' as <-. split; assumption.
    + destruct H as [e He]. rewrite He.
      split; [reflexivity|]. split; [discriminate|].
      intros _. exists e. reflexivity.
  - intros Hq. cbn [Convert]. rewrite (numberT_Convert_narrow q v Hq). reflexivity.
Qed.

End NumberConvert.

(** [Int32.Convert] brings the [int64] 4294967301 to 5 and takes a timestamp
    as its seconds; out of the range, the float 10000000000 gives the
    least [int32] and, for [Uint32], its low 32 bits; [Int64.Convert] reads
    a text, a boolean and nil; [Uint32.Convert] rejects -1, and
    [Int8.Convert] rejects 5. *)
Lemma numberT_Convert_by_width_witness :
  Convert Int32 (VInt KInt64 4294967301) = ret (VInt KInt32 5)
  /\ coerced sqltypes_Int32 (VInt KInt64 4294967301) (VInt KInt32 5)
  /\ Convert Int32 (VTime (mkTime 1577923200 0 UTC)) = ret (VInt KInt32 1577923200)
  /\ Convert Int32 (VFloat64 f1e10) = ret (VInt KInt32 (-2147483648))
  /\ Convert Uint32 (VFloat64 f1e10) = ret (VInt KUint32 1410065408)
  /\ Convert Int64 (VFloat64 f1_5) = ret (VInt KInt64 1)
  /\ Convert Int64 (VString "12") = ret (VInt KInt64 12)
  /\ Convert Int64 (VBool true) = ret (VInt KInt64 1)
  /\ Convert Int64 VNil = ret (VInt KInt64 0)
  /\ Convert Float64 (VInt KInt 3) = ret (VFloat64 (S754_finite false 6755399441055744 (-51)))
  /\ Convert Uint32 (VInt KInt (-1)) = throw errNegativeNotAllowed
  /\ Convert Int64 (VString "x") = throw (ErrUnableToCast "int64")
  /\ Convert Int8 (VInt KInt 5) = throw ErrInvalidType.
Proof.
  destruct (numberT_Convert_by_width (L := DecimalLib) sqltypes_Int32 (VInt KInt64 4294967301))
    as [Hw _].
  destruct (numberT_Convert_by_width (L := DecimalLib) sqltypes_Int8 (VInt KInt 5))
    as [_ Hn].
  destruct (Hw (or_introl eq_refl)) as [_ [_ [Hc _]]].
  destruct (Hc (VInt KInt32 5) eq_refl) as [_ Hco].
  split; [reflexivity|]. split; [exact Hco|].
  repeat (split; [reflexivity|]).
  exact (Hn (or_introl eq_refl)).
Defined.

(** The claim as stated fails at the 8- and 16-bit types and at the types
    without a sign: 5 and -1 are numbers, [Int8.Convert(5)] returns
    [ErrInvalidType] and [Uint32.Convert(-1)] returns the error of a
    negative number. *)
Lemma numberT_Convert_rejects_numbers :
  numeric (VInt KInt 5) = true
  /\ Convert Int8 (VInt KInt 5) = throw ErrInvalidType
  /\ numeric (VInt KInt (-1)) = true
  /\ Convert Uint32 (VInt KInt (-1)) = throw errNegativeNotAllowed
  /\ ~ (forall q v, In q (wide_codes ++ narrow_codes) -> numeric v = true ->
        succeeds (Convert (numberT q) v) = true)
  /\ ~ (forall q v, In q wide_codes -> numeric v = true ->
        succeeds (Convert (numberT q) v) = true).
Proof.
  repeat (split; [reflexivity|]). split.
  - intros H. specialize (H sqltypes_Int8 (VInt KInt 5)).
    assert (E : succeeds (Convert (numberT sqltypes_Int8) (VInt KInt 5)) = true).
    { apply H; [|reflexivity]. simpl. tauto. }
    discriminate E.
  - intros H. specialize (H sqltypes_Uint32 (VInt KInt (-1))).
    assert (E : succeeds (Convert (numberT sqltypes_Uint32) (VInt KInt (-1))) = true).
    { apply H; [|reflexivity]. simpl. tauto. }
    discriminate E.
Qed.

(* ------------------------------------------------------------------ *)
(** *** The civil calendar and the digits of a time *)

Lemma civil_year_split z :
  fst (fst (civil_from_days z)) =
  year_in_era ((z + 719468) - (z + 719468) / 146097 * 146097)
  + (z + 719468) / 146097 * 400.
Proof. unfold civil_from_days, year_in_era. cbv zeta. cbn [fst]. lia. Qed.

Lemma year_in_era_bounds doe :
  0 <= doe < 146097 ->
  year_in_era doe <= 400 /\ (doe <= 146036 -> year_in_era doe <= 399).
Proof.
  intros H. unfold year_in_era. cbv zeta.
  set (yoe := (doe - doe / 1460 + doe / 36524 - doe / 146096) / 365).
  assert (Y : 0 <= yoe <= 399) by (subst yoe; Z.to_euclidean_division_equations; lia).
  set (doy := doe - (365 * yoe + yoe / 4 - yoe / 100)).
  set (mp := (5 * doy + 2) / 153).
  split.
  - destruct (_ <=? 2); lia.
  - intros H2.
    destruct (Z.eq_dec yoe 399) as [E|E]; [|destruct (_ <=? 2); lia].
    assert (D : doy <= 305)
      by (subst doy; rewrite E; change (399 / 4) with 99; change (399 / 100) with 3; lia).
    assert (M : mp < 10) by (subst mp; apply Z.div_lt_upper_bound; lia).
    apply Z.ltb_lt in M. rewrite M.
    assert (0 <= mp).
    { subst mp. apply Z.div_pos; [|lia].
      assert (0 <= doy); [|lia].
      subst doy. rewrite E. change (399 / 4) with 99. change (399 / 100) with 3.
      subst yoe. clear - H E. Z.to_euclidean_division_equations; lia. }
    replace (mp + 3 <=? 2) with false by (symmetry; apply Z.leb_gt; lia). lia.
Qed.

Lemma civil_year_bound z :
  z <= 2932896 -> fst (fst (civil_from_days z)) <= 9999.
Proof.
  intros Hz. rewrite civil_year_split.
  set (z' := z + 719468).
  assert (Hera : z' / 146097 < 25) by (subst z'; apply Z.div_lt_upper_bound; lia).
  pose proof (Z.mod_pos_bound z' 146097 ltac:(lia)) as Hdoe.
  rewrite Z.mod_eq in Hdoe by lia.
  replace (z' - z' / 146097 * 146097) with (z' - 146097 * (z' / 146097)) by lia.
  set (doe := z' - 146097 * (z' / 146097)) in *.
  destruct (year_in_era_bounds doe Hdoe) as [B1 B2].
  destruct (Z.eq_dec (z' / 146097) 24) as [E|E]; [|lia].
  assert (doe <= 146036) by (subst doe z'; lia).
  specialize (B2 H). lia.
Qed.

Lemma holds_below_spec (f : Z -> bool) n :
  holds_below f n = true -> forall k, 0 <= k < Z.of_nat n -> f k = true.
Proof.
  induction n as [|n IH]; cbn [holds_below]; intros H k Hk; [lia|].
  apply andb_true_iff in H as [H1 H2].
  destruct (Z.eq_dec k (Z.of_nat n)) as [->|N]; [exact H1|].
  apply IH; [exact H2|lia].
Qed.

Lemma holds_grid_spec (f : Z -> bool) rows cols :
  holds_below (fun i => holds_below (fun j => f (i * Z.of_nat cols + j)) cols) rows = true ->
  forall k, 0 <= k < Z.of_nat rows * Z.of_nat cols -> f k = true.
Proof.
  intros H k Hk.
  assert (C : 0 < Z.of_nat cols) by nia.
  pose proof (Z.div_mod k (Z.of_nat cols) ltac:(lia)) as E.
  pose proof (Z.mod_pos_bound k (Z.of_nat cols) C) as B.
  assert (R : 0 <= k / Z.of_nat cols < Z.of_nat rows).
  { split; [apply Z.div_pos; lia|]. apply Z.div_lt_upper_bound; nia. }
  pose proof (holds_below_spec _ _ H (k / Z.of_nat cols) R) as H1. cbv beta in H1.
  pose proof (holds_below_spec _ _ H1 (k mod Z.of_nat cols) B) as H2. cbv beta in H2.
  replace (k / Z.of_nat cols * Z.of_nat cols + k mod Z.of_nat cols) with k in H2 by lia.
  exact H2.
Qed.

Lemma appendInt_two_table :
  holds_below (fun x => String.eqb (appendInt x 2) (two_digits x)) 100 = true.
Proof. vm_compute. reflexivity. Qed.

Lemma appendInt_four_table :
  holds_below
    (fun a => holds_below
       (fun b => (fun y => String.eqb (appendInt y 4) (four_digits y)) (a * Z.of_nat 100 + b))
       100) 100 = true.
Proof. vm_compute. reflexivity. Qed.

Lemma appendInt_two x : 0 <= x < 100 -> appendInt x 2 = two_digits x.
Proof.
  intros H. apply String.eqb_eq.
  exact (holds_below_spec _ 100 appendInt_two_table x H).
Qed.

Lemma appendInt_four y : 0 <= y < 10000 -> appendInt y 4 = four_digits y.
Proof.
  intros H. apply String.eqb_eq.
  exact (holds_grid_spec (fun y => String.eqb (appendInt y 4) (four_digits y))
           100 100 appendInt_four_table y H).
Qed.

Lemma digit_char_digit d :
  0 <= d <= 9 ->
  isDigit (digit_char d) = true /\ digit (digit_char d) = d
  /\ Ascii.eqb (digit_char d) " " = false.
Proof.
  intros H.
  assert (C : d = 0 \/ d = 1 \/ d = 2 \/ d = 3 \/ d = 4 \/ d = 5 \/ d = 6
              \/ d = 7 \/ d = 8 \/ d = 9) by lia.
  destruct C as [C|[C|[C|[C|[C|[C|[C|[C|[C|C]]]]]]]]]; subst d; repeat split.
Qed.

Lemma getnum_two x rest fixed :
  0 <= x < 100 -> getnum (two_digits x ++ rest)%string fixed = Some (x, rest).
Proof.
  intros H. unfold two_digits. cbn [String.append getnum].
  destruct (digit_char_digit (x / 10)) as [A1 [A2 _]];
    [split; [apply Z.div_pos; lia|apply Z.lt_succ_r, Z.div_lt_upper_bound; lia]|].
  destruct (digit_char_digit (x mod 10)) as [B1 [B2 _]];
    [pose proof (Z.mod_pos_bound x 10 ltac:(lia)); lia|].
  rewrite A1, B1, A2, B2. f_equal. f_equal.
  pose proof (Z.div_mod x 10 ltac:(lia)). lia.
Qed.

Lemma parse_year_four y rest :
  0 <= y < 10000 -> parse_year (four_digits y ++ rest)%string = Some (y, rest).
Proof.
  intros H. unfold four_digits, two_digits. cbn [String.append parse_year].
  assert (R1 : 0 <= y / 100 < 100)
    by (split; [apply Z.div_pos; lia|apply Z.div_lt_upper_bound; lia]).
  pose proof (Z.mod_pos_bound y 100 ltac:(lia)) as R2.
  destruct (digit_char_digit (y / 100 / 10)) as [A1 [A2 _]];
    [split; [apply Z.div_pos; lia|apply Z.lt_succ_r, Z.div_lt_upper_bound; lia]|].
  destruct (digit_char_digit ((y / 100) mod 10)) as [B1 [B2 _]];
    [pose proof (Z.mod_pos_bound (y / 100) 10 ltac:(lia)); lia|].
  destruct (digit_char_digit (y mod 100 / 10)) as [C1 [C2 _]];
    [split; [apply Z.div_pos; lia|apply Z.lt_succ_r, Z.div_lt_upper_bound; lia]|].
  destruct (digit_char_digit ((y mod 100) mod 10)) as [D1 [D2 _]];
    [pose proof (Z.mod_pos_bound (y mod 100) 10 ltac:(lia)); lia|].
  rewrite A1, B1, C1, D1, A2, B2, C2, D2. cbn [andb]. f_equal. f_equal.
  clear. Z.to_euclidean_division_equations; lia.
Qed.

Lemma cutspace_digit d r :
  0 <= d <= 9 -> cutspace (String (digit_char d) r) = String (digit_char d) r.
Proof.
  intros H.
  assert (C : d = 0 \/ d = 1 \/ d = 2 \/ d = 3 \/ d = 4 \/ d = 5 \/ d = 6
              \/ d = 7 \/ d = 8 \/ d = 9) by lia.
  destruct C as [C|[C|[C|[C|[C|[C|[C|[C|[C|C]]]]]]]]]; subst d; reflexivity.
Qed.

Lemma skip_space_digits x rest :
  0 <= x < 100 -> skip (" " ++ two_digits x ++ rest)%string " " = Some (two_digits x ++ rest)%string.
Proof.
  intros H. unfold two_digits. cbn [String.append].
  assert (C : forall r, cutspace (String " " (String (digit_char (x / 10)) r))
                        = String (digit_char (x / 10)) r).
  { intros r. cbn [cutspace]. apply cutspace_digit.
    split; [apply Z.div_pos; lia|apply Z.lt_succ_r, Z.div_lt_upper_bound; lia]. }
  unfold skip. cbn [String.length skip_fuel Ascii.eqb Bool.eqb].
  change (cutspace " ") with EmptyString. cbv iota. rewrite C. reflexivity.
Qed.

Lemma Timestamp_chunks :
  layout_chunks TimestampLayout =
  [stdLongYear; literal "-"; stdZeroMonth; literal "-"; stdZeroDay; literal " ";
   stdHour; literal ":"; stdZeroMinute; literal ":"; stdZeroSecond].
Proof. reflexivity. Qed.

Lemma Date_chunks :
  layout_chunks DateLayout =
  [stdLongYear; literal "-"; stdZeroMonth; literal "-"; stdZeroDay].
Proof. reflexivity. Qed.

Lemma skip_dash rest : skip ("-" ++ rest)%string "-" = Some rest.
Proof. reflexivity. Qed.

Lemma skip_colon rest : skip (":" ++ rest)%string ":" = Some rest.
Proof. reflexivity. Qed.

Lemma leb_false a b : b < a -> (a <=? b) = false.
Proof. intros; apply Z.leb_gt; assumption. Qed.
Lemma ltb_false a b : b <= a -> (a <? b) = false.
Proof. intros; apply Z.ltb_ge; assumption. Qed.

Lemma time_Parse_Timestamp y m d h mi s :
  0 <= y < 10000 -> 1 <= m <= 12 -> 1 <= d <= daysIn m y ->
  0 <= h < 24 -> 0 <= mi < 60 -> 0 <= s < 60 ->
  time_Parse TimestampLayout
    (four_digits y ++ "-" ++ two_digits m ++ "-" ++ two_digits d ++ " "
     ++ two_digits h ++ ":" ++ two_digits mi ++ ":" ++ two_digits s ++ "")%string
  = Some (time_Date y m d h mi s 0).
Proof.
  intros Hy Hm Hd Hh Hmi Hs.
  assert (Hd' : d < 100).
  { unfold daysIn in Hd.
    destruct ((m =? 2) && isLeap y); [lia|]. destruct (m =? 2); [lia|].
    destruct ((m =? 4) || (m =? 6) || (m =? 9) || (m =? 11)); lia. }
  unfold time_Parse. rewrite Timestamp_chunks.
  cbn [parse_chunks].
  rewrite parse_year_four by exact Hy.
  rewrite skip_dash, getnum_two by lia.
  rewrite (leb_false m 0), (ltb_false 12 m) by lia. cbn [orb].
  rewrite skip_dash, getnum_two by lia.
  rewrite skip_space_digits by lia.
  rewrite getnum_two by lia.
  rewrite (ltb_false h 0), (leb_false 24 h) by lia. cbn [orb].
  rewrite skip_colon, getnum_two by lia.
  rewrite (ltb_false mi 0), (leb_false 60 mi) by lia. cbn [orb].
  rewrite skip_colon. unfold parse_second. rewrite getnum_two by lia.
  rewrite (ltb_false s 0), (leb_false 60 s) by lia. cbn [orb].
  cbn [f_day f_month f_year f_hour f_min f_sec f_nsec f_zone
       set_year set_month set_day set_hour set_min set_sec fields0].
  rewrite (ltb_false d 1), (ltb_false (daysIn m y) d) by lia. reflexivity.
Qed.

Lemma time_Parse_Date y m d :
  0 <= y < 10000 -> 1 <= m <= 12 -> 1 <= d <= daysIn m y ->
  time_Parse DateLayout (four_digits y ++ "-" ++ two_digits m ++ "-" ++ two_digits d ++ "")%string
  = Some (time_Date y m d 0 0 0 0).
Proof.
  intros Hy Hm Hd.
  assert (Hd' : d < 100).
  { unfold daysIn in Hd.
    destruct ((m =? 2) && isLeap y); [lia|]. destruct (m =? 2); [lia|].
    destruct ((m =? 4) || (m =? 6) || (m =? 9) || (m =? 11)); lia. }
  unfold time_Parse. rewrite Date_chunks.
  cbn [parse_chunks].
  rewrite parse_year_four by exact Hy.
  rewrite skip_dash, getnum_two by lia.
  rewrite (leb_false m 0), (ltb_false 12 m) by lia. cbn [orb].
  rewrite skip_dash, getnum_two by lia.
  cbn [f_day f_month f_year f_hour f_min f_sec f_nsec f_zone
       set_year set_month set_day set_hour set_min set_sec fields0].
  rewrite (ltb_false d 1), (ltb_false (daysIn m y) d) by lia. reflexivity.
Qed.

Lemma yoe_facts doe :
  0 <= doe < 146097 ->
  let yoe := (doe - doe / 1460 + doe / 36524 - doe / 146096) / 365 in
  let doy := doe - (365 * yoe + yoe / 4 - yoe / 100) in
  0 <= yoe <= 399 /\ 0 <= doy <= 365 /\
  (doy = 365 -> yoe mod 4 = 3 /\ (yoe mod 100 <> 99 \/ yoe = 399)).
Proof.
  intros H yoe doy. subst doy yoe.
  Z.to_euclidean_division_equations; lia.
Qed.

Lemma civil_round_trip z :
  let '(y, m, d) := civil_from_days z in
  days_from_civil y m d = z /\ 1 <= m <= 12 /\ 1 <= d <= daysIn m y.
Proof.
  unfold civil_from_days. cbv zeta.
  set (z' := z + 719468).
  set (era := z' / 146097).
  set (doe := z' - era * 146097).
  assert (Hdoe : 0 <= doe < 146097).
  { subst doe era. pose proof (Z.mod_pos_bound z' 146097 ltac:(lia)).
    rewrite Z.mod_eq in H by lia. lia. }
  pose proof (yoe_facts doe Hdoe) as F. cbv zeta in F.
  set (yoe := (doe - doe / 1460 + doe / 36524 - doe / 146096) / 365) in *.
  set (doy := doe - (365 * yoe + yoe / 4 - yoe / 100)) in *.
  destruct F as [Hy [Hd Hl]].
  set (mp := (5 * doy + 2) / 153).
  assert (Hmp : 0 <= mp <= 11).
  { subst mp. split; [apply Z.div_pos; lia|].
    apply Z.lt_succ_r. apply Z.div_lt_upper_bound; lia. }
  set (d := doy - (153 * mp + 2) / 5 + 1).
  assert (Hdm : (153 * mp + 2) / 5 <= doy < (153 * (mp + 1) + 2) / 5).
  { subst mp. clear - Hd. Z.to_euclidean_division_equations; lia. }
  assert (E : doe = 365 * yoe + yoe / 4 - yoe / 100 + doy) by (subst doy; lia).
  assert (Ez : z = era * 146097 + doe - 719468) by (subst doe z'; lia).
  clearbody yoe doy mp era. clear Hdoe.
  assert (Q : forall k, (yoe + era * 400 + k - k) / 400 = era
                       /\ yoe + era * 400 + k - k - era * 400 = yoe).
  { intros k. split; [|lia]. symmetry. apply Z.div_unique with (r := yoe); lia. }
  destruct (mp <? 10) eqn:M; [apply Z.ltb_lt in M|apply Z.ltb_ge in M].
  - replace (mp + 3 <=? 2) with false by (symmetry; apply Z.leb_gt; lia).
    split; [|split; [lia|]].
    + unfold days_from_civil. cbv zeta.
      replace (mp + 3 <=? 2) with false by (symmetry; apply Z.leb_gt; lia).
      replace (2 <? mp + 3) with true by (symmetry; apply Z.ltb_lt; lia).
      destruct (Q 0) as [Q1 Q2]. rewrite Z.sub_0_r in Q1, Q2. rewrite Q1, Q2.
      replace (mp + 3 + -3) with mp by lia. subst d. lia.
    + assert (C : mp = 0 \/ mp = 1 \/ mp = 2 \/ mp = 3 \/ mp = 4 \/ mp = 5 \/ mp = 6
                  \/ mp = 7 \/ mp = 8 \/ mp = 9) by lia.
      subst d.
      destruct C as [C|[C|[C|[C|[C|[C|[C|[C|[C|C]]]]]]]]]; subst mp;
        match goal with
        | |- _ <= _ <= daysIn ?m ?y =>
            let n := eval vm_compute in m in
            let v := eval vm_compute in (daysIn n 0) in
            change (daysIn m y) with v
        end;
        match type of Hdm with
        | ?a <= _ < ?b =>
            let a' := eval vm_compute in a in
            let b' := eval vm_compute in b in
            change a with a' in *; change b with b' in Hdm
        end; lia.
  - replace (mp + -9 <=? 2) with true by (symmetry; apply Z.leb_le; lia).
    split; [|split; [lia|]].
    + unfold days_from_civil. cbv zeta.
      replace (mp + -9 <=? 2) with true by (symmetry; apply Z.leb_le; lia).
      replace (2 <? mp + -9) with false by (symmetry; apply Z.ltb_ge; lia).
      destruct (Q 1) as [Q1 Q2]. rewrite Q1, Q2.
      replace (mp + -9 + 9) with mp by lia. subst d. lia.
    + assert (C : mp = 10 \/ mp = 11) by lia.
      subst d. destruct C as [C|C]; subst mp.
      * change (daysIn (10 + -9) (yoe + era * 400 + 1)) with 31.
        change ((153 * 10 + 2) / 5) with 306 in *.
        change ((153 * (10 + 1) + 2) / 5) with 337 in *. lia.
      * change ((153 * 11 + 2) / 5) with 337 in *.
        change ((153 * (11 + 1) + 2) / 5) with 367 in *.
        unfold daysIn. change (11 + -9 =? 2) with true. cbv iota. cbn [andb].
        destruct (isLeap (yoe + era * 400 + 1)) eqn:Lp; [lia|].
        destruct (Z.eq_dec doy 365) as [D|D]; [|lia].
        exfalso. destruct (Hl D) as [L1 L2].
        unfold isLeap in Lp. apply andb_false_iff in Lp.
        rewrite orb_false_iff, negb_false_iff, !Z.eqb_neq, Z.eqb_eq in Lp.
        clear - Lp L1 L2 Hy. Z.to_euclidean_division_equations; lia.
Qed.

Lemma year_in_era_low doe :
  0 <= doe < 146097 ->
  0 <= year_in_era doe /\ (146037 <= doe -> year_in_era doe = 400).
Proof.
  intros H. unfold year_in_era. cbv zeta.
  pose proof (yoe_facts doe H) as F. cbv zeta in F.
  set (yoe := (doe - doe / 1460 + doe / 36524 - doe / 146096) / 365) in *.
  destruct F as [Y _].
  set (doy := doe - (365 * yoe + yoe / 4 - yoe / 100)).
  set (mp := (5 * doy + 2) / 153).
  split.
  - destruct (_ <=? 2); lia.
  - intros H2.
    assert (E : yoe = 399) by (subst yoe; clear - H H2; Z.to_euclidean_division_equations; lia).
    assert (D : 306 <= doy <= 365)
      by (subst doy; rewrite E; change (399 / 4) with 99; change (399 / 100) with 3; lia).
    assert (M : 10 <= mp <= 11).
    { subst mp. split; [apply Z.div_le_lower_bound; lia|].
      apply Z.lt_succ_r, Z.div_lt_upper_bound; lia. }
    replace (mp <? 10) with false by (symmetry; apply Z.ltb_ge; lia).
    replace (mp + -9 <=? 2) with true by (symmetry; apply Z.leb_le; lia). lia.
Qed.

Lemma civil_year_range z :
  -719528 <= z <= 2932896 -> 0 <= fst (fst (civil_from_days z)) <= 9999.
Proof.
  intros Hz. split; [|apply civil_year_bound; lia].
  rewrite civil_year_split.
  set (z' := z + 719468).
  assert (Hera : -1 <= z' / 146097) by (subst z'; apply Z.div_le_lower_bound; lia).
  pose proof (Z.mod_pos_bound z' 146097 ltac:(lia)) as Hdoe.
  rewrite Z.mod_eq in Hdoe by lia.
  replace (z' - z' / 146097 * 146097) with (z' - 146097 * (z' / 146097)) by lia.
  set (doe := z' - 146097 * (z' / 146097)) in *.
  destruct (year_in_era_low doe Hdoe) as [B1 B2].
  destruct (Z.eq_dec (z' / 146097) (-1)) as [E|E]; [|lia].
  assert (146037 <= doe) by (subst doe z'; lia).
  specialize (B2 H). lia.
Qed.

Lemma day_fields z :
  0 <= fst (fst (civil_from_days z)) <= 9999 ->
  let '(y, m, d) := civil_from_days z in
  0 <= y < 10000 /\ 1 <= m <= 12 /\ 1 <= d <= daysIn m y /\ d < 100
  /\ days_from_civil y m d = z.
Proof.
  intros Hy. pose proof (civil_round_trip z) as R.
  destruct (civil_from_days z) as [[y m] d]. cbn [fst] in Hy.
  destruct R as [R1 [R2 R3]]. repeat split; try lia.
  unfold daysIn in R3.
  destruct ((m =? 2) && isLeap y); [lia|]. destruct (m =? 2); [lia|].
  destruct ((m =? 4) || (m =? 6) || (m =? 9) || (m =? 11)); lia.
Qed.

(* ------------------------------------------------------------------ *)
(** *** Timestamps and dates *)

Section Temporal.
Context {L : GoLib}.

Lemma first_parse_none layouts value :
  Forall (fun f => time_Parse f value = None) layouts ->
  first_parse layouts value = None.
Proof.
  induction 1 as [|f fs Hf _ IH]; simpl; [reflexivity|].
  rewrite Hf. exact IH.
Qed.

Lemma first_parse_first before : forall layouts fmt after value t,
  layouts = before ++ fmt :: after ->
  Forall (fun f => time_Parse f value = None) before ->
  time_Parse fmt value = Some t ->
  first_parse layouts value = Some t.
Proof.
  induction before as [|f before IH]; intros layouts fmt after value t -> Hb Hp; simpl.
  - rewrite Hp. reflexivity.
  - inversion Hb as [|? ? Hf Hrest]; subst. rewrite Hf.
    eapply IH; eauto.
Qed.

Lemma timestampT_Convert_string value :
  timestampT_Convert (VString value) =
  match first_parse (TimestampLayout :: TimestampLayouts) value with
  | Some t => Ok (VTime (Time_UTC t))
  | None => Err ErrConvertingToTime
  end.
Proof.
  cbn [timestampT_Convert first_parse].
  destruct (time_Parse TimestampLayout value); reflexivity.
Qed.

(** C5. On a string, [Timestamp.Convert] tries the primary layout and then
    the fallback layouts in their order (date only, RFC 3339, compact date
    and time, compact date) and returns the time read by the first layout
    that parses, as the same instant in the location UTC, whatever zone the
    string names; it fails with [ErrConvertingToTime] when none does.  The
    string 2020-01-02 gives midnight UTC of that day, the RFC 3339 string of
    noon one hour east of UTC gives 11 o'clock in UTC, and not-a-date
    fails. *)
Theorem timestampT_Convert_layout_chain (value : string) :
  TimestampLayout :: TimestampLayouts =
    ["2006-01-02 15:04:05"; "2006-01-02"; "2006-01-02T15:04:05Z07:00";
     "20060102150405"; "20060102"]
  /\ (forall before fmt after t,
        TimestampLayout :: TimestampLayouts = before ++ fmt :: after ->
        Forall (fun f => time_Parse f value = None) before ->
        time_Parse fmt value = Some t ->
        Convert Timestamp (VString value) = ret (VTime (mkTime (unixSec t) (nsec t) UTC)))
  /\ (Forall (fun f => time_Parse f value = None) (TimestampLayout :: TimestampLayouts) ->
        Convert Timestamp (VString value) = throw ErrConvertingToTime)
  /\ (forall c, Convert Timestamp (VString value) = ret c ->
        exists t, c = VTime t /\ loc t = UTC)
  /\ Convert Timestamp (VString "2020-01-02") = ret (VTime (mkTime 1577923200 0 UTC))
  /\ time_Date 2020 1 2 0 0 0 0 = mkTime 1577923200 0 UTC
  /\ Time_Format (mkTime 1577923200 0 UTC) TimestampLayout = "2020-01-02 00:00:00"
  /\ time_Parse time_RFC3339 "2020-01-02T12:00:00+01:00"
       = Some (mkTime 1577962800 0 (FixedZone 3600))
  /\ Convert Timestamp (VString "2020-01-02T12:00:00+01:00")
       = ret (VTime (mkTime 1577962800 0 UTC))
  /\ Time_Format (mkTime 1577962800 0 UTC) TimestampLayout = "2020-01-02 11:00:00"
  /\ Convert Timestamp (VString "not-a-date") = throw ErrConvertingToTime.
Proof.
  split; [reflexivity|]. split; [|split; [|split]].
  - intros before fmt after t E Hb Hp.
    cbn [Convert]. rewrite timestampT_Convert_string.
    rewrite (first_parse_first before _ fmt after value t E Hb Hp). reflexivity.
  - intros Hall. cbn [Convert]. rewrite timestampT_Convert_string.
    rewrite (first_parse_none _ value Hall). reflexivity.
  - intros c. cbn [Convert]. rewrite timestampT_Convert_string.
    destruct (first_parse (TimestampLayout :: TimestampLayouts) value) as [t|];
      [|discriminate].
    intros H. injection H as <-. exists (Time_UTC t). split; reflexivity.
  - repeat split; vm_compute; reflexivity.
Qed.

Lemma truncateDate_start x :
  unixSec (truncateDate x) mod 86400 = 0 /\ nsec (truncateDate x) = 0.
Proof.
  unfold truncateDate, Time_Truncate, time_Hour, time_Second, unixToInternal.
  change (24 * (3600 * 1000000000) <=? 0) with false. cbv iota.
  cbn [unixSec nsec].
  set (T := unixSec x * 1000000000 + nsec x).
  set (d := 24 * (3600 * 1000000000)).
  set (S := 62135596800 * 1000000000).
  pose proof (Z.div_mod (T + S) d ltac:(discriminate)) as E.
  assert (E' : T - (T + S) mod d = 86400 * ((T + S) / d - 719162) * 1000000000)
    by (subst d S; lia).
  rewrite E'. rewrite Z.div_mul, Z.mod_mul by discriminate.
  split; [|reflexivity].
  rewrite Z.mul_comm. apply Z.mod_mul. discriminate.
Qed.

Lemma dateT_Convert_start v c :
  dateT_Convert v = Ok c -> exists t, c = VTime t /\ start_of_day t.
Proof.
  unfold dateT_Convert, start_of_day.
  assert (G : forall x, exists t, VTime (Time_UTC (truncateDate x)) = VTime t /\
                unixSec t mod 86400 = 0 /\ nsec t = 0 /\ loc t = UTC).
  { intros x. eexists; split; [reflexivity|].
    destruct (truncateDate_start x) as [A B]. cbn [Time_UTC unixSec nsec loc]. auto. }
  destruct v; intros H;
    repeat match type of H with
      | context [match ?e with _ => _ end] => destruct e eqn:?; try discriminate H
      end;
    inversion H; subst; apply G.
Qed.

(** The text of a day of the years 0 to 9999 in the layout 2006-01-02: the
    four digits of the year, the two of the month and the two of the day of
    its civil date, with dashes between them. *)
Lemma Time_Format_Date t :
  loc t = UTC ->
  -62167219200 <= unixSec t <= 253402300799 ->
  let '(y, m, d) := civil_from_days (unixSec t / 86400) in
  Time_Format t DateLayout
    = (four_digits y ++ "-" ++ two_digits m ++ "-" ++ two_digits d)%string
  /\ 0 <= y <= 9999 /\ 1 <= m <= 12 /\ 1 <= d <= daysIn m y
  /\ days_from_civil y m d = unixSec t / 86400.
Proof.
  intros Hl Hr.
  assert (Hz : -719528 <= unixSec t / 86400 <= 2932896).
  { split; [apply Z.div_le_lower_bound; lia|].
    apply Z.lt_succ_r, Z.div_lt_upper_bound; lia. }
  pose proof (day_fields _ (civil_year_range _ Hz)) as F.
  unfold Time_Format, zone_offset. rewrite Hl, Date_chunks.
  cbn [format_chunks]. rewrite Z.add_0_r.
  destruct (civil_from_days (unixSec t / 86400)) as [[y m] d].
  destruct F as [Fy [Fm [Fd [Fd' Fz]]]].
  rewrite (appendInt_four y), !appendInt_two by lia.
  split; [|repeat split; lia].
  unfold two_digits. cbn [String.append]. reflexivity.
Qed.

(** C8. For every input that [Date.Convert] accepts, the converted value
    is the start of a day in UTC, and [Date.SQL] returns a value with the
    wire code of Timestamp, not the one of Date, whose bytes are the
    converted value in the layout 2006-01-02: for a day of the years 0 to
    9999, the ten characters YYYY-MM-DD of the civil date of that day. *)
Theorem dateT_SQL_has_Timestamp_code v c :
  Convert Date v = ret c ->
  exists t,
    c = VTime t /\ start_of_day t
    /\ dateT_SQL v = Ok (MakeTrusted sqltypes_Timestamp (bytes_of (Time_Format t DateLayout)))
    /\ sqltypes_Timestamp <> sqltypes_Date
    /\ Type_Type Date = sqltypes_Date
    /\ DateLayout = "2006-01-02"
    /\ (-62167219200 <= unixSec t <= 253402300799 ->
        let '(y, m, d) := civil_from_days (unixSec t / 86400) in
        dateT_SQL v =
          Ok (MakeTrusted sqltypes_Timestamp
                (bytes_of (four_digits y ++ "-" ++ two_digits m ++ "-" ++ two_digits d)))
        /\ 0 <= y <= 9999 /\ 1 <= m <= 12 /\ 1 <= d <= daysIn m y
        /\ days_from_civil y m d * 86400 = unixSec t).
Proof.
  cbn [Convert]. unfold pure, ret. intros H. injection H as H.
  destruct (dateT_Convert_start v c H) as [t [-> Hs]].
  assert (E : dateT_SQL v =
              Ok (MakeTrusted sqltypes_Timestamp (bytes_of (Time_Format t DateLayout)))).
  { unfold dateT_SQL. rewrite H. destruct v; try reflexivity. discriminate H. }
  exists t. split; [reflexivity|]. split; [exact Hs|]. split; [exact E|].
  split; [discriminate|]. split; [reflexivity|]. split; [reflexivity|].
  intros Hr. destruct Hs as [Hm [_ Hl]].
  pose proof (Time_Format_Date t Hl Hr) as F.
  destruct (civil_from_days (unixSec t / 86400)) as [[y m] d].
  destruct F as [F1 [F2 [F3 [F4 F5]]]].
  rewrite E, F1, F5. repeat split; try lia.
  pose proof (Z.div_mod (unixSec t) 86400 ltac:(discriminate)). lia.
Qed.

End Temporal.

(** The chain at 2020-01-02: the primary layout fails, the date layout reads
    midnight of that day.  The chain at the RFC 3339 string of noon one hour
    east of UTC: the first two layouts fail, the third reads the instant in
    its zone, and the result is that instant in UTC. *)
Lemma timestampT_Convert_layout_chain_witness :
  time_Parse TimestampLayout "2020-01-02" = None
  /\ Convert Timestamp (VString "2020-01-02") = ret (VTime (mkTime 1577923200 0 UTC))
  /\ time_Parse TimestampLayout "2020-01-02T12:00:00+01:00" = None
  /\ time_Parse "2006-01-02" "2020-01-02T12:00:00+01:00" = None
  /\ Convert Timestamp (VString "2020-01-02T12:00:00+01:00")
       = ret (VTime (mkTime 1577962800 0 UTC)).
Proof.
  split; [reflexivity|]. split; [|split; [reflexivity|split; [reflexivity|]]].
  - destruct (timestampT_Convert_layout_chain (L := DecimalLib) "2020-01-02")
      as [_ [H _]].
    apply (H [TimestampLayout] "2006-01-02"
             ["2006-01-02T15:04:05Z07:00"; "20060102150405"; "20060102"]
             (mkTime 1577923200 0 UTC)).
    + reflexivity.
    + repeat constructor.
    + reflexivity.
  - destruct (timestampT_Convert_layout_chain (L := DecimalLib)
                "2020-01-02T12:00:00+01:00") as [_ [H _]].
    apply (H [TimestampLayout; "2006-01-02"] "2006-01-02T15:04:05Z07:00"
             ["20060102150405"; "20060102"]
             (mkTime 1577962800 0 (FixedZone 3600))).
    + reflexivity.
    + repeat constructor.
    + reflexivity.
Defined.

(** [Date.SQL] on the noon of 2 January 2020, one hour east of UTC, writes
    the ten bytes 2020-01-02 under the code of Timestamp. *)
Lemma dateT_SQL_has_Timestamp_code_witness :
  Convert Date (VTime (mkTime 1577966400 0 (FixedZone 3600)))
    = ret (VTime (mkTime 1577923200 0 UTC))
  /\ civil_from_days (1577923200 / 86400) = (2020, 1, 2)
  /\ dateT_SQL (VTime (mkTime 1577966400 0 (FixedZone 3600))) =
       Ok (MakeTrusted sqltypes_Timestamp (bytes_of "2020-01-02"))
  /\ bytes_of "2020-01-02" =
       [Byte.x32; Byte.x30; Byte.x32; Byte.x30; Byte.x2d; Byte.x30; Byte.x31;
        Byte.x2d; Byte.x30; Byte.x32].
Proof.
  split; [reflexivity|]. split; [reflexivity|]. split; [|reflexivity].
  destruct (dateT_SQL_has_Timestamp_code (L := DecimalLib)
              (VTime (mkTime 1577966400 0 (FixedZone 3600)))
              (VTime (mkTime 1577923200 0 UTC)) eq_refl)
    as [t [Ht [_ [_ [_ [_ [_ H]]]]]]].
  injection Ht as <-.
  assert (R : -62167219200 <= 1577923200 <= 253402300799) by lia.
  exact (proj1 (H R)).
Defined.

(* ------------------------------------------------------------------ *)
(** *** Tuples *)

Section TupleConvert.
Context {L : GoLib}.

Lemma Converted_length ts xs cs :
  Converted ts xs cs ->
  List.length xs = List.length ts /\ List.length cs = List.length ts.
Proof. induction 1 as [|t ts x xs c cs _ _ [IH1 IH2]]; simpl; auto. Qed.

Lemma convert_elems_Converted ts : forall xs cs,
  List.length xs = List.length ts ->
  (result (convert_elems (map Convert ts) xs) = Ok cs <-> Converted ts xs cs).
Proof.
  induction ts as [|t ts IH]; intros xs cs Hlen.
  - destruct xs; [|discriminate]. simpl. split.
    + intros H. injection H as <-. constructor.
    + intros H. inversion H. reflexivity.
  - destruct xs as [|x xs]; [discriminate|].
    cbn [map convert_elems]. rewrite result_bind. split.
    + intros H. destruct (result (Convert t x)) as [c|e|p] eqn:Hc; try discriminate.
      rewrite result_bind in H.
      destruct (result (convert_elems (map Convert ts) xs)) as [rs|e|p] eqn:Hr;
        try discriminate.
      injection H as <-. constructor; [exact Hc|].
      apply IH; [simpl in Hlen; lia|exact Hr].
    + intros H. inversion H as [|? ? ? ? c rs Hc Hrest]; subst.
      rewrite Hc, result_bind.
      apply IH in Hrest; [|simpl in Hlen; lia]. rewrite Hrest. reflexivity.
Qed.

Lemma convert_elems_first_error ts1 : forall xs1 t ts2 x xs2 e,
  Forall2 (fun t x => succeeds (Convert t x) = true) ts1 xs1 ->
  result (Convert t x) = Err e ->
  result (convert_elems (map Convert (ts1 ++ t :: ts2)) (xs1 ++ x :: xs2)) = Err e.
Proof.
  induction ts1 as [|t1 ts1 IH]; intros xs1 t ts2 x xs2 e Hall He.
  - inversion Hall; subst. cbn [app map convert_elems].
    rewrite result_bind, He. reflexivity.
  - inversion Hall as [|? x1 ? xs1' H1 Hrest]; subst.
    cbn [app map convert_elems]. rewrite result_bind.
    apply succeeds_result in H1 as [c1 H1]. rewrite H1, result_bind.
    rewrite (IH xs1' t ts2 x xs2 e Hrest He). reflexivity.
Qed.

Lemma tupleT_Convert_result ts v c :
  result (Convert (Tuple ts) v) = Ok c <->
  exists vals res, as_slice v = Some vals /\ c = VSlice res /\ Converted ts vals res.
Proof.
  cbn [Convert Tuple]. unfold tupleT_Convert. split.
  - destruct (as_slice v) as [vs|]; [|discriminate]. rewrite length_map.
    destruct (Nat.eqb_spec (List.length vs) (List.length ts)) as [E|E];
      cbn [negb]; [|discriminate].
    rewrite result_bind.
    destruct (result (convert_elems (map Convert ts) vs)) as [rs|e|p] eqn:Hr;
      try discriminate.
    intros H. injection H as <-. exists vs, rs. repeat split.
    apply convert_elems_Converted; assumption.
  - intros [vals [res [-> [-> H]]]].
    destruct (Converted_length _ _ _ H) as [E _].
    rewrite length_map, E, Nat.eqb_refl. cbn [negb].
    rewrite result_bind.
    apply convert_elems_Converted in H; [|exact E]. rewrite H. reflexivity.
Qed.

(** C9. [Tuple(T1..Tn).Convert] succeeds exactly on a sequence of n
    elements that each convert through the type of their position, and the
    result holds the converted elements; a sequence of another length
    fails with [ErrInvalidColumnNumber], an input that is no sequence with
    [ErrNotTuple], and the error of the first element that fails to convert
    is the one returned.  The sequence is a [[]interface{}], nil or not
    ([as_slice]); the result is never nil. *)
Theorem tupleT_Convert_arity ts v :
  (forall c, result (Convert (Tuple ts) v) = Ok c <->
             exists vals res,
               as_slice v = Some vals /\ c = VSlice res /\ Converted ts vals res)
  /\ (forall vals, as_slice v = Some vals -> List.length vals <> List.length ts ->
        Convert (Tuple ts) v =
        throw (ErrInvalidColumnNumber (List.length ts) (List.length vals)))
  /\ (as_slice v = None -> Convert (Tuple ts) v = throw ErrNotTuple)
  /\ (forall ts1 t ts2 xs1 x xs2 e,
        ts = ts1 ++ t :: ts2 -> as_slice v = Some (xs1 ++ x :: xs2) ->
        List.length ts2 = List.length xs2 ->
        Forall2 (fun t x => succeeds (Convert t x) = true) ts1 xs1 ->
        result (Convert t x) = Err e ->
        result (Convert (Tuple ts) v) = Err e)
  /\ Convert (Tuple [Int64; Text]) (VSlice [VInt KInt 1; VString "a"]) =
       ret (VSlice [VInt KInt64 1; VString "a"])
  /\ Convert (Tuple [Int64; Text]) (VSlice [VInt KInt 1]) =
       throw (ErrInvalidColumnNumber 2 1).
Proof.
  split; [intros c; apply tupleT_Convert_result|].
  split; [|split; [|split; [|split; reflexivity]]].
  - intros vals Hv Hlen. cbn [Convert Tuple]. unfold tupleT_Convert.
    rewrite Hv, length_map.
    destruct (Nat.eqb_spec (List.length vals) (List.length ts)); [contradiction|reflexivity].
  - intros Hv. cbn [Convert Tuple]. unfold tupleT_Convert.
    rewrite Hv. reflexivity.
  - intros ts1 t ts2 xs1 x xs2 e -> Hv Hlen Hall He.
    cbn [Convert Tuple]. unfold tupleT_Convert.
    rewrite Hv, length_map, !length_app. cbn [List.length].
    rewrite (Forall2_length Hall), Hlen, Nat.eqb_refl. cbn [negb].
    rewrite result_bind, (convert_elems_first_error ts1 xs1 t ts2 x xs2 e Hall He).
    reflexivity.
Qed.

End TupleConvert.

(** [Tuple(Int64, Boolean)] on a pair whose second element is a text: the
    error of [Boolean.Convert] is returned. *)
Lemma tupleT_Convert_arity_witness :
  result (Convert (Tuple [Int64; Boolean]) (VSlice [VInt KInt 1; VString "a"])) =
    Err (fmt_Errorf "unable to cast string to bool")
  /\ Convert (Tuple [Int64; Text]) (VSlice [VInt KInt 1]) =
       throw (ErrInvalidColumnNumber 2 1)
  /\ Convert (Tuple [Int64; Text]) (VString "a") = throw ErrNotTuple.
Proof.
  destruct (tupleT_Convert_arity (L := DecimalLib) [Int64; Boolean]
              (VSlice [VInt KInt 1; VString "a"])) as [_ [_ [_ [H _]]]].
  destruct (tupleT_Convert_arity (L := DecimalLib) [Int64; Text]
              (VSlice [VInt KInt 1])) as [_ [H1 _]].
  destruct (tupleT_Convert_arity (L := DecimalLib) [Int64; Text]
              (VString "a")) as [_ [_ [H2 _]]].
  split; [|split].
  - apply (H [Int64] Boolean [] [VInt KInt 1] (VString "a") []); try reflexivity.
    repeat constructor.
  - apply (H1 [VInt KInt 1] eq_refl). discriminate.
  - apply H2. reflexivity.
Defined.

(* ------------------------------------------------------------------ *)
(** *** Idempotence of conversion *)

Lemma Type_induction (P : Type_ -> Prop) :
  P Null -> (forall q, P (numberT q)) -> P Timestamp -> P Date -> P Text ->
  P Boolean -> P JSON -> P Blob ->
  (forall ts, Forall P ts -> P (tupleT ts)) ->
  (forall u, P u -> P (arrayT u)) ->
  forall t, P t.
Proof.
  intros HNull Hnum Hts Hdate Htext Hbool Hjson Hblob Htuple Harray.
  fix IH 1. intros [ |q| | | | | | |ts|u].
  - exact HNull.
  - apply Hnum.
  - exact Hts.
  - exact Hdate.
  - exact Htext.
  - exact Hbool.
  - exact Hjson.
  - exact Hblob.
  - apply Htuple. induction ts as [|t ts IHts]; constructor; [apply IH|exact IHts].
  - apply Harray. apply IH.
Qed.

Lemma bytes_Compare_refl b : bytes_Compare b b = 0.
Proof.
  induction b as [|x b IH]; simpl; [reflexivity|].
  rewrite N.compare_refl. exact IH.
Qed.

Lemma Time_Before_irrefl t : Time_Before t t = false.
Proof. unfold Time_Before. rewrite !Z.ltb_irrefl, andb_false_r. reflexivity. Qed.

Lemma Time_After_irrefl t : Time_After t t = false.
Proof. unfold Time_After. rewrite !Z.ltb_irrefl, andb_false_r. reflexivity. Qed.

Ltac break_matches H :=
  repeat match type of H with
    | context [match ?e with _ => _ end] => destruct e eqn:?; try discriminate H
    end.

Section Idempotence.
Context {L : GoLib}.

(** [json.Marshal] accepts every byte slice (it encodes it as a string). *)
Hypothesis Marshal_bytes : forall b, exists out, json_Marshal (VBytes b) = Ok out.

Lemma cast_ToUintE_nonneg k v x :
  signed k = false -> cast_ToUintE k v = Ok x -> 0 <= x.
Proof.
  intros Hk H.
  assert (W : forall z, 0 <= wrap k z).
  { intros z. pose proof (wrap_in_range k z) as R. unfold in_range, min_int in R.
    rewrite Hk in R. apply andb_true_iff in R as [R _]. apply Z.leb_le, R. }
  assert (F : forall f, 0 <= int_of_float k f).
  { intros f. pose proof (int_of_float_in_range k f) as R. unfold in_range, min_int in R.
    rewrite Hk in R. apply andb_true_iff in R as [R _]. apply Z.leb_le, R. }
  unfold cast_ToUintE, unable in H.
  destruct v; break_matches H; inversion H; subst; auto; lia.
Qed.

Lemma Null_idempotent : idempotent_at Null.
Proof.
  intros v c H. cbn [Convert pure result fst] in H.
  destruct v; try discriminate H. inversion H; subst. split; reflexivity.
Qed.

Lemma numberT_idempotent q : idempotent_at (numberT q).
Proof.
  intros v c H. cbn [Convert Compare pure result fst succeeds] in *.
  unfold numberT_Convert in H.
  set (v' := match v with VTime ti => VInt KInt64 (Time_Unix ti) | _ => v end) in H.
  unfold succeeds; cbn [result pure fst].
  destruct q; try discriminate H.
  - (* Int32 *)
    destruct (cast_ToInt32E v') as [x| |]; inversion H; subst.
    split; [reflexivity|]. unfold numberT_Compare; cbn [IsUnsigned Type_eq orb].
    change (query_Type_eqb sqltypes_Int32 _) with false. cbn [orb].
    rewrite compareSigned_ints, Z.eqb_refl. reflexivity.
  - (* Uint32 *)
    destruct (cast_ToUint32E v') as [x| |] eqn:E; inversion H; subst.
    apply (cast_ToUintE_nonneg KUint32 v' x eq_refl) in E.
    assert (N : (x <? 0) = false) by (apply Z.ltb_ge; exact E).
    unfold numberT_Convert, cast_ToUint32E, numberT_Compare, compareUnsigned,
      cast_ToUint64E, cast_ToUintE.
    cbv beta iota zeta. rewrite N.
    split; [reflexivity|].
    change (IsUnsigned (numberT sqltypes_Uint32)) with true. cbv iota.
    rewrite Z.eqb_refl. reflexivity.
  - (* Int64 *)
    destruct (cast_ToInt64E v') as [x| |]; inversion H; subst.
    split; [reflexivity|]. unfold numberT_Compare.
    change (IsUnsigned (numberT sqltypes_Int64)) with false. cbv iota.
    rewrite compareSigned_ints, Z.eqb_refl. reflexivity.
  - (* Uint64 *)
    destruct (cast_ToUint64E v') as [x| |] eqn:E; inversion H; subst.
    apply (cast_ToUintE_nonneg KUint64 v' x eq_refl) in E.
    assert (N : (x <? 0) = false) by (apply Z.ltb_ge; exact E).
    unfold numberT_Convert, cast_ToUint32E, numberT_Compare, compareUnsigned,
      cast_ToUint64E, cast_ToUintE.
    cbv beta iota zeta. rewrite N.
    split; [reflexivity|].
    change (IsUnsigned (numberT sqltypes_Uint64)) with true. cbv iota.
    rewrite Z.eqb_refl. reflexivity.
  - (* Float32 *)
    destruct (cast_ToFloat32E v') as [x| |]; inversion H; subst.
    split; [reflexivity|]. unfold numberT_Compare.
    change (IsUnsigned (numberT sqltypes_Float32)) with false. cbv iota.
    unfold compareSigned, cast_ToInt64E, cast_ToIntE. rewrite Z.eqb_refl. reflexivity.
  - (* Float64 *)
    destruct (cast_ToFloat64E v') as [x| |]; inversion H; subst.
    split; [reflexivity|]. unfold numberT_Compare.
    change (IsUnsigned (numberT sqltypes_Float64)) with false. cbv iota.
    unfold compareSigned, cast_ToInt64E, cast_ToIntE. rewrite Z.eqb_refl. reflexivity.
Qed.

Lemma timestampT_Convert_shape v c :
  timestampT_Convert v = Ok c -> exists t, c = VTime t.
Proof.
  unfold timestampT_Convert. intros H.
  destruct v; break_matches H; inversion H; subst; eauto.
Qed.

Lemma Timestamp_idempotent : idempotent_at Timestamp.
Proof.
  intros v c H. cbn [Convert pure result fst] in H.
  apply timestampT_Convert_shape in H as [t ->].
  split; [reflexivity|].
  cbn [Compare pure result fst timestampT_Compare].
  rewrite Time_Before_irrefl, Time_After_irrefl. reflexivity.
Qed.

Lemma Date_idempotent : idempotent_at Date.
Proof.
  intros v c H. cbn [Convert pure result fst] in H.
  apply dateT_Convert_start in H as [t [-> _]].
  split; [reflexivity|].
  cbn [Compare pure result fst dateT_Compare].
  rewrite Time_Before_irrefl, Time_After_irrefl. reflexivity.
Qed.

Lemma Text_idempotent : idempotent_at Text.
Proof.
  intros v c H. cbn [Convert pure result fst] in H.
  unfold textT_Convert in H.
  destruct (cast_ToStringE v) as [s| |]; inversion H; subst.
  split; [reflexivity|].
  cbn [Compare pure result fst textT_Compare]. unfold strings_Compare.
  rewrite bytes_Compare_refl. reflexivity.
Qed.

Lemma Boolean_idempotent : idempotent_at Boolean.
Proof.
  intros v c H. cbn [Convert pure result fst] in H.
  assert (S : exists b, c = VBool b).
  { unfold booleanT_Convert in H.
    destruct v; break_matches H; inversion H; subst; eauto. }
  destruct S as [b ->]. split; [reflexivity|].
  cbn [Compare pure result fst]. unfold booleanT_Compare. cbn [iface_eq].
  rewrite Bool.eqb_reflx. reflexivity.
Qed.

Lemma marshal_shape v c : marshal v = Ok c -> exists b, c = VBytes b.
Proof.
  unfold marshal. destruct (json_Marshal v); intros H; inversion H; eauto.
Qed.

Lemma JSON_idempotent : idempotent_at JSON.
Proof.
  intros v c H. cbn [Convert pure result fst] in H.
  assert (S : exists b, c = VBytes b).
  { unfold jsonT_Convert in H.
    destruct v; try (apply marshal_shape in H; exact H).
    destruct (json_Unmarshal (bytes_of s)); apply marshal_shape in H; exact H. }
  destruct S as [b ->]. split.
  - unfold succeeds. cbn [Convert pure result fst jsonT_Convert]. unfold marshal.
    destruct (Marshal_bytes b) as [out ->]. reflexivity.
  - cbn [Compare pure result fst jsonT_Compare]. rewrite bytes_Compare_refl. reflexivity.
Qed.

Lemma Blob_idempotent : idempotent_at Blob.
Proof.
  intros v c H. cbn [Convert pure result fst] in H.
  assert (S : exists b, c = VBytes b).
  { unfold blobT_Convert in H. destruct v; inversion H; subst; eauto. }
  destruct S as [b ->]. split; [reflexivity|].
  cbn [Compare pure result fst blobT_Compare]. rewrite bytes_Compare_refl. reflexivity.
Qed.

Lemma mapM_result (f : Value -> M Value) xs : forall cs,
  result (mapM f xs) = Ok cs <-> Forall2 (fun x c => result (f x) = Ok c) xs cs.
Proof.
  induction xs as [|x xs IH]; intros cs; cbn [mapM].
  - split; intros H; [injection H as <-; constructor|inversion H; reflexivity].
  - rewrite result_bind. split.
    + intros H. destruct (result (f x)) as [c|e|p] eqn:Hc; try discriminate.
      rewrite result_bind in H.
      destruct (result (mapM f xs)) as [rs|e|p] eqn:Hr; try discriminate.
      injection H as <-. constructor; [exact Hc|]. apply IH. reflexivity.
    + intros H. inversion H as [|? c ? rs Hc Hrest]; subst.
      rewrite Hc, result_bind. apply IH in Hrest. rewrite Hrest. reflexivity.
Qed.

Lemma drain_result (f : Value -> M Value) g final items : forall cs,
  result (drain f g items final) = Ok cs ->
  Forall2 (fun x c => result (f x) = Ok c) items cs.
Proof.
  induction items as [|x items IH]; intros cs; cbn [drain];
    rewrite result_bind; cbn [tell result fst].
  - destruct (is_EOF final); intros H; [injection H as <-; constructor|discriminate].
  - rewrite result_bind. intros H.
    destruct (result (f x)) as [c|e|p] eqn:Hc; try discriminate.
    rewrite result_bind in H.
    destruct (result (drain f g items final)) as [rs|e|p] eqn:Hr; try discriminate.
    injection H as <-. constructor; [exact Hc|]. apply IH. reflexivity.
Qed.

Lemma as_slice_appended values : as_slice (appended values) = Some values.
Proof. destruct values; reflexivity. Qed.

(** On a slice, nil or not, [Array(U).Convert] converts the elements. *)
Lemma arrayT_Convert_elements u v vs :
  as_slice v = Some vs ->
  result (Convert (Array u) v) =
  match result (mapM (Convert u) vs) with
  | Ok rs => Ok (VSlice rs)
  | Err e => Err e
  | Fault p => Fault p
  end.
Proof.
  intros H. cbn [Convert Array]. unfold arrayT_Convert. rewrite H, result_bind.
  destruct (result (mapM (Convert u) vs)); reflexivity.
Qed.

Lemma arrayT_Convert_result u v c :
  result (Convert (Array u) v) = Ok c ->
  exists xs cs,
    as_slice c = Some cs /\ Forall2 (fun x c => result (Convert u x) = Ok c) xs cs.
Proof.
  destruct v; try discriminate.
  - rewrite (arrayT_Convert_elements u (VSlice vs) vs eq_refl).
    destruct (result (mapM (Convert u) vs)) as [rs|e|p] eqn:Hr; try discriminate.
    intros H. injection H as <-. exists vs, rs. split; [reflexivity|].
    apply mapM_result. exact Hr.
  - intros H. injection H as <-. exists [], []. split; [reflexivity|constructor].
  - rewrite arrayT_Convert_producer_result.
    destruct (result (drain (Convert u) g items final)) as [rs|e|p] eqn:Hr;
      try discriminate.
    destruct close_err; try discriminate.
    intros H. injection H as <-. exists items, rs. split; [apply as_slice_appended|].
    eapply drain_result. exact Hr.
Qed.

Lemma compare_elems_tuple ts : forall cs,
  Forall2 (fun t c => result (Compare t c c) = Ok 0) ts cs ->
  result (compare_elems (map Compare ts) cs cs) = Ok 0.
Proof.
  induction ts as [|t ts IH]; intros cs H; inversion H as [|? c ? cs' Hc Hrest]; subst.
  - reflexivity.
  - cbn [map compare_elems]. rewrite result_bind, Hc. cbn [Z.eqb negb].
    apply IH. exact Hrest.
Qed.

Lemma compare_elems_array (cmp : Value -> Value -> M Z) cs :
  Forall (fun c => result (cmp c c) = Ok 0) cs ->
  result (compare_elems (repeat cmp (List.length cs)) cs cs) = Ok 0.
Proof.
  induction 1 as [|c cs Hc _ IH]; [reflexivity|].
  cbn [List.length repeat compare_elems]. rewrite result_bind, Hc. cbn [Z.eqb negb].
  exact IH.
Qed.

Lemma tupleT_reconvert ts :
  Forall idempotent_at ts -> forall xs cs,
  Converted ts xs cs ->
  exists cs', Converted ts cs cs' /\
              Forall2 (fun t c => result (Compare t c c) = Ok 0) ts cs'.
Proof.
  intros Hts xs cs H. induction H as [|t ts x xs c cs Hc _ IH].
  - exists []. split; constructor.
  - inversion Hts as [|? ? Ht Hrest]; subst.
    destruct (IH Hrest) as [cs' [Hcs' Hcmp]].
    destruct (Ht x c Hc) as [Hs _].
    apply succeeds_result in Hs as [c' Hc'].
    exists (c' :: cs'). split; constructor; auto.
    exact (proj2 (Ht c c' Hc')).
Qed.

Lemma Tuple_idempotent ts : Forall idempotent_at ts -> idempotent_at (tupleT ts).
Proof.
  intros Hts v c H.
  apply (tupleT_Convert_result ts) in H as [vals [res [_ [-> H]]]].
  destruct (tupleT_reconvert ts Hts vals res H) as [cs' [Hcs' Hcmp]].
  assert (E : result (Convert (tupleT ts) (VSlice res)) = Ok (VSlice cs')).
  { apply (tupleT_Convert_result ts). exists res, cs'. auto. }
  split.
  - apply succeeds_result. eauto.
  - cbn [Compare]. unfold tupleT_Compare.
    rewrite result_bind, E, result_bind, E. cbn [as_slice].
    apply compare_elems_tuple. exact Hcmp.
Qed.

Lemma arrayT_reconvert u :
  idempotent_at u -> forall xs cs,
  Forall2 (fun x c => result (Convert u x) = Ok c) xs cs ->
  exists cs', Forall2 (fun x c => result (Convert u x) = Ok c) cs cs' /\
              Forall (fun c => result (Compare u c c) = Ok 0) cs'.
Proof.
  intros Hu xs cs H. induction H as [|x c xs cs Hc _ [cs' [Hcs' Hcmp]]].
  - exists []. split; constructor.
  - destruct (Hu x c Hc) as [Hs _].
    apply succeeds_result in Hs as [c' Hc'].
    exists (c' :: cs'). split; constructor; auto.
    exact (proj2 (Hu c c' Hc')).
Qed.

Lemma Array_idempotent u : idempotent_at u -> idempotent_at (arrayT u).
Proof.
  intros Hu v c H.
  apply (arrayT_Convert_result u) in H as [xs [cs [Hc H]]].
  destruct (arrayT_reconvert u Hu xs cs H) as [cs' [Hcs' Hcmp]].
  assert (E : result (Convert (arrayT u) c) = Ok (VSlice cs')).
  { pose proof (arrayT_Convert_elements u c cs Hc) as E0.
    apply mapM_result in Hcs'. rewrite Hcs' in E0. exact E0. }
  split.
  - apply succeeds_result. eauto.
  - cbn [Compare]. unfold arrayT_Compare.
    rewrite result_bind, E, result_bind, E. cbn [as_slice].
    rewrite Nat.ltb_irrefl.
    apply compare_elems_array. exact Hcmp.
Qed.

(** C6. Conversion is idempotent for every type, tuples and arrays
    included: when [t.Convert(v)] succeeds with [c], [t.Convert(c)] succeeds
    too and [t.Compare(c, c)] returns 0. *)
Theorem Convert_idempotent t v c :
  result (Convert t v) = Ok c ->
  succeeds (Convert t c) = true /\ result (Compare t c c) = Ok 0.
Proof.
  revert v c. change (idempotent_at t).
  induction t using Type_induction.
  - apply Null_idempotent.
  - apply numberT_idempotent.
  - apply Timestamp_idempotent.
  - apply Date_idempotent.
  - apply Text_idempotent.
  - apply Boolean_idempotent.
  - apply JSON_idempotent.
  - apply Blob_idempotent.
  - apply Tuple_idempotent. assumption.
  - apply Array_idempotent. assumption.
Qed.

End Idempotence.

Lemma Decimal_Marshal_bytes b : exists out, json_Marshal (VBytes b) = Ok out.
Proof. eexists. reflexivity. Qed.

(** A triple of a number read from a text, an array drained from a
    producer and a date: its conversion converts again and equals itself. *)
Lemma Convert_idempotent_witness :
  let t := Tuple [Int64; Array Text; Date] in
  let c := VSlice [VInt KInt64 12; VSlice [VString "3"; VString "true"];
                   VTime (mkTime 1577923200 0 UTC)] in
  succeeds (Convert t c) = true /\ result (Compare t c c) = Ok 0.
Proof.
  apply (Convert_idempotent (L := DecimalLib) Decimal_Marshal_bytes
           (Tuple [Int64; Array Text; Date])
           (VSlice [VString "12";
                    VGenerator 1 [VInt KInt 3; VBool true] io_EOF None;
                    VString "2020-01-02"])).
  reflexivity.
Defined.

(* ================================================================== *)
(** ** Properties of the rest of [type.go] *)

(* ------------------------------------------------------------------ *)
(** *** [Compare] orders the canonical values *)

(** The result of comparing two keys as [compareSigned] does. *)
Lemma sign_swap (x y : Z) :
  (if y =? x then 0 else if y <? x then -1 else 1) =
  - (if x =? y then 0 else if x <? y then -1 else 1).
Proof.
  destruct (Z.eqb_spec x y), (Z.eqb_spec y x), (Z.ltb_spec x y), (Z.ltb_spec y x); lia.
Qed.

Lemma sign_range (x y : Z) :
  -1 <= (if x =? y then 0 else if x <? y then -1 else 1) <= 1.
Proof. destruct (Z.eqb_spec x y), (Z.ltb_spec x y); lia. Qed.

Lemma sign_le (x y : Z) :
  (if x =? y then 0 else if x <? y then -1 else 1) <= 0 <-> x <= y.
Proof. destruct (Z.eqb_spec x y), (Z.ltb_spec x y); lia. Qed.

Lemma bytes_Compare_swap a : forall b, bytes_Compare b a = - bytes_Compare a b.
Proof.
  induction a as [|x a IH]; intros [|y b]; cbn [bytes_Compare]; try reflexivity.
  rewrite (N.compare_antisym (Byte.to_N x) (Byte.to_N y)).
  destruct (N.compare (Byte.to_N x) (Byte.to_N y)); cbn [CompOpp]; auto.
Qed.

Lemma bytes_Compare_range a : forall b, -1 <= bytes_Compare a b <= 1.
Proof.
  induction a as [|x a IH]; intros [|y b]; cbn [bytes_Compare]; try lia.
  destruct (N.compare (Byte.to_N x) (Byte.to_N y)); auto; lia.
Qed.

Lemma bytes_Compare_trans a : forall b c,
  bytes_Compare a b <= 0 -> bytes_Compare b c <= 0 -> bytes_Compare a c <= 0.
Proof.
  induction a as [|x a IH]; intros [|y b] [|z c]; cbn [bytes_Compare]; try lia.
  destruct (N.compare_spec (Byte.to_N x) (Byte.to_N y)) as [E1|E1|E1];
    destruct (N.compare_spec (Byte.to_N y) (Byte.to_N z)) as [E2|E2|E2];
    destruct (N.compare_spec (Byte.to_N x) (Byte.to_N z)) as [E3|E3|E3];
    try lia; try apply IH.
Qed.

Lemma bytes_Compare_eq a : forall b, bytes_Compare a b = 0 <-> a = b.
Proof.
  induction a as [|x a IH]; intros [|y b]; cbn [bytes_Compare];
    try (split; [discriminate|discriminate]); [tauto|].
  destruct (N.compare_spec (Byte.to_N x) (Byte.to_N y)) as [E|E|E].
  - rewrite IH. apply (f_equal Byte.of_N) in E. rewrite !Byte.of_to_N in E.
    injection E as ->. split; [intros ->; reflexivity|intros H; injection H; auto].
  - split; [discriminate|]. intros H; injection H as -> _. lia.
  - split; [discriminate|]. intros H; injection H as -> _. lia.
Qed.

Section Ordering.
Context {L : GoLib}.

(** [json.Marshal] accepts every byte slice (it encodes it as a string). *)
Hypothesis Marshal_bytes : forall b, exists out, json_Marshal (VBytes b) = Ok out.

Lemma all_idempotent t : idempotent_at t.
Proof.
  induction t using Type_induction.
  - apply Null_idempotent.
  - apply numberT_idempotent.
  - apply Timestamp_idempotent.
  - apply Date_idempotent.
  - apply Text_idempotent.
  - apply Boolean_idempotent.
  - apply JSON_idempotent. exact Marshal_bytes.
  - apply Blob_idempotent.
  - apply Tuple_idempotent. assumption.
  - apply Array_idempotent. assumption.
Qed.

Lemma compares_fun t a b x y : compares t a b x -> compares t a b y -> x = y.
Proof. unfold compares. intros H1 H2. rewrite H1 in H2. injection H2; auto. Qed.

(** A type whose [Compare] is a comparison of keys is ordered. *)
Lemma ordered_by_key t (K : Type) (cmp : K -> K -> Z) (key : Value -> K -> Prop) :
  (forall c, canonical t c -> exists k, key c k) ->
  (forall a b ka kb, key a ka -> key b kb -> compares t a b (cmp ka kb)) ->
  (forall x y, cmp y x = - cmp x y /\ -1 <= cmp x y <= 1) ->
  (forall x y z, cmp x y <= 0 -> cmp y z <= 0 -> cmp x z <= 0) ->
  ordered_at t.
Proof.
  intros Hkey Hcmp Hswap Htrans. split.
  - intros a b Ha Hb.
    destruct (Hkey a Ha) as [ka Hka]. destruct (Hkey b Hb) as [kb Hkb].
    exists (cmp ka kb). destruct (Hswap ka kb) as [E R].
    repeat split; auto; try lia. rewrite <- E. auto.
  - intros a b c x y z Ha Hb Hc Hx Hy Hz Lx Ly.
    destruct (Hkey a Ha) as [ka Hka]. destruct (Hkey b Hb) as [kb Hkb].
    destruct (Hkey c Hc) as [kc Hkc].
    rewrite (compares_fun _ _ _ _ _ Hx (Hcmp a b ka kb Hka Hkb)) in Lx.
    rewrite (compares_fun _ _ _ _ _ Hy (Hcmp b c kb kc Hkb Hkc)) in Ly.
    rewrite (compares_fun _ _ _ _ _ Hz (Hcmp a c ka kc Hka Hkc)).
    eauto.
Qed.

Lemma Null_ordered : ordered_at Null.
Proof.
  apply (ordered_by_key Null unit (fun _ _ => 0) (fun _ _ => True)).
  - intros; exists tt; auto.
  - intros; reflexivity.
  - intros; lia.
  - intros; lia.
Qed.

Lemma number_has_key q c : canonical (numberT q) c -> exists k, number_key q c k.
Proof.
  intros [v H]. cbn [Convert pure result fst] in H. unfold number_key.
  unfold numberT_Convert in H.
  set (v' := match v with VTime ti => VInt KInt64 (Time_Unix ti) | _ => v end) in H.
  destruct q; try discriminate H.
  - destruct (cast_ToInt32E v'); inversion H; subst. eexists; reflexivity.
  - destruct (cast_ToUint32E v') as [x| |] eqn:E; inversion H; subst.
    apply (cast_ToUintE_nonneg KUint32 v' x eq_refl) in E.
    change (IsUnsigned (numberT sqltypes_Uint32)) with true. cbv iota.
    unfold cast_ToUint64E, cast_ToUintE.
    replace (x <? 0) with false by (symmetry; apply Z.ltb_ge; exact E).
    eexists; reflexivity.
  - destruct (cast_ToInt64E v'); inversion H; subst. eexists; reflexivity.
  - destruct (cast_ToUint64E v') as [x| |] eqn:E; inversion H; subst.
    apply (cast_ToUintE_nonneg KUint64 v' x eq_refl) in E.
    change (IsUnsigned (numberT sqltypes_Uint64)) with true. cbv iota.
    unfold cast_ToUint64E, cast_ToUintE.
    replace (x <? 0) with false by (symmetry; apply Z.ltb_ge; exact E).
    eexists; reflexivity.
  - destruct (cast_ToFloat32E v'); inversion H; subst. eexists; reflexivity.
  - destruct (cast_ToFloat64E v'); inversion H; subst. eexists; reflexivity.
Qed.

Lemma number_compares q a b ka kb :
  number_key q a ka -> number_key q b kb ->
  compares (numberT q) a b (if ka =? kb then 0 else if ka <? kb then -1 else 1).
Proof.
  unfold number_key, compares. cbn [Compare pure result fst]. unfold numberT_Compare.
  destruct (IsUnsigned (numberT q)); intros Ha Hb;
    unfold compareUnsigned, compareSigned; rewrite Ha, Hb;
    destruct (ka =? kb); [reflexivity| |reflexivity|];
    destruct (ka <? kb); reflexivity.
Qed.

Lemma numberT_ordered q : ordered_at (numberT q).
Proof.
  apply (ordered_by_key (numberT q) Z
           (fun x y => if x =? y then 0 else if x <? y then -1 else 1) (number_key q)).
  - apply number_has_key.
  - apply number_compares.
  - intros x y. split; [apply sign_swap|apply sign_range].
  - intros x y z. rewrite !sign_le. lia.
Qed.

Lemma time_cmp_swap a b : time_cmp b a = - time_cmp a b /\ -1 <= time_cmp a b <= 1.
Proof.
  unfold time_cmp, Time_Before, Time_After.
  destruct (Z.ltb_spec (unixSec a) (unixSec b)), (Z.ltb_spec (unixSec b) (unixSec a)),
    (Z.eqb_spec (unixSec a) (unixSec b)), (Z.eqb_spec (unixSec b) (unixSec a)),
    (Z.ltb_spec (nsec a) (nsec b)), (Z.ltb_spec (nsec b) (nsec a));
    cbn [orb andb]; lia.
Qed.

Lemma time_cmp_le a b :
  time_cmp a b <= 0 <->
  unixSec a < unixSec b \/ (unixSec a = unixSec b /\ nsec a <= nsec b).
Proof.
  unfold time_cmp, Time_Before, Time_After.
  destruct (Z.ltb_spec (unixSec a) (unixSec b)), (Z.ltb_spec (unixSec b) (unixSec a)),
    (Z.eqb_spec (unixSec a) (unixSec b)),
    (Z.ltb_spec (nsec a) (nsec b)), (Z.ltb_spec (nsec b) (nsec a));
    cbn [orb andb]; lia.
Qed.

Lemma time_cmp_trans a b c : time_cmp a b <= 0 -> time_cmp b c <= 0 -> time_cmp a c <= 0.
Proof. rewrite !time_cmp_le. lia. Qed.

Lemma Timestamp_ordered : ordered_at Timestamp.
Proof.
  apply (ordered_by_key Timestamp Time time_cmp (fun c t => c = VTime t)).
  - intros c [v H]. cbn [Convert pure result fst] in H.
    apply timestampT_Convert_shape in H. exact H.
  - intros a b ka kb -> ->. unfold compares, time_cmp.
    cbn [Compare pure result fst timestampT_Compare].
    destruct (Time_Before ka kb); [reflexivity|]. destruct (Time_After ka kb); reflexivity.
  - intros x y. apply time_cmp_swap.
  - apply time_cmp_trans.
Qed.

Lemma Date_ordered : ordered_at Date.
Proof.
  apply (ordered_by_key Date Time (fun a b => time_cmp (truncateDate a) (truncateDate b))
           (fun c t => c = VTime t)).
  - intros c [v H]. cbn [Convert pure result fst] in H.
    apply dateT_Convert_start in H as [t [-> _]]. eauto.
  - intros a b ka kb -> ->. unfold compares, time_cmp.
    cbn [Compare pure result fst dateT_Compare]. cbv zeta.
    destruct (Time_Before _ _); [reflexivity|]. destruct (Time_After _ _); reflexivity.
  - intros x y. apply time_cmp_swap.
  - intros x y z. apply time_cmp_trans.
Qed.

Lemma bytes_ordered t (cmp : Value -> Value -> Result Z) :
  (forall a b, Compare t a b = pure (cmp a b)) ->
  (forall x y, cmp (VBytes x) (VBytes y) = Ok (bytes_Compare x y)) ->
  (forall c, canonical t c -> exists b, c = VBytes b) ->
  ordered_at t.
Proof.
  intros HC Hcmp Hshape.
  apply (ordered_by_key t (list byte) bytes_Compare (fun c b => c = VBytes b)).
  - exact Hshape.
  - intros a b ka kb -> ->. unfold compares. rewrite HC, result_pure. apply Hcmp.
  - intros x y. split; [apply bytes_Compare_swap|apply bytes_Compare_range].
  - intros x y z. apply bytes_Compare_trans.
Qed.

Lemma blobT_Convert_shape v c : blobT_Convert v = Ok c -> exists b, c = VBytes b.
Proof. unfold blobT_Convert. destruct v; intros H; inversion H; eauto. Qed.

Lemma jsonT_Convert_shape v c : jsonT_Convert v = Ok c -> exists b, c = VBytes b.
Proof.
  unfold jsonT_Convert. intros H.
  destruct v; try (apply marshal_shape in H; exact H).
  destruct (json_Unmarshal (bytes_of s)); apply marshal_shape in H; exact H.
Qed.

Lemma Blob_ordered : ordered_at Blob.
Proof.
  apply (bytes_ordered Blob blobT_Compare); try reflexivity.
  intros c [v H]. apply (blobT_Convert_shape v c H).
Qed.

Lemma JSON_ordered : ordered_at JSON.
Proof.
  apply (bytes_ordered JSON jsonT_Compare); try reflexivity.
  intros c [v H]. apply (jsonT_Convert_shape v c H).
Qed.

Lemma textT_Convert_shape v c : textT_Convert v = Ok c -> exists s, c = VString s.
Proof.
  unfold textT_Convert. destruct (cast_ToStringE v); intros H; inversion H; eauto.
Qed.

Lemma Text_ordered : ordered_at Text.
Proof.
  apply (ordered_by_key Text string strings_Compare (fun c s => c = VString s)).
  - intros c [v H]. apply (textT_Convert_shape v c H).
  - intros a b ka kb -> ->. reflexivity.
  - intros x y. unfold strings_Compare.
    split; [apply bytes_Compare_swap|apply bytes_Compare_range].
  - intros x y z. apply bytes_Compare_trans.
Qed.

Lemma booleanT_Convert_shape v c : booleanT_Convert v = Ok c -> exists b, c = VBool b.
Proof.
  unfold booleanT_Convert. intros H.
  destruct v; break_matches H; inversion H; subst; eauto.
Qed.

Lemma Boolean_ordered : ordered_at Boolean.
Proof.
  apply (ordered_by_key Boolean bool bool_cmp (fun c b => c = VBool b)).
  - intros c [v H]. apply (booleanT_Convert_shape v c H).
  - intros a b ka kb -> ->. destruct ka, kb; reflexivity.
  - intros [|] [|]; cbn; lia.
  - intros [|] [|] [|]; cbn; lia.
Qed.

(** In an ordered type a comparison of three values that gives 0 at the
    ends gives 0 in between. *)
Lemma ordered_strict t a b c x y :
  ordered_at t -> canonical t a -> canonical t b -> canonical t c ->
  compares t a b x -> compares t b c y -> compares t a c 0 ->
  x <= 0 -> y <= 0 -> x = 0 /\ y = 0.
Proof.
  intros [Hs Ht] Ha Hb Hc Hx Hy Hz Lx Ly.
  destruct (Hs a b Ha Hb) as [x' [X1 [X2 _]]].
  rewrite (compares_fun _ _ _ _ _ Hx X1) in *.
  destruct (Hs b c Hb Hc) as [y' [Y1 [Y2 _]]].
  rewrite (compares_fun _ _ _ _ _ Hy Y1) in *.
  destruct (Hs a c Ha Hc) as [z' [Z1 [Z2 _]]].
  pose proof (compares_fun _ _ _ _ _ Z1 Hz) as ->. cbn in Z2.
  pose proof (Ht c a b 0 x' (- y') Hc Ha Hb Z2 X1 Y2 ltac:(lia) Lx).
  pose proof (Ht b c a y' 0 (- x') Hb Hc Ha Y1 Z2 X2 Ly ltac:(lia)).
  lia.
Qed.

Lemma compares_elems_cons t ts a xs b ys x :
  compares_elems (t :: ts) (a :: xs) (b :: ys) x <->
  exists h, compares t a b h /\
            ((h <> 0 /\ x = h) \/ (h = 0 /\ compares_elems ts xs ys x)).
Proof.
  unfold compares_elems, compares. cbn [map compare_elems]. rewrite result_bind.
  destruct (result (Compare t a b)) as [h|e|p].
  - destruct (Z.eqb_spec h 0) as [E|E]; cbn [negb].
    + split; [intros H; exists h; split; auto|].
      intros [h' [H1 [[H2 _]|[_ H2]]]]; injection H1 as <-; [contradiction|exact H2].
    + split.
      * intros H. injection H as <-. exists h. split; auto.
      * intros [h' [H1 [[_ ->]|[H2 _]]]]; injection H1 as <-; [reflexivity|contradiction].
  - split; [discriminate|intros [h [H _]]; discriminate].
  - split; [discriminate|intros [h [H _]]; discriminate].
Qed.

Lemma elems_ordered ts :
  Forall ordered_at ts ->
  (forall xs ys, Forall2 canonical ts xs -> Forall2 canonical ts ys ->
     exists x, compares_elems ts xs ys x /\ compares_elems ts ys xs (- x) /\ -1 <= x <= 1)
  /\ (forall xs ys zs x y z,
        Forall2 canonical ts xs -> Forall2 canonical ts ys -> Forall2 canonical ts zs ->
        compares_elems ts xs ys x -> compares_elems ts ys zs y -> compares_elems ts xs zs z ->
        x <= 0 -> y <= 0 -> z <= 0).
Proof.
  induction 1 as [|t ts Ht _ [IH1 IH2]].
  - split.
    + intros xs ys Hx Hy. inversion Hx; inversion Hy; subst.
      exists 0. repeat split; try lia.
    + intros xs ys zs x y z Hx Hy Hz _ _ Hc. inversion Hx; inversion Hz; subst.
      unfold compares_elems in Hc. cbn in Hc. injection Hc as <-. lia.
  - split.
    + intros xs ys Hx Hy.
      inversion Hx as [|? a ? xs' Ha Hxs]; inversion Hy as [|? b ? ys' Hb Hys]; subst.
      destruct (proj1 Ht a b Ha Hb) as [h [H1 [H2 R]]].
      destruct (Z.eq_dec h 0) as [->|N].
      * destruct (IH1 xs' ys' Hxs Hys) as [x [X1 [X2 RX]]].
        exists x. repeat split; try lia;
          apply compares_elems_cons; eexists; split; eauto.
      * exists h. repeat split; try lia;
          apply compares_elems_cons; eexists; split; eauto.
        left. split; [lia|reflexivity].
    + intros xs ys zs x y z Hx Hy Hz Cx Cy Cz Lx Ly.
      inversion Hx as [|? a ? xs' Ha Hxs]; inversion Hy as [|? b ? ys' Hb Hys];
        inversion Hz as [|? c ? zs' Hc Hzs]; subst.
      apply compares_elems_cons in Cx as [hx [X [[NX ->]|[-> X']]]];
        apply compares_elems_cons in Cy as [hy [Y [[NY ->]|[-> Y']]]];
        apply compares_elems_cons in Cz as [hz [Z [[NZ ->]|[-> Z']]]];
        try (apply (proj2 Ht a b c _ _ _ Ha Hb Hc X Y Z); lia);
        try (destruct (ordered_strict t a b c _ _ Ht Ha Hb Hc X Y Z); lia).
      exact (IH2 xs' ys' zs' x y z Hxs Hys Hzs X' Y' Z' Lx Ly).
Qed.

Lemma Converted_canonical ts xs cs : Converted ts xs cs -> Forall2 canonical ts cs.
Proof.
  induction 1 as [|t ts x xs c cs Hc _ IH]; constructor; auto. exists x. exact Hc.
Qed.

(** A canonical tuple converts again to canonical elements. *)
Lemma tuple_reconverts ts a :
  canonical (tupleT ts) a ->
  exists xs, result (Convert (tupleT ts) a) = Ok (VSlice xs) /\ Forall2 canonical ts xs.
Proof.
  intros [v H].
  apply (tupleT_Convert_result ts) in H as [vals [res [_ [-> H]]]].
  assert (Hts : Forall idempotent_at ts) by (apply Forall_forall; intros; apply all_idempotent).
  destruct (tupleT_reconvert ts Hts vals res H) as [cs' [Hcs' _]].
  exists cs'. split.
  - apply (tupleT_Convert_result ts). exists res, cs'. auto.
  - eapply Converted_canonical; eauto.
Qed.

Lemma tuple_compares ts a b xs ys x :
  result (Convert (tupleT ts) a) = Ok (VSlice xs) ->
  result (Convert (tupleT ts) b) = Ok (VSlice ys) ->
  (compares (tupleT ts) a b x <-> compares_elems ts xs ys x).
Proof.
  intros Ha Hb. unfold compares, compares_elems. cbn [Compare]. unfold tupleT_Compare.
  rewrite result_bind, Ha, result_bind, Hb. reflexivity.
Qed.

Lemma Tuple_ordered ts : Forall ordered_at ts -> ordered_at (tupleT ts).
Proof.
  intros Hts. destruct (elems_ordered ts Hts) as [E1 E2]. split.
  - intros a b Ha Hb.
    destruct (tuple_reconverts ts a Ha) as [xs [Cx Fx]].
    destruct (tuple_reconverts ts b Hb) as [ys [Cy Fy]].
    destruct (E1 xs ys Fx Fy) as [x [X1 [X2 R]]].
    exists x. repeat split; try lia.
    + apply (tuple_compares ts a b xs ys x Cx Cy). exact X1.
    + apply (tuple_compares ts b a ys xs (- x) Cy Cx). exact X2.
  - intros a b c x y z Ha Hb Hc Hx Hy Hz.
    destruct (tuple_reconverts ts a Ha) as [xs [Cx Fx]].
    destruct (tuple_reconverts ts b Hb) as [ys [Cy Fy]].
    destruct (tuple_reconverts ts c Hc) as [zs [Cz Fz]].
    apply (tuple_compares ts a b xs ys x Cx Cy) in Hx.
    apply (tuple_compares ts b c ys zs y Cy Cz) in Hy.
    apply (tuple_compares ts a c xs zs z Cx Cz) in Hz.
    exact (E2 xs ys zs x y z Fx Fy Fz Hx Hy Hz).
Qed.

(** A canonical array converts again to canonical elements. *)
Lemma array_reconverts u a :
  canonical (arrayT u) a ->
  exists xs, result (Convert (arrayT u) a) = Ok (VSlice xs) /\
             Forall2 canonical (repeat u (List.length xs)) xs.
Proof.
  intros [v H].
  apply (arrayT_Convert_result u) in H as [vals [cs [Ha H]]].
  destruct (arrayT_reconvert u (all_idempotent u) vals cs H) as [cs' [Hcs' _]].
  exists cs'. split.
  - pose proof (arrayT_Convert_elements u a cs Ha) as E0.
    pose proof Hcs' as M. apply mapM_result in M. rewrite M in E0. exact E0.
  - clear H Ha. induction Hcs' as [|c c' cs cs' Hc _ IH]; cbn [List.length repeat];
      constructor; auto. exists c. exact Hc.
Qed.

Lemma array_compares u a b xs ys x :
  result (Convert (arrayT u) a) = Ok (VSlice xs) ->
  result (Convert (arrayT u) b) = Ok (VSlice ys) ->
  (compares (arrayT u) a b x <->
   if (List.length xs <? List.length ys)%nat then x = -1
   else if (List.length ys <? List.length xs)%nat then x = 1
   else compares_elems (repeat u (List.length xs)) xs ys x).
Proof.
  intros Ha Hb. unfold compares, compares_elems. cbn [Compare]. unfold arrayT_Compare.
  rewrite result_bind, Ha, result_bind, Hb, map_repeat. cbn [as_slice].
  destruct (List.length xs <? List.length ys)%nat;
    [|destruct (List.length ys <? List.length xs)%nat];
    cbn [ret result fst]; try reflexivity;
    (split; [intros H; injection H; auto|intros ->; reflexivity]).
Qed.

Lemma Array_ordered u : ordered_at u -> ordered_at (arrayT u).
Proof.
  intros Hu.
  assert (E : forall n, Forall ordered_at (repeat u n))
    by (intros n; apply Forall_forall; intros t Ht; apply repeat_spec in Ht; subst; exact Hu).
  split.
  - intros a b Ha Hb.
    destruct (array_reconverts u a Ha) as [xs [Cx Fx]].
    destruct (array_reconverts u b Hb) as [ys [Cy Fy]].
    assert (AB := fun x => array_compares u a b xs ys x Cx Cy).
    assert (BA := fun x => array_compares u b a ys xs x Cy Cx).
    revert AB BA.
    destruct (Nat.ltb_spec (List.length xs) (List.length ys)) as [H1|H1];
      destruct (Nat.ltb_spec (List.length ys) (List.length xs)) as [H2|H2];
      intros AB BA; try lia.
    + exists (-1). repeat split; try lia; [apply AB|apply BA]; reflexivity.
    + exists 1. repeat split; try lia; [apply AB|apply BA]; reflexivity.
    + assert (EL : List.length ys = List.length xs) by lia.
      rewrite EL in Fy, BA.
      destruct (proj1 (elems_ordered _ (E (List.length xs))) xs ys Fx Fy) as [x [X1 [X2 R]]].
      exists x. repeat split; try lia; [apply AB|apply BA]; assumption.
  - intros a b c x y z Ha Hb Hc Hx Hy Hz Lx Ly.
    destruct (array_reconverts u a Ha) as [xs [Cx Fx]].
    destruct (array_reconverts u b Hb) as [ys [Cy Fy]].
    destruct (array_reconverts u c Hc) as [zs [Cz Fz]].
    apply (array_compares u a b xs ys x Cx Cy) in Hx.
    apply (array_compares u b c ys zs y Cy Cz) in Hy.
    apply (array_compares u a c xs zs z Cx Cz) in Hz.
    revert Hx Hy Hz.
    destruct (Nat.ltb_spec (List.length xs) (List.length ys)) as [H1|H1];
      [|destruct (Nat.ltb_spec (List.length ys) (List.length xs)) as [H1'|H1']];
      (destruct (Nat.ltb_spec (List.length ys) (List.length zs)) as [H2|H2];
       [|destruct (Nat.ltb_spec (List.length zs) (List.length ys)) as [H2'|H2']]);
      (destruct (Nat.ltb_spec (List.length xs) (List.length zs)) as [H3|H3];
       [|destruct (Nat.ltb_spec (List.length zs) (List.length xs)) as [H3'|H3']]);
      intros Hx Hy Hz; try lia.
    assert (E1 : List.length ys = List.length xs) by lia.
    assert (E2 : List.length zs = List.length xs) by lia.
    rewrite E1 in Fy, Hy. rewrite E2 in Fz.
    exact (proj2 (elems_ordered _ (E (List.length xs))) xs ys zs x y z
             Fx Fy Fz Hx Hy Hz Lx Ly).
Qed.

(** X1. On the canonical values of every type (the results of its
    [Convert]), [Compare] returns -1, 0 or 1 without error, gives the
    opposite result when its operands are swapped, and is transitive. *)
Theorem Compare_orders_canonical (t : Type_) : ordered_at t.
Proof.
  induction t using Type_induction.
  - apply Null_ordered.
  - apply numberT_ordered.
  - apply Timestamp_ordered.
  - apply Date_ordered.
  - apply Text_ordered.
  - apply Boolean_ordered.
  - apply JSON_ordered.
  - apply Blob_ordered.
  - apply Tuple_ordered. assumption.
  - apply Array_ordered. assumption.
Qed.

End Ordering.

(** A triple of canonical pairs: swapping and chaining their comparisons. *)
Lemma Compare_orders_canonical_witness :
  let t := Tuple [Float64; Text] in
  let a := VSlice [VFloat64 f1_2; VString "a"] in
  let b := VSlice [VFloat64 f1_5; VString "b"] in
  exists x, compares t a b x /\ compares t b a (- x) /\ -1 <= x <= 1.
Proof.
  apply (proj1 (Compare_orders_canonical (L := DecimalLib) Decimal_Marshal_bytes
                  (Tuple [Float64; Text]))).
  - exists (VSlice [VFloat64 f1_2; VString "a"]). reflexivity.
  - exists (VSlice [VFloat64 f1_5; VString "b"]). reflexivity.
Defined.

(* ------------------------------------------------------------------ *)
(** *** Integers, texts and bytes under [Compare] *)

Section ScalarCompare.
Context {L : GoLib}.

Lemma in_range_int64 k z :
  k <> KUint64 -> k <> KUint -> in_range k z = true -> in_range KInt64 z = true.
Proof.
  unfold in_range, min_int, max_int. intros N1 N2 H.
  apply andb_true_iff in H as [H1 H2]. apply Z.leb_le in H1, H2.
  apply andb_true_iff. split; apply Z.leb_le;
    destruct k; cbn [signed bits] in *; try contradiction; simpl in *; lia.
Qed.

(** X2. For each of the eight integer types, [Compare] of two values of
    the type's own Go integer type is their numeric order: the signed path
    taken by the 8- and 16-bit unsigned types orders them correctly too. *)
Theorem integer_Compare_numeric q k a b :
  code_kind q = Some k ->
  in_range k a = true -> in_range k b = true ->
  Compare (numberT q) (VInt k a) (VInt k b) =
  ret (if a =? b then 0 else if a <? b then -1 else 1).
Proof.
  intros Hq Ha Hb. cbn [Compare]. unfold numberT_Compare.
  destruct q; try discriminate Hq; injection Hq as <-;
    match goal with
    | |- context [IsUnsigned ?t] =>
        let b := eval compute in (IsUnsigned t) in change (IsUnsigned t) with b
    end; cbv iota.
  all: try (rewrite compareSigned_ints;
            rewrite !(wrap_id KInt64) by (eapply in_range_int64; eauto; discriminate);
            destruct (a =? b); [reflexivity|]; destruct (a <? b); reflexivity).
  all: unfold compareUnsigned, cast_ToUint64E, cast_ToUintE;
    assert (A : 0 <= a /\ 0 <= b /\ in_range KUint64 a = true /\ in_range KUint64 b = true)
      by (unfold in_range, min_int, max_int in *;
          apply andb_true_iff in Ha as [A1 A2]; apply andb_true_iff in Hb as [B1 B2];
          apply Z.leb_le in A1, A2, B1, B2; cbn [signed bits] in *;
          rewrite !andb_true_iff, !Z.leb_le; simpl in *; lia);
    destruct A as [A1 [A2 [A3 A4]]];
    replace (a <? 0) with false by (symmetry; apply Z.ltb_ge; exact A1);
    replace (b <? 0) with false by (symmetry; apply Z.ltb_ge; exact A2);
    rewrite !(wrap_id KUint64) by assumption;
    destruct (a =? b); [reflexivity|]; destruct (a <? b); reflexivity.
Qed.

(** X3. [Compare] of Text, of Blob and of JSON returns 0 exactly on two
    equal values: the comparison is on the bytes. *)
Theorem bytes_Compare_zero_iff_equal :
  (forall a b, Compare Text (VString a) (VString b) = ret 0 <-> a = b)
  /\ (forall a b, Compare Blob (VBytes a) (VBytes b) = ret 0 <-> a = b)
  /\ (forall a b, Compare JSON (VBytes a) (VBytes b) = ret 0 <-> a = b).
Proof.
  assert (R : forall x, (pure (Ok x) : M Z) = ret 0 <-> x = 0).
  { intros x. unfold pure, ret. split; [intros H; injection H; auto|intros ->; reflexivity]. }
  split; [|split]; intros a b; cbn [Compare textT_Compare blobT_Compare jsonT_Compare];
    rewrite R; try apply bytes_Compare_eq.
  unfold strings_Compare, bytes_of. rewrite bytes_Compare_eq. split; [|intros ->; reflexivity].
  intros H. apply (f_equal string_of_list_byte) in H.
  rewrite !string_of_list_byte_of_string in H. exact H.
Qed.

End ScalarCompare.

(** The [uint16] values 40000 and 3 under [Uint16.Compare]. *)
Lemma integer_Compare_numeric_witness :
  Compare Uint16 (VInt KUint16 40000) (VInt KUint16 3) = ret 1.
Proof.
  exact (integer_Compare_numeric (L := DecimalLib) sqltypes_Uint16 KUint16 40000 3
           eq_refl eq_refl eq_refl).
Defined.

(* ------------------------------------------------------------------ *)
(** *** Arrays *)

Section Arrays.
Context {L : GoLib}.

Lemma drain_EOF_result (f : Value -> M Value) g items :
  result (drain f g items io_EOF) = result (mapM f items).
Proof.
  induction items as [|x items IH]; cbn [drain mapM];
    rewrite !result_bind; cbn [tell result fst is_EOF]; [reflexivity|].
  destruct (result (f x)); try reflexivity.
  rewrite ?result_bind, IH. reflexivity.
Qed.

(** X4. A producer that yields the elements [items], ends with [io.EOF]
    and closes without error converts to the elements, or to the error,
    that the sequence [items] converts to.  With elements the two results
    are the same; with none the producer gives the nil slice and the
    sequence an empty slice that is not nil. *)
Theorem arrayT_Convert_producer_as_slice u g items :
  match result (Convert (Array u) (VGenerator g items io_EOF None)),
        result (Convert (Array u) (VSlice items)) with
  | Ok c, Ok c' =>
      as_slice c = as_slice c'
      /\ c' = VSlice (match as_slice c with Some cs => cs | None => [] end)
      /\ (c = VNilSlice <-> items = [])
      /\ (items <> [] -> c = c')
  | Err e, Err e' => e = e'
  | Fault p, Fault p' => p = p'
  | _, _ => False
  end.
Proof.
  rewrite arrayT_Convert_producer_result, drain_EOF_result.
  rewrite (arrayT_Convert_elements u (VSlice items) items eq_refl).
  destruct (result (mapM (Convert u) items)) as [rs| |] eqn:E; try reflexivity.
  apply mapM_result in E. rewrite as_slice_appended. cbn [as_slice].
  split; [reflexivity|]. split; [reflexivity|].
  destruct E as [|x c xs cs _ _]; cbn [appended]; split.
  - split; reflexivity.
  - intros N. exfalso. apply N. reflexivity.
  - split; discriminate.
  - reflexivity.
Qed.

(** X5. [Array(U).Convert] of a sequence succeeds exactly when every
    element converts through [U]; the result then has the length of the
    input and holds at each position the converted element.  The error of
    the first element that fails is the one returned, and a value that is
    neither a sequence nor a producer gives [ErrNotArray]; the nil slice
    is a sequence without elements. *)
Theorem arrayT_Convert_slice u xs :
  (forall c, result (Convert (Array u) (VSlice xs)) = Ok c <->
             exists cs, c = VSlice cs /\
                        Forall2 (fun x c => result (Convert u x) = Ok c) xs cs)
  /\ (forall cs, result (Convert (Array u) (VSlice xs)) = Ok (VSlice cs) ->
                 List.length cs = List.length xs)
  /\ (forall xs1 x xs2 e, xs = xs1 ++ x :: xs2 ->
        Forall (fun x => succeeds (Convert u x) = true) xs1 ->
        result (Convert u x) = Err e ->
        result (Convert (Array u) (VSlice xs)) = Err e)
  /\ (forall v, as_slice v = None ->
                (forall g items final cerr, v <> VGenerator g items final cerr) ->
                Convert (Array u) v = throw ErrNotArray)
  /\ Convert (Array u) VNilSlice = ret (VSlice []).
Proof.
  assert (A : forall c, result (Convert (Array u) (VSlice xs)) = Ok c <->
             exists cs, c = VSlice cs /\
                        Forall2 (fun x c => result (Convert u x) = Ok c) xs cs).
  { intros c. cbn [Convert Array arrayT_Convert as_slice]. rewrite result_bind. split.
    - destruct (result (mapM (Convert u) xs)) as [rs|e|p] eqn:Hr; try discriminate.
      intros H. injection H as <-. exists rs. split; [reflexivity|].
      apply mapM_result. exact Hr.
    - intros [cs [-> H]]. apply mapM_result in H. rewrite H. reflexivity. }
  split; [exact A|]. split; [|split; [|split; [|reflexivity]]].
  - intros cs H. apply A in H as [cs' [E H]]. injection E as ->.
    symmetry. exact (Forall2_length H).
  - intros xs1 x xs2 e -> Hall He.
    cbn [Convert Array arrayT_Convert as_slice]. rewrite result_bind. clear A.
    assert (D : result (mapM (Convert u) (xs1 ++ x :: xs2)) = Err e).
    { induction Hall as [|x1 xs1 H1 _ IH]; cbn [app mapM]; rewrite result_bind.
      - rewrite He. reflexivity.
      - apply succeeds_result in H1 as [c1 H1]. rewrite H1, result_bind, IH. reflexivity. }
    rewrite D. reflexivity.
  - intros v Hs Hg. destruct v; try reflexivity; try discriminate Hs.
    exfalso. exact (Hg g items final close_err eq_refl).
Qed.

End Arrays.

(** A producer of the element 1 converts to what the sequence of 1
    converts to.  A producer without elements converts to the nil slice,
    which [Array(Int64).SQL] writes as null, and the sequence without
    elements to the empty slice, written as a pair of brackets. *)
Lemma arrayT_Convert_producer_as_slice_witness :
  result (Convert (Array Int64) (VGenerator 1 [VInt KInt 1] io_EOF None)) =
    Ok (VSlice [VInt KInt64 1])
  /\ result (Convert (Array Int64) (VSlice [VInt KInt 1])) = Ok (VSlice [VInt KInt64 1])
  /\ result (Convert (Array Int64) (VGenerator 1 [] io_EOF None)) = Ok VNilSlice
  /\ result (Convert (Array Int64) (VSlice [])) = Ok (VSlice [])
  /\ result (SQL (Array Int64) (VGenerator 1 [] io_EOF None)) =
       Ok (MakeTrusted sqltypes_TypeJSON (bytes_of "null"))
  /\ result (SQL (Array Int64) (VSlice [])) =
       Ok (MakeTrusted sqltypes_TypeJSON (bytes_of "[]")).
Proof.
  pose proof (arrayT_Convert_producer_as_slice (L := DecimalLib) Int64 1 [VInt KInt 1])
    as H.
  change (result (Convert (Array Int64) (VSlice [VInt KInt 1])))
    with (Ok (A := Value) (VSlice [VInt KInt64 1])) in H.
  destruct (result (Convert (Array Int64) (VGenerator 1 [VInt KInt 1] io_EOF None)))
    as [c| |]; try contradiction.
  destruct H as [_ [_ [_ H]]]. rewrite (H ltac:(discriminate)).
  repeat split; reflexivity.
Defined.

(** [Array(Int64)] on the sequence 1, true, x: the error of the third
    element. *)
Lemma arrayT_Convert_slice_witness :
  result (Convert (Array Int64) (VSlice [VInt KInt 1; VBool true; VString "x"])) =
  Err (ErrUnableToCast "int64").
Proof.
  destruct (arrayT_Convert_slice (L := DecimalLib) Int64
              [VInt KInt 1; VBool true; VString "x"]) as [_ [_ [H _]]].
  apply (H [VInt KInt 1; VBool true] (VString "x") []).
  - reflexivity.
  - repeat constructor.
  - reflexivity.
Defined.

(* ------------------------------------------------------------------ *)
(** *** Times, dates and integers *)

Section TimesAndDates.
Context {L : GoLib}.

(** X6. An [int64] converts to the timestamp that many seconds after the
    Unix epoch, in UTC, and [Int64.Convert] of that timestamp gives the
    integer back. *)
Theorem Timestamp_Int64_round_trip n :
  in_range KInt64 n = true ->
  Convert Timestamp (VInt KInt64 n) = ret (VTime (mkTime n 0 UTC))
  /\ Convert Int64 (VTime (mkTime n 0 UTC)) = ret (VInt KInt64 n).
Proof.
  intros Hn. split.
  - cbn [Convert]. unfold timestampT_Convert, numberT_Convert, cast_ToInt64E, cast_ToIntE.
    cbv beta iota zeta. rewrite (wrap_id KInt64 n Hn).
    unfold time_Unix, Time_UTC, time_Second. cbn [unixSec nsec].
    change (0 / 1000000000) with 0. change (0 mod 1000000000) with 0.
    rewrite Z.add_0_r. reflexivity.
  - unfold Int64. cbn [Convert].
    unfold numberT_Convert, cast_ToInt64E, cast_ToIntE, Time_Unix.
    cbv beta iota zeta. cbn [unixSec]. rewrite !(wrap_id KInt64 n Hn). reflexivity.
Qed.

Lemma truncateDate_fields x :
  unixSec (truncateDate x) = 86400 * (day_number x - 719162)
  /\ nsec (truncateDate x) = 0
  /\ loc (truncateDate x) = loc x
  /\ instant (truncateDate x) =
     instant x - (instant x + unixToInternal * time_Second) mod (24 * time_Hour).
Proof.
  unfold truncateDate, Time_Truncate, day_number, instant, time_Hour, time_Second,
    unixToInternal.
  change (24 * (3600 * 1000000000) <=? 0) with false. cbv iota.
  cbn [unixSec nsec loc].
  set (T := unixSec x * 1000000000 + nsec x).
  set (d := 24 * (3600 * 1000000000)).
  set (S := 62135596800 * 1000000000).
  pose proof (Z.div_mod (T + S) d ltac:(discriminate)) as E.
  assert (E' : T - (T + S) mod d = 86400 * ((T + S) / d - 719162) * 1000000000)
    by (subst d S; lia).
  rewrite E'. rewrite Z.div_mul, Z.mod_mul by discriminate.
  repeat split; lia.
Qed.

(** X7. [Date.Convert] of a time gives the latest UTC midnight that is not
    after it: the start of a day, at most 24 hours before the time. *)
Theorem dateT_Convert_latest_midnight x :
  exists t,
    Convert Date (VTime x) = ret (VTime t)
    /\ start_of_day t
    /\ instant t <= instant x < instant t + 24 * time_Hour.
Proof.
  exists (Time_UTC (truncateDate x)). split; [reflexivity|].
  destruct (truncateDate_fields x) as [Hs [Hn [_ Hi]]].
  split.
  - unfold start_of_day. cbn [Time_UTC unixSec nsec loc]. rewrite Hs, Hn.
    repeat split. rewrite Z.mul_comm. apply Z.mod_mul. discriminate.
  - change (instant (Time_UTC (truncateDate x))) with (instant (truncateDate x)).
    rewrite Hi.
    pose proof (Z.mod_pos_bound (instant x + unixToInternal * time_Second)
                  (24 * time_Hour) ltac:(reflexivity)).
    lia.
Qed.

(** X8. [Date.Compare] of two times looks at their UTC days only: it is the
    order of the day numbers, whatever the time of day and the location. *)
Theorem dateT_Compare_by_day a b :
  Compare Date (VTime a) (VTime b) =
  ret (if day_number a =? day_number b then 0
       else if day_number a <? day_number b then -1 else 1).
Proof.
  cbn [Compare dateT_Compare]. cbv zeta. unfold Time_Before, Time_After.
  destruct (truncateDate_fields a) as [Ha [Na _]].
  destruct (truncateDate_fields b) as [Hb [Nb _]].
  rewrite Ha, Hb, Na, Nb.
  destruct (Z.eqb_spec (day_number a) (day_number b)) as [E|E];
    destruct (Z.ltb_spec (day_number a) (day_number b));
    destruct (Z.ltb_spec (86400 * (day_number a - 719162)) (86400 * (day_number b - 719162)));
    destruct (Z.ltb_spec (86400 * (day_number b - 719162)) (86400 * (day_number a - 719162)));
    destruct (Z.eqb_spec (86400 * (day_number a - 719162)) (86400 * (day_number b - 719162)));
    cbn; try reflexivity; lia.
Qed.

End TimesAndDates.

(** Midnight of 2 January 2020 as an integer and as a timestamp. *)
Lemma Timestamp_Int64_round_trip_witness :
  Convert Timestamp (VInt KInt64 1577923200) = ret (VTime (mkTime 1577923200 0 UTC))
  /\ Convert Int64 (VTime (mkTime 1577923200 0 UTC)) = ret (VInt KInt64 1577923200).
Proof.
  exact (Timestamp_Int64_round_trip (L := DecimalLib) 1577923200 eq_refl).
Defined.

(* ------------------------------------------------------------------ *)
(** *** Rows that a schema accepts *)

Section RowsAccepted.
Context {L : GoLib}.

Lemma Check_accepts c v : result (Check c v) = Ok true <-> accepted c v.
Proof.
  unfold Check, accepted, succeeds.
  destruct v; try (cbn; split; [intros H; injection H; auto|intros ->; reflexivity]);
    match goal with
    | |- context [Convert ?t ?v] => destruct (Convert t v) as [[x|e|p] l]
    end; cbn; split; intros H; try reflexivity; try discriminate H.
Qed.

Lemma check_from_ok s : forall r0 r1,
  List.length s = List.length r1 ->
  result (check_from s (List.length r0) (r0 ++ r1)) = Ok tt ->
  Forall2 (fun f v => result (Check f v) = Ok true) s r1.
Proof.
  induction s as [|f s IH]; intros r0 r1 Hlen H.
  - destruct r1; [constructor|discriminate].
  - destruct r1 as [|v r1]; [discriminate|].
    cbn [check_from] in H. rewrite nth_error_app2 in H by lia.
    rewrite Nat.sub_diag in H. cbn [nth_error] in H.
    rewrite result_bind in H.
    destruct (result (Check f v)) as [[|]|e|p] eqn:Hf; try discriminate H.
    + constructor; [exact Hf|].
      apply (IH (r0 ++ [v]) r1); [simpl in Hlen; lia|].
      rewrite length_app, <- app_assoc. cbn [List.length app].
      replace (List.length r0 + 1)%nat with (S (List.length r0)) by lia. exact H.
    + destruct (reflect_TypeOf v); discriminate H.
Qed.

(** X9. [CheckRow] returns nil exactly when the row has as many values as
    the schema has columns and every value is accepted by the column of its
    position: nil at a nullable column, or a value that the type of the
    column converts. *)
Theorem CheckRow_nil_iff_accepted s row :
  result (CheckRow s row) = Ok tt <-> Forall2 accepted s row.
Proof.
  split.
  - unfold CheckRow.
    destruct (Nat.eqb_spec (List.length s) (List.length row)) as [E|E];
      cbn [negb]; [|discriminate].
    intros H. apply (check_from_ok s [] row E) in H.
    eapply Forall2_impl; [|exact H]. intros f v. apply Check_accepts.
  - intros H.
    assert (H' : Forall2 (fun f v => result (Check f v) = Ok true) s row)
      by (eapply Forall2_impl; [|exact H]; intros f v; apply Check_accepts).
    pose proof (Forall2_length H') as E.
    unfold CheckRow. rewrite E, Nat.eqb_refl. cbn [negb].
    pose proof (check_from_prefix s [] row [] [] E H') as P.
    rewrite !app_nil_r in P. cbn [app List.length] in P. rewrite P. reflexivity.
Qed.

End RowsAccepted.

(* ------------------------------------------------------------------ *)
(** *** [ValidateTime] *)

Section Validate.
Context {L : GoLib}.

(** X10. [ValidateTime] returns the time itself unless the time is after
    the last second of the year 9999 in UTC, and nil then; so a time it
    returns has, in UTC, a year of at most 9999. *)
Theorem ValidateTime_year t :
  (ValidateTime t = VTime t \/ ValidateTime t = VNil)
  /\ (ValidateTime t = VNil <-> Time_After t (time_Date 9999 12 31 23 59 59 0) = true)
  /\ (ValidateTime t = VTime t ->
      unixSec t <= 253402300799 /\
      fst (fst (civil_from_days (unixSec t / 86400))) <= 9999).
Proof.
  unfold ValidateTime. change maxTime with (mkTime 253402300799 0 UTC).
  change (time_Date 9999 12 31 23 59 59 0) with (mkTime 253402300799 0 UTC).
  destruct (Time_After t (mkTime 253402300799 0 UTC)) eqn:E.
  - split; [right; reflexivity|]. split; [tauto|]. discriminate.
  - split; [left; reflexivity|]. split; [split; discriminate|]. intros _.
    unfold Time_After in E. cbn [unixSec nsec] in E.
    apply orb_false_iff in E as [E _]. apply Z.ltb_ge in E.
    split; [exact E|]. apply civil_year_bound.
    assert (unixSec t / 86400 < 2932897) by (apply Z.div_lt_upper_bound; lia). lia.
Qed.

End Validate.

(* ------------------------------------------------------------------ *)
(** *** [Schema.IndexOf] and [Schema.Contains] *)

Section Lookup.
Variable strings_ToLower : string -> string.
Variables column source : string.

Local Abbreviation miss := (fun c => hit strings_ToLower column source c = false).

Lemma index_from_none s : forall i,
  Forall miss s ->
  index_from strings_ToLower s i (strings_ToLower column) (strings_ToLower source) = -1.
Proof.
  induction s as [|c s IH]; intros i H; [reflexivity|].
  inversion H as [|? ? Hc Hs]; subst. cbn [index_from].
  unfold hit in Hc. rewrite Hc. apply IH. exact Hs.
Qed.

Lemma index_from_found s1 : forall i col s2,
  Forall miss s1 -> hit strings_ToLower column source col = true ->
  index_from strings_ToLower (s1 ++ col :: s2) i
    (strings_ToLower column) (strings_ToLower source) = i + Z.of_nat (List.length s1).
Proof.
  induction s1 as [|c s1 IH]; intros i col s2 H Hcol; cbn [app index_from List.length].
  - unfold hit in Hcol. rewrite Hcol. lia.
  - inversion H as [|? ? Hc Hs]; subst. unfold hit in Hc. rewrite Hc.
    rewrite (IH (i + 1) col s2 Hs Hcol). lia.
Qed.

Lemma first_hit s :
  Forall miss s \/
  exists s1 col s2, s = s1 ++ col :: s2 /\
                    Forall miss s1 /\ hit strings_ToLower column source col = true.
Proof.
  induction s as [|c s [IH|[s1 [col [s2 [-> [H1 H2]]]]]]].
  - left. constructor.
  - destruct (hit strings_ToLower column source c) eqn:Hc.
    + right. exists [], c, s. repeat split; auto.
    + left. constructor; auto.
  - destruct (hit strings_ToLower column source c) eqn:Hc.
    + right. exists [], c, (s1 ++ col :: s2). repeat split; auto.
    + right. exists (c :: s1), col, s2. repeat split; auto.
Qed.

(** X11. [IndexOf] returns the position of the first column whose name and
    source are the ones looked up, letter case apart, and -1 when there is
    none; so its result is -1 or a position of the schema, and [Contains]
    holds exactly when some column matches. *)
Theorem IndexOf_first_match s :
  (forall s1 col s2,
      s = s1 ++ col :: s2 -> Forall miss s1 ->
      hit strings_ToLower column source col = true ->
      IndexOf strings_ToLower s column source = Z.of_nat (List.length s1))
  /\ (IndexOf strings_ToLower s column source = -1 <-> Forall miss s)
  /\ -1 <= IndexOf strings_ToLower s column source < Z.of_nat (List.length s)
  /\ (Contains strings_ToLower s column source = true <->
      Exists (fun c => hit strings_ToLower column source c = true) s).
Proof.
  unfold Contains, IndexOf. cbv zeta.
  assert (F : forall s1 col s2,
      s = s1 ++ col :: s2 -> Forall miss s1 ->
      hit strings_ToLower column source col = true ->
      index_from strings_ToLower s 0 (strings_ToLower column) (strings_ToLower source)
      = Z.of_nat (List.length s1)).
  { intros s1 col s2 -> H1 H2. rewrite (index_from_found s1 0 col s2 H1 H2). lia. }
  split; [exact F|].
  destruct (first_hit s) as [N|[s1 [col [s2 [E [H1 H2]]]]]].
  - rewrite (index_from_none s 0 N).
    split; [tauto|]. split; [lia|]. split; [discriminate|].
    intros H. apply Exists_exists in H as [c [Hin Hc]].
    rewrite Forall_forall in N. rewrite (N c Hin) in Hc. discriminate.
  - rewrite (F s1 col s2 E H1 H2). subst s. rewrite length_app. cbn [List.length].
    split; [|split; [lia|split]].
    + split; [lia|].
      intros N. apply Forall_app in N as [_ N]. inversion N as [|? ? Hc _]; subst.
      rewrite H2 in Hc. discriminate.
    + intros _. apply Exists_app. right. constructor. exact H2.
    + intros _. apply Z.leb_le. lia.
Qed.

End Lookup.

(** Looking up ID of table T in a schema with columns T.name and t.id. *)
Lemma IndexOf_first_match_witness :
  IndexOf lower [mkColumn "name" Text VNil true "T"; mkColumn "id" Int64 VNil false "t"]
    "ID" "T" = 1.
Proof.
  destruct (IndexOf_first_match lower "ID" "T"
              [mkColumn "name" Text VNil true "T"; mkColumn "id" Int64 VNil false "t"])
    as [H _].
  apply (H [mkColumn "name" Text VNil true "T"] (mkColumn "id" Int64 VNil false "t") []).
  - reflexivity.
  - repeat constructor.
  - reflexivity.
Defined.

(* ------------------------------------------------------------------ *)
(** *** Wire codes *)

Section WireCodes.
Context {L : GoLib}.

(** X12. [MysqlTypeToType] gives back each declared type from its own
    wire code; a tuple has a code that is not supported and an array has
    the code of JSON.  Conversely the type returned for a code has that
    code, but for VarChar, which gives Text. *)
Theorem MysqlTypeToType_round_trip :
  Forall (fun t => MysqlTypeToType (Type_Type t) = Ok t) declared_types
  /\ (forall ts, MysqlTypeToType (Type_Type (tupleT ts)) = Err ErrTypeNotSupported)
  /\ (forall u, MysqlTypeToType (Type_Type (arrayT u)) = Ok JSON)
  /\ (forall q t, MysqlTypeToType q = Ok t ->
        Type_Type t = q \/ (q = sqltypes_VarChar /\ t = Text))
  /\ (forall q t, MysqlTypeToType q = Ok t -> In t declared_types).
Proof.
  split; [repeat constructor|]. split; [reflexivity|]. split; [reflexivity|]. split.
  - intros q t H. destruct q; inversion H; subst; auto.
  - intros q t H. destruct q; inversion H; subst; cbn; tauto.
Qed.

Lemma jsonT_SQL_code v w :
  v <> VNullT -> jsonT_SQL v = Ok w -> wire_type w = sqltypes_TypeJSON.
Proof.
  unfold jsonT_SQL. intros N H.
  destruct v; try contradiction; break_matches H; inversion H; reflexivity.
Qed.

(** X13. [SQL] passes the value [sql.Null] through as the wire NULL for
    every type.  On any other value it fails for a tuple, and when it
    succeeds the wire value has the code of the type itself, but for Date,
    whose wire values have the code of Timestamp. *)
Theorem SQL_wire_code t v w :
  SQL t VNullT = ret sqltypes_NULL
  /\ (v <> VNullT -> result (SQL t v) = Ok w ->
      (forall ts, t <> tupleT ts)
      /\ wire_type w = match t with Date => sqltypes_Timestamp | _ => Type_Type t end).
Proof.
  split; [destruct t; reflexivity|].
  intros N H. destruct t as [ |q| | | | | | |ts|u]; cbn [SQL pure result fst] in H.
  - inversion H. split; [discriminate|reflexivity].
  - split; [discriminate|]. unfold numberT_SQL in H.
    destruct v; try contradiction; destruct q; inversion H; reflexivity.
  - split; [discriminate|]. unfold timestampT_SQL in H.
    destruct v; try contradiction; break_matches H; inversion H; reflexivity.
  - split; [discriminate|]. unfold dateT_SQL in H.
    destruct v; try contradiction; break_matches H; inversion H; reflexivity.
  - split; [discriminate|]. unfold textT_SQL in H.
    destruct v; try contradiction; break_matches H; inversion H; reflexivity.
  - split; [discriminate|]. unfold booleanT_SQL in H.
    destruct v; try contradiction; inversion H; reflexivity.
  - split; [discriminate|]. apply (jsonT_SQL_code v w N H).
  - split; [discriminate|]. unfold blobT_SQL in H.
    destruct v; try contradiction; break_matches H; inversion H; reflexivity.
  - unfold tupleT_SQL in H. destruct v; try contradiction; discriminate H.
  - split; [discriminate|]. cbn [SQL] in H. unfold arrayT_SQL in H.
    assert (H' : result (v' <- Convert (arrayT u) v;; pure (jsonT_SQL v')) = Ok w)
      by (destruct v; try contradiction; exact H).
    rewrite result_bind in H'.
    destruct (result (Convert (arrayT u) v)) as [c|e|p] eqn:Hc; try discriminate H'.
    apply (arrayT_Convert_result u) in Hc as [xs [cs [Hc _]]].
    rewrite result_pure in H'.
    apply (jsonT_SQL_code c w); [intros ->; discriminate Hc|exact H'].
Qed.

(** X14. [numberT.SQL] never returns an error.  For the 8- and 16-bit
    types it encodes every value as no bytes at all; for Int32 and Int64 a
    value that does not cast to an integer is encoded as 0. *)
Theorem numberT_SQL_never_fails q v :
  (exists w, numberT_SQL q v = Ok w)
  /\ (In q narrow_codes -> v <> VNullT -> numberT_SQL q v = Ok (MakeTrusted q []))
  /\ (q = sqltypes_Int32 \/ q = sqltypes_Int64 -> v <> VNullT ->
      (forall x, cast_ToInt64E v <> Ok x) ->
      numberT_SQL q v = Ok (MakeTrusted q (bytes_of "0"))).
Proof.
  split; [|split].
  - unfold numberT_SQL. destruct v; try (eexists; reflexivity);
      destruct q; eexists; reflexivity.
  - intros Hq N. cbn in Hq.
    repeat (destruct Hq as [<-|Hq]; [destruct v; try contradiction; reflexivity|]).
    contradiction.
  - intros Hq N Hc. unfold numberT_SQL, cast_ToInt64.
    destruct (cast_ToInt64E v) as [x|e|p] eqn:E; [exfalso; exact (Hc x eq_refl)| |];
      destruct Hq as [-> | ->]; destruct v; try contradiction; reflexivity.
Qed.

(** X15. The classification predicates are exclusive: a type is at most
    one of integer, decimal, time, text, tuple and array, and never both
    signed and unsigned. *)
Theorem classification_exclusive t :
  (List.length (filter (fun b : bool => b)
     [IsInteger t; IsDecimal t; IsTime t; IsText t; IsTuple t; IsArray t]) <= 1)%nat
  /\ (IsSigned t && IsUnsigned t = false)
  /\ IsNumber t = existsb (Type_eq t) [Int32; Int64; Uint32; Uint64; Float32; Float64].
Proof.
  destruct t as [ |q| | | | | | |ts|u];
    try solve [cbn; repeat split; try reflexivity; lia].
  - destruct q; cbn; repeat split; try reflexivity; lia.
  - unfold IsTuple. destruct (1 <? List.length ts)%nat;
      cbn; repeat split; try reflexivity; lia.
Qed.

End WireCodes.

(** [Int64.SQL] on a text that is no number, and [Int8.SQL] on 5. *)
Lemma numberT_SQL_never_fails_witness :
  numberT_SQL sqltypes_Int64 (VString "abc") = Ok (MakeTrusted sqltypes_Int64 (bytes_of "0"))
  /\ numberT_SQL sqltypes_Int8 (VInt KInt8 5) = Ok (MakeTrusted sqltypes_Int8 []).
Proof.
  destruct (numberT_SQL_never_fails (L := DecimalLib) sqltypes_Int64 (VString "abc"))
    as [_ [_ H]].
  destruct (numberT_SQL_never_fails (L := DecimalLib) sqltypes_Int8 (VInt KInt8 5))
    as [_ [H8 _]].
  split.
  - apply H; [right; reflexivity|discriminate|]. intros x E. discriminate E.
  - apply H8; [left; reflexivity|discriminate].
Defined.

(** [Date.SQL] and [Timestamp.SQL] on one time. *)
Lemma SQL_wire_code_witness :
  wire_type (MakeTrusted sqltypes_Timestamp (bytes_of "2020-01-02")) = sqltypes_Timestamp
  /\ result (SQL Date (VString "2020-01-02")) =
       Ok (MakeTrusted sqltypes_Timestamp (bytes_of "2020-01-02")).
Proof.
  split; [|reflexivity].
  destruct (SQL_wire_code (L := DecimalLib) Date (VString "2020-01-02")
              (MakeTrusted sqltypes_Timestamp (bytes_of "2020-01-02"))) as [_ H].
  apply H; [discriminate|reflexivity].
Defined.

(* ------------------------------------------------------------------ *)
(** *** Canonical values are fixed points of [Convert] *)

Section FixedPoints.
Context {L : GoLib}.

Lemma cast_ToIntE_in_range k v x :
  signed k = true -> cast_ToIntE k v = Ok x -> in_range k x = true.
Proof.
  intros Hk H. unfold cast_ToIntE, unable in H.
  assert (B : forall b : bool, in_range k (if b then 1 else 0) = true)
    by (intros [|]; destruct k; try discriminate Hk; reflexivity).
  destruct v; break_matches H; inversion H; subst;
    auto using wrap_in_range, int_of_float_in_range;
    first [apply (B true) | apply (B false)].
Qed.

Lemma cast_ToUintE_in_range k v x :
  signed k = false -> cast_ToUintE k v = Ok x -> in_range k x = true /\ 0 <= x.
Proof.
  intros Hk H. split; [|exact (cast_ToUintE_nonneg k v x Hk H)].
  unfold cast_ToUintE, unable in H.
  assert (B : forall b : bool, in_range k (if b then 1 else 0) = true)
    by (intros [|]; destruct k; try discriminate Hk; reflexivity).
  destruct v; break_matches H; inversion H; subst;
    auto using wrap_in_range, int_of_float_in_range;
    first [apply (B true) | apply (B false)].
Qed.

Lemma numberT_fixed q c :
  canonical (numberT q) c -> result (Convert (numberT q) c) = Ok c /\ unnil c = c.
Proof.
  intros [v H]. cbn [Convert pure result fst] in *.
  unfold numberT_Convert in H.
  set (v' := match v with VTime ti => VInt KInt64 (Time_Unix ti) | _ => v end) in H.
  destruct q; try discriminate H.
  - destruct (cast_ToInt32E v') as [x| |] eqn:E; inversion H; subst.
    apply (cast_ToIntE_in_range KInt32 v' x eq_refl) in E.
    unfold numberT_Convert, cast_ToInt32E, cast_ToIntE. cbv beta iota zeta.
    rewrite (wrap_id KInt32 x E). split; reflexivity.
  - destruct (cast_ToUint32E v') as [x| |] eqn:E; inversion H; subst.
    apply (cast_ToUintE_in_range KUint32 v' x eq_refl) in E as [E1 E2].
    unfold numberT_Convert, cast_ToUint32E, cast_ToUintE. cbv beta iota zeta.
    replace (x <? 0) with false by (symmetry; apply Z.ltb_ge; exact E2).
    rewrite (wrap_id KUint32 x E1). split; reflexivity.
  - destruct (cast_ToInt64E v') as [x| |] eqn:E; inversion H; subst.
    apply (cast_ToIntE_in_range KInt64 v' x eq_refl) in E.
    unfold numberT_Convert, cast_ToInt64E, cast_ToIntE. cbv beta iota zeta.
    rewrite (wrap_id KInt64 x E). split; reflexivity.
  - destruct (cast_ToUint64E v') as [x| |] eqn:E; inversion H; subst.
    apply (cast_ToUintE_in_range KUint64 v' x eq_refl) in E as [E1 E2].
    unfold numberT_Convert, cast_ToUint64E, cast_ToUintE. cbv beta iota zeta.
    replace (x <? 0) with false by (symmetry; apply Z.ltb_ge; exact E2).
    rewrite (wrap_id KUint64 x E1). split; reflexivity.
  - destruct (cast_ToFloat32E v'); inversion H; subst. split; reflexivity.
  - destruct (cast_ToFloat64E v'); inversion H; subst. split; reflexivity.
Qed.

Lemma timestampT_Convert_UTC v c :
  timestampT_Convert v = Ok c -> exists t, c = VTime (Time_UTC t).
Proof.
  unfold timestampT_Convert. intros H.
  destruct v; break_matches H; inversion H; subst; eauto.
Qed.

Lemma start_of_day_truncate t : start_of_day t -> Time_UTC (truncateDate t) = t.
Proof.
  intros [Hs [Hn Hl]].
  destruct (truncateDate_fields t) as [Fs [Fn _]].
  unfold Time_UTC. rewrite Fs, Fn.
  assert (E : day_number t - 719162 = unixSec t / 86400).
  { unfold day_number, instant, time_Hour, time_Second, unixToInternal. rewrite Hn.
    pose proof (Z.div_mod (unixSec t) 86400 ltac:(discriminate)) as D.
    rewrite Hs in D.
    replace (unixSec t * 1000000000 + 0 + 62135596800 * 1000000000)
      with ((unixSec t / 86400 + 719162) * (24 * (3600 * 1000000000))) by lia.
    rewrite Z.div_mul by discriminate. lia. }
  rewrite E.
  pose proof (Z.div_mod (unixSec t) 86400 ltac:(discriminate)) as D. rewrite Hs in D.
  destruct t as [s n l]. cbn [unixSec nsec loc] in *. subst. f_equal. lia.
Qed.

(** A canonical value of a type other than a tuple, an array and JSON
    converts to itself, and is no slice. *)
Lemma scalar_fixed t c :
  is_scalar t = true -> json_free t = true -> canonical t c ->
  result (Convert t c) = Ok c /\ unnil c = c.
Proof.
  destruct t; try discriminate; intros _ _.
  - intros [v H]. cbn [Convert pure result fst] in *.
    destruct v; inversion H; split; reflexivity.
  - apply numberT_fixed.
  - intros [v H]. cbn [Convert pure result fst] in *.
    apply timestampT_Convert_UTC in H as [t ->]. split; reflexivity.
  - intros [v H]. cbn [Convert pure result fst] in *.
    apply dateT_Convert_start in H as [t [-> Hs]].
    cbn [dateT_Convert]. rewrite (start_of_day_truncate t Hs). split; reflexivity.
  - intros [v H]. cbn [Convert pure result fst] in *.
    apply textT_Convert_shape in H as [s ->]. split; reflexivity.
  - intros [v H]. cbn [Convert pure result fst] in *.
    apply booleanT_Convert_shape in H as [b ->]. split; reflexivity.
  - intros [v H]. cbn [Convert pure result fst] in *.
    apply blobT_Convert_shape in H as [b ->]. split; reflexivity.
Qed.

Lemma scalar_fixed_at t : is_scalar t = true -> json_free t = true -> fixed_at t.
Proof.
  intros S J c Hc. destruct (scalar_fixed t c S J Hc) as [H E].
  rewrite E. split; [exact H|intros _; reflexivity].
Qed.

(** X16. In a type where JSON does not occur, [Convert] gives every
    canonical value back with its elements unchanged: the value itself
    when no array occurs in the type, and otherwise the value with each nil
    slice, the canonical value of an empty producer, replaced by the empty
    slice. *)
Theorem Convert_fixes_canonical t :
  json_free t = true -> fixed_at t.
Proof.
  induction t using Type_induction; intros J;
    try (apply scalar_fixed_at; [reflexivity|exact J]).
  - intros c [v Hc].
    apply (tupleT_Convert_result ts) in Hc as [vals [res [_ [-> Hc]]]].
    cbn [json_free] in J. rewrite forallb_forall in J.
    assert (A : Converted ts res (map unnil res)
                /\ (array_free (tupleT ts) = true -> map unnil res = res)).
    { cbn [array_free]. rewrite forallb_forall.
      induction Hc as [|t ts x xs c cs Hx Hrest IH]; [split; [constructor|reflexivity]|].
      inversion H as [|? ? Ht Hts]; subst.
      destruct (Ht (J t (or_introl eq_refl)) c (ex_intro _ x Hx)) as [Hc Hf].
      destruct (IH Hts (fun t' Hin => J t' (or_intror Hin))) as [IH1 IH2].
      split.
      - cbn [map]. constructor; assumption.
      - intros F. cbn [map]. f_equal.
        + apply Hf. apply F. left. reflexivity.
        + apply IH2. intros t' Hin. apply F. right. exact Hin. }
    destruct A as [A1 A2]. cbn [unnil]. split.
    + apply (tupleT_Convert_result ts). exists res, (map unnil res). repeat split.
      exact A1.
    + intros F. rewrite (A2 F). reflexivity.
  - intros c [v Hc]. cbn [json_free] in J. specialize (IHt J).
    apply (arrayT_Convert_result t) in Hc as [xs [cs [Hs Hc]]].
    split; [|discriminate].
    assert (E : result (mapM (Convert t) cs) = Ok (map unnil cs)).
    { apply mapM_result. clear Hs.
      induction Hc as [|x c' xs cs Hx _ IH]; cbn [map]; constructor; [|exact IH].
      apply (IHt c'). exists x. exact Hx. }
    pose proof (arrayT_Convert_elements t c cs Hs) as E0.
    rewrite E in E0. change (arrayT t) with (Array t). rewrite E0.
    destruct c; try discriminate Hs; cbn [as_slice] in Hs; injection Hs as <-;
      reflexivity.
Qed.

(** X17. [Date.Convert] on a value that is not a text is [Timestamp.Convert]
    followed by the truncation to the day: the same errors, and the
    truncated time otherwise. *)
Theorem dateT_Convert_truncates_Timestamp v :
  (forall s, v <> VString s) ->
  dateT_Convert v =
  match timestampT_Convert v with
  | Ok (VTime t) => Ok (VTime (Time_UTC (truncateDate t)))
  | other => other
  end.
Proof.
  intros N. unfold dateT_Convert, timestampT_Convert.
  destruct v; try (exfalso; exact (N _ eq_refl));
    try reflexivity;
    match goal with
    | |- context [numberT_Convert ?q ?v] =>
        destruct (numberT_Convert q v) as [[]| |]; reflexivity
    end.
Qed.

End FixedPoints.

(** A pair of a date and an array of numbers converts to itself; with the
    array drained from an empty producer, the nil slice comes back as an
    empty slice. *)
Lemma Convert_fixes_canonical_witness :
  let t := Tuple [Date; Array Uint32] in
  let c := VSlice [VTime (mkTime 1577923200 0 UTC);
                   VSlice [VInt KUint32 7; VInt KUint32 1]] in
  let d := VSlice [VTime (mkTime 1577923200 0 UTC); VNilSlice] in
  result (Convert t c) = Ok c
  /\ result (Convert t (VSlice [VString "2020-01-02"; VGenerator 1 [] io_EOF None])) = Ok d
  /\ result (Convert t d) = Ok (VSlice [VTime (mkTime 1577923200 0 UTC); VSlice []]).
Proof.
  split; [|split; [reflexivity|]].
  - apply (Convert_fixes_canonical (L := DecimalLib) (Tuple [Date; Array Uint32]) eq_refl).
    exists (VSlice [VString "2020-01-02"; VSlice [VString "7"; VBool true]]).
    reflexivity.
  - apply (Convert_fixes_canonical (L := DecimalLib) (Tuple [Date; Array Uint32]) eq_refl).
    exists (VSlice [VString "2020-01-02"; VGenerator 1 [] io_EOF None]).
    reflexivity.
Defined.

(** [Date.Convert] and [Timestamp.Convert] on the integer 1577966400. *)
Lemma dateT_Convert_truncates_Timestamp_witness :
  dateT_Convert (VInt KInt 1577966400) = Ok (VTime (mkTime 1577923200 0 UTC))
  /\ timestampT_Convert (VInt KInt 1577966400) = Ok (VTime (mkTime 1577966400 0 UTC)).
Proof.
  split; [|reflexivity].
  rewrite (dateT_Convert_truncates_Timestamp (L := DecimalLib) (VInt KInt 1577966400)).
  - reflexivity.
  - discriminate.
Defined.

(* ------------------------------------------------------------------ *)
(** *** Arrays of different lengths *)

Section ArrayLength.
Context {L : GoLib}.

Lemma arrayT_Convert_slice_length u xs c :
  result (Convert (Array u) (VSlice xs)) = Ok c ->
  exists cs, c = VSlice cs /\ List.length cs = List.length xs.
Proof.
  rewrite (arrayT_Convert_elements u (VSlice xs) xs eq_refl).
  destruct (result (mapM (Convert u) xs)) as [rs| |] eqn:E; try discriminate.
  intros H. injection H as <-. apply mapM_result in E.
  exists rs. split; [reflexivity|]. symmetry. exact (Forall2_length E).
Qed.

(** X18. [Array(U).Compare] orders sequences by length first: of two
    sequences that both convert, the shorter one is the smaller, whatever
    their elements are, and the elements are not compared. *)
Theorem arrayT_Compare_shorter_first u xs ys :
  succeeds (Convert (Array u) (VSlice xs)) = true ->
  succeeds (Convert (Array u) (VSlice ys)) = true ->
  (List.length xs < List.length ys)%nat ->
  compares (Array u) (VSlice xs) (VSlice ys) (-1)
  /\ compares (Array u) (VSlice ys) (VSlice xs) 1.
Proof.
  intros Hx Hy Hlen. unfold succeeds in Hx, Hy.
  destruct (result (Convert (Array u) (VSlice xs))) as [c| |] eqn:Ex; try discriminate.
  destruct (result (Convert (Array u) (VSlice ys))) as [d| |] eqn:Ey; try discriminate.
  destruct (arrayT_Convert_slice_length u xs c Ex) as [cs [-> Lc]].
  destruct (arrayT_Convert_slice_length u ys d Ey) as [ds [-> Ld]].
  split.
  - apply (array_compares u _ _ cs ds (-1) Ex Ey).
    rewrite Lc, Ld. apply Nat.ltb_lt in Hlen. rewrite Hlen. reflexivity.
  - apply (array_compares u _ _ ds cs 1 Ey Ex).
    rewrite Lc, Ld.
    replace (List.length ys <? List.length xs)%nat with false
      by (symmetry; apply Nat.ltb_ge; lia).
    apply Nat.ltb_lt in Hlen. rewrite Hlen. reflexivity.
Qed.

End ArrayLength.

(** The array [9] is below the array [1, 2]. *)
Lemma arrayT_Compare_shorter_first_witness :
  compares (Array Int64) (VSlice [VInt KInt 9]) (VSlice [VInt KInt 1; VInt KInt 2]) (-1)
  /\ compares (Array Int64) (VSlice [VInt KInt 1; VInt KInt 2]) (VSlice [VInt KInt 9]) 1.
Proof.
  apply (arrayT_Compare_shorter_first (L := DecimalLib) Int64
           [VInt KInt 9] [VInt KInt 1; VInt KInt 2]).
  - reflexivity.
  - reflexivity.
  - cbn. lia.
Defined.

(* ------------------------------------------------------------------ *)
(** *** Times and dates over the wire *)

Section WireRoundTrip.
Context {L : GoLib}.

Lemma Timestamp_text t :
  loc t = UTC ->
  -62167219200 <= unixSec t <= 253402300799 ->
  time_Parse TimestampLayout (Time_Format t TimestampLayout)
  = Some (mkTime (unixSec t) 0 UTC).
Proof.
  intros Hl Hr.
  assert (Hz : -719528 <= unixSec t / 86400 <= 2932896).
  { split; [apply Z.div_le_lower_bound; lia|].
    apply Z.lt_succ_r, Z.div_lt_upper_bound; lia. }
  pose proof (day_fields _ (civil_year_range _ Hz)) as F.
  unfold Time_Format, zone_offset. rewrite Hl, Timestamp_chunks.
  cbn [format_chunks]. rewrite Z.add_0_r.
  destruct (civil_from_days (unixSec t / 86400)) as [[y m] d].
  destruct F as [Fy [Fm [Fd [Fd' Fz]]]].
  set (secs := unixSec t mod 86400).
  assert (Hs : 0 <= secs < 86400) by (apply Z.mod_pos_bound; lia).
  assert (Hh : 0 <= secs / 3600 < 24)
    by (split; [apply Z.div_pos; lia|apply Z.div_lt_upper_bound; lia]).
  assert (Hmi : 0 <= secs mod 3600 / 60 < 60).
  { pose proof (Z.mod_pos_bound secs 3600 ltac:(lia)).
    split; [apply Z.div_pos; lia|apply Z.div_lt_upper_bound; lia]. }
  assert (Hse : 0 <= secs mod 60 < 60) by (apply Z.mod_pos_bound; lia).
  rewrite (appendInt_four y), !appendInt_two by lia.
  rewrite (time_Parse_Timestamp y m d _ _ _ Fy Fm Fd Hh Hmi Hse).
  unfold time_Date. rewrite Fz. f_equal.
  change (0 / time_Second) with 0. change (0 mod time_Second) with 0.
  f_equal. subst secs. clear. Z.to_euclidean_division_equations; lia.
Qed.

Lemma Date_text t :
  start_of_day t ->
  -62167219200 <= unixSec t <= 253402300799 ->
  time_Parse DateLayout (Time_Format t DateLayout) = Some t.
Proof.
  intros [Hs [Hn Hl]] Hr.
  assert (Hz : -719528 <= unixSec t / 86400 <= 2932896).
  { split; [apply Z.div_le_lower_bound; lia|].
    apply Z.lt_succ_r, Z.div_lt_upper_bound; lia. }
  pose proof (day_fields _ (civil_year_range _ Hz)) as F.
  unfold Time_Format, zone_offset. rewrite Hl, Date_chunks.
  cbn [format_chunks]. rewrite Z.add_0_r.
  destruct (civil_from_days (unixSec t / 86400)) as [[y m] d].
  destruct F as [Fy [Fm [Fd [Fd' Fz]]]].
  rewrite (appendInt_four y), !appendInt_two by lia.
  rewrite (time_Parse_Date y m d Fy Fm Fd).
  unfold time_Date. rewrite Fz.
  change (0 / time_Second) with 0. change (0 mod time_Second) with 0.
  destruct t as [s n l]. cbn [unixSec nsec loc] in *. subst n l. f_equal. f_equal.
  pose proof (Z.div_mod s 86400 ltac:(lia)). lia.
Qed.

(** X19. A timestamp between the years 0 and 9999 survives the wire:
    [Timestamp.SQL] writes it as a text that [Timestamp.Convert] reads back
    as the same second in UTC; the fraction of a second and the location
    are what is lost. *)
Theorem Timestamp_SQL_Convert_round_trip t :
  -62167219200 <= unixSec t <= 253402300799 ->
  exists w,
    SQL Timestamp (VTime t) = ret w
    /\ wire_type w = sqltypes_Timestamp
    /\ Convert Timestamp (VString (string_of (wire_val w)))
       = ret (VTime (mkTime (unixSec t) 0 UTC)).
Proof.
  intros Hr. eexists. split; [reflexivity|]. split; [reflexivity|].
  cbn [wire_val]. unfold string_of, bytes_of.
  rewrite string_of_list_byte_of_string.
  cbn [Convert]. unfold timestampT_Convert.
  rewrite (Timestamp_text (Time_UTC t) eq_refl Hr). reflexivity.
Qed.

(** X20. A date between the years 0 and 9999 survives the wire:
    [Date.SQL] writes the start of a day as a text that [Date.Convert]
    reads back as the same time. *)
Theorem Date_SQL_Convert_round_trip t :
  start_of_day t ->
  -62167219200 <= unixSec t <= 253402300799 ->
  exists w,
    SQL Date (VTime t) = ret w
    /\ Convert Date (VString (string_of (wire_val w))) = ret (VTime t).
Proof.
  intros Hs Hr.
  pose proof (start_of_day_truncate t Hs) as E.
  eexists. split.
  - cbn [SQL]. unfold dateT_SQL, dateT_Convert. rewrite E. reflexivity.
  - cbn [wire_val]. unfold string_of, bytes_of.
    rewrite string_of_list_byte_of_string.
    cbn [Convert]. unfold dateT_Convert.
    rewrite (Date_text t Hs Hr), E. reflexivity.
Qed.

End WireRoundTrip.

(** A timestamp of 2 January 2020, one hour east of UTC. *)
Lemma Timestamp_SQL_Convert_round_trip_witness :
  exists w,
    SQL Timestamp (VTime (mkTime 1577966400 250 (FixedZone 3600))) = ret w
    /\ wire_type w = sqltypes_Timestamp
    /\ Convert Timestamp (VString (string_of (wire_val w)))
       = ret (VTime (mkTime 1577966400 0 UTC)).
Proof.
  apply (Timestamp_SQL_Convert_round_trip (L := DecimalLib)
           (mkTime 1577966400 250 (FixedZone 3600))).
  cbn. lia.
Defined.

(** The date of 2 January 2020. *)
Lemma Date_SQL_Convert_round_trip_witness :
  exists w,
    SQL Date (VTime (mkTime 1577923200 0 UTC)) = ret w
    /\ Convert Date (VString (string_of (wire_val w)))
       = ret (VTime (mkTime 1577923200 0 UTC)).
Proof.
  apply (Date_SQL_Convert_round_trip (L := DecimalLib) (mkTime 1577923200 0 UTC)).
  - repeat split.
  - cbn. lia.
Defined.

(* ------------------------------------------------------------------ *)
(** *** Texts, blobs and booleans over the wire; shapes and names *)

Section Scalars.
Context {L : GoLib}.

(** X21. [Text.SQL] and [Blob.SQL] write a text and a byte slice as their
    own bytes, which [Convert] reads back unchanged.  [Boolean.SQL] writes
    a boolean as 1 or 0, and [Boolean.Convert] rejects every text: the
    wire text of a boolean is not read back. *)
Theorem scalar_wire_round_trip :
  (forall s, exists w,
      SQL Text (VString s) = ret w /\ wire_type w = sqltypes_Text
      /\ Convert Text (VString (string_of (wire_val w))) = ret (VString s))
  /\ (forall b, exists w,
      SQL Blob (VBytes b) = ret w /\ wire_type w = sqltypes_Blob
      /\ Convert Blob (VBytes (wire_val w)) = ret (VBytes b))
  /\ (forall b, exists w,
      SQL Boolean (VBool b) = ret w /\ wire_type w = sqltypes_Bit
      /\ wire_val w = bytes_of (if b then "1" else "0")
      /\ succeeds (Convert Boolean (VString (string_of (wire_val w)))) = false).
Proof.
  split; [|split].
  - intros s. eexists. split; [reflexivity|]. split; [reflexivity|].
    cbn [wire_val]. unfold string_of, bytes_of.
    rewrite string_of_list_byte_of_string. reflexivity.
  - intros b. eexists. split; [reflexivity|]. split; reflexivity.
  - intros b. eexists. split; [reflexivity|]. repeat split.
Qed.

(** X22. [IsTuple] holds exactly of the types with more than one column,
    and [UnderlyingType] gives a type other than its argument exactly on
    the arrays, where it gives the type of the elements. *)
Theorem shape_accessors t :
  (IsTuple t = true <-> (1 < NumColumns t)%nat)
  /\ (IsArray t = true <-> UnderlyingType t <> t)
  /\ (forall u, UnderlyingType (Array u) = u).
Proof.
  assert (A : forall u, arrayT u <> u).
  { intros u. induction u; try discriminate.
    intros E. injection E as E. exact (IHu E). }
  split; [|split].
  - destruct t; cbn [IsTuple NumColumns]; try (split; [discriminate|lia]).
    apply Nat.ltb_lt.
  - destruct t; cbn [IsArray UnderlyingType];
      try (split; [discriminate|intros N; exfalso; apply N; reflexivity]).
    split; [intros _ E; exact (A t (eq_sym E))|reflexivity].
  - reflexivity.
Qed.

(** X23. [MySQLTypeName] knows no name for a type exactly when the wire
    code of the type is that of Null or one that [MysqlTypeToType] does not
    support; an array is named as JSON is. *)
Theorem MySQLTypeName_unknown t :
  (MySQLTypeName t = "UNKNOWN" <->
   Type_Type t = sqltypes_Null \/ MysqlTypeToType (Type_Type t) = Err ErrTypeNotSupported)
  /\ (forall u, MySQLTypeName (Array u) = MySQLTypeName JSON).
Proof.
  split; [|reflexivity].
  unfold MySQLTypeName, MysqlTypeToType.
  destruct (Type_Type t); split; intros H;
    try discriminate H; try (left; reflexivity); try (right; reflexivity);
    try reflexivity; destruct H as [H|H]; discriminate H.
Qed.

End Scalars.
